(** * VidTrans: the batch job execution engine

    A shallow embedding of the parts of the VidTrans scripts that select
    subtitle streams, build the processing steps, track progress and
    schedule the queue:

    - [App2]  : app2.py (JobWorker, MainWindow),
    - [Alfa]  : the script "LG DNLA Toolkit v0 alfa.py" (FFmpegWorker),
    - [SubsGpt] : subsgpt.py (FFmpegWorker, MainWindow),
    - [SubsChat] : the script "Subs, ChatGPT.py" (unique_path).

    Python [str] values are modelled as [string] (sequences of characters
    below U+0100; case folding is the ASCII one), except the lines of a
    child process, which are sequences of code points ([Py.str]) read with
    the decimal digits of every script; Python [int] is [Z]; Python [float]
    is an IEEE 754 double ([Py.float]), with its rounding, its infinities
    and the exceptions of the conversions from and to [int]. *)

From Stdlib Require Import List String Ascii ZArith NArith Lia Bool Arith.
From Stdlib Require Import SpecFloat.
From Stdlib Require Import DecimalString DecimalNat Finite.
Import ListNotations.

Open Scope string_scope.

(** ** Python string helpers *)

Module PyStr.

(** [c.lower()] on one character. *)
Definition lower_ascii (c : ascii) : ascii :=
  let n := nat_of_ascii c in
  if andb (65 <=? n)%nat (n <=? 90)%nat then ascii_of_nat (n + 32) else c.

(** [s.lower()] *)
Fixpoint lower (s : string) : string :=
  match s with
  | EmptyString => EmptyString
  | String c s' => String (lower_ascii c) (lower s')
  end.

(** [sub in s] *)
Fixpoint contains (sub s : string) : bool :=
  orb (String.prefix sub s)
      match s with
      | EmptyString => false
      | String _ s' => contains sub s'
      end.

(** [s.split(sep)[0]] for a one-character separator. *)
Fixpoint split_first (sep : ascii) (s : string) : string :=
  match s with
  | EmptyString => EmptyString
  | String c s' =>
      if Ascii.eqb c sep then EmptyString else String c (split_first sep s')
  end.

(** [x in xs] for a list of strings. *)
Definition mem (x : string) (xs : list string) : bool :=
  existsb (String.eqb x) xs.

(** [str(n)] for an [int]. *)
Definition str_of_Z (n : Z) : string :=
  NilZero.string_of_int (Z.to_int n).

(** [str(n)] for a natural number. *)
Definition str_of_nat (n : nat) : string :=
  NilEmpty.string_of_uint (Nat.to_uint n).

(** [a or b] on optional strings: [None] and the empty string are falsy. *)
Definition or_str (a b : option string) : option string :=
  match a with
  | Some EmptyString | None => b
  | Some _ => a
  end.

(** [a or default] where the default is a plain string. *)
Definition or_default (a : option string) (d : string) : string :=
  match a with
  | Some EmptyString | None => d
  | Some s => s
  end.

(** [d.get(k)] on a dictionary kept as an association list. *)
Fixpoint dict_get {V : Type} (d : list (string * V)) (k : string) : option V :=
  match d with
  | [] => None
  | (k', v) :: d' => if String.eqb k' k then Some v else dict_get d' k
  end.

End PyStr.

(** ** Python numbers, exceptions and the progress pattern *)

Module Py.

(** The outcome of evaluating a Python expression: a value, or an exception
    named by its class. *)
Inductive result (A : Type) :=
  | Ret (a : A)
  | Raise (exn : string).
Arguments Ret {A} a.
Arguments Raise {A} exn.

Definition bind {A B : Type} (r : result A) (k : A -> result B) : result B :=
  match r with
  | Ret a => k a
  | Raise e => Raise e
  end.

(** *** Text *)

(** A [str] as the sequence of its code points. *)
Definition str := list N.

(** The [str] of a text whose characters are below U+0100. *)
Definition of_string (s : string) : str :=
  map N_of_ascii (list_ascii_of_string s).

(** The digit zero of each set of decimal digits of Unicode 14.0, the
    character database of CPython 3.11; the nine code points after it are
    the digits one to nine of the set. *)
Definition DECIMAL_ZEROS : list N :=
  [48; 1632; 1776; 1984; 2406; 2534; 2662; 2790; 2918; 3046; 3174; 3302;
   3430; 3558; 3664; 3792; 3872; 4160; 4240; 6112; 6160; 6470; 6608; 6784;
   6800; 6992; 7088; 7232; 7248; 42528; 43216; 43264; 43472; 43504; 43600;
   44016; 65296; 66720; 68912; 69734; 69872; 69942; 70096; 70384; 70736;
   70864; 71248; 71360; 71472; 71904; 72016; 72784; 73040; 73120; 92768;
   92864; 93008; 120782; 120792; 120802; 120812; 120822; 123200; 123632;
   125264; 130032]%N.

(** [unicodedata.decimal(c)] for the characters that have a decimal value:
    the ones that [\d] matches in a [str] pattern and that [int] and
    [float] read as digits. *)
Definition decimal (c : N) : option Z :=
  match find (fun z => andb (z <=? c)%N (c <? z + 10)%N) DECIMAL_ZEROS with
  | Some z => Some (Z.of_N (c - z))
  | None => None
  end.

Definition is_digit (c : N) : bool :=
  match decimal c with
  | Some _ => true
  | None => false
  end.

Definition all_digits (s : str) : bool := forallb is_digit s.

(** Value of a string of decimal digits read left to right from [acc]. *)
Fixpoint digits_val (acc : Z) (s : str) : Z :=
  match s with
  | [] => acc
  | c :: s' =>
      digits_val (10 * acc + match decimal c with Some d => d | None => 0 end) s'
  end.

(** [sys.get_int_max_str_digits()] as CPython 3.11 starts with it. *)
Definition INT_MAX_STR_DIGITS : nat := 4300.

(** [int(s)] for a string of decimal digits, which is what the pattern
    captures: the conversion refuses a string of more than
    [INT_MAX_STR_DIGITS] digits, leading zeros included, with ValueError.
    (Signs, spaces and underscores, which [int] also reads, never reach
    it here and are not modelled: the answer for them is ValueError.) *)
Definition int_of_str (s : str) : result Z :=
  match s with
  | [] => Raise "ValueError"
  | _ =>
      if all_digits s
      then if (INT_MAX_STR_DIGITS <? List.length s)%nat
           then Raise "ValueError"
           else Ret (digits_val 0 s)
      else Raise "ValueError"
  end.

(** *** Floating point *)

(** A [float] is an IEEE 754 binary64 number: 53 bits of precision,
    infinities at exponent 1024, rounding to nearest, ties to even. *)
Definition float := spec_float.
Definition prec : Z := 53.
Definition emax : Z := 1024.

(** [0.0] *)
Definition F0 : float := S754_zero false.

(** The double nearest to [n / d], for [0 <= n] and [0 < d]. *)
Definition float_of_ratio (n d : Z) : float :=
  match n with
  | Zpos _ =>
      let '(q, e, l) := SFdiv_core_binary prec emax n 0 d 0 in
      binary_round_aux prec emax false q e l
  | _ => F0
  end.

(** The double nearest to the integer [n], infinite beyond the range. *)
Definition float_of_Z (n : Z) : float := binary_normalize prec emax n 0 false.

(** The least integer whose conversion to a double overflows: it rounds
    (half to even) to 2^1024. *)
Definition DBL_OVERFLOW : Z := 2 ^ 1024 - 2 ^ 970.

(** Conversion of an [int] operand to [float], as [int + float] does it. *)
Definition float_of_int (n : Z) : result float :=
  if (Z.abs n <? DBL_OVERFLOW)%Z then Ret (float_of_Z n)
  else Raise "OverflowError".

(** [x + y] and [x * y] on floats: an overflow gives an infinity. *)
Definition fadd (x y : float) : float := SFadd prec emax x y.
Definition fmul (x y : float) : float := SFmul prec emax x y.

(** [x / y] on floats. *)
Definition fdiv (x y : float) : result float :=
  match y with
  | S754_zero _ => Raise "ZeroDivisionError"
  | _ => Ret (SFdiv prec emax x y)
  end.

(** [x > 0] *)
Definition gt0 (x : float) : bool := SFltb F0 x.

(** The truth value of a float: anything but a zero. *)
Definition nonzero (x : float) : bool :=
  match x with
  | S754_zero _ => false
  | _ => true
  end.

(** [int(x)] on a float: truncation towards zero. *)
Definition int_of_float (x : float) : result Z :=
  match x with
  | S754_zero _ => Ret 0%Z
  | S754_finite s m e =>
      Ret (cond_Zopp s (if (0 <=? e)%Z then Z.shiftl (Zpos m) e
                        else Z.shiftr (Zpos m) (- e)))
  | S754_infinity _ => Raise "OverflowError"
  | S754_nan => Raise "ValueError"
  end.

(** Split at the first "." : integer part, and the fraction when there is a
    point. *)
Fixpoint split_point (s : str) : str * option str :=
  match s with
  | [] => ([], None)
  | c :: s' =>
      if (c =? 46)%N then ([], Some s')
      else let (a, b) := split_point s' in (c :: a, b)
  end.

(** [float(s)] on the strings the pattern can capture, "12", "12." and
    "12.34" in the digits of any script: the double nearest to the decimal
    value, an infinity when it is beyond the range. (Signs, exponents and
    the other shapes [float] reads never reach it here and are not
    modelled: the answer for them is ValueError.) *)
Definition float_of_str (s : str) : result float :=
  let (a, b) := split_point s in
  match a with
  | [] => Raise "ValueError"
  | _ =>
      if negb (all_digits a) then Raise "ValueError"
      else match b with
           | None => Ret (float_of_ratio (digits_val 0 a) 1)
           | Some f =>
               if all_digits f
               then Ret (float_of_ratio (digits_val 0 (a ++ f)%list)
                                        (10 ^ Z.of_nat (List.length f)))
               else Raise "ValueError"
           end
  end.

(** *** The progress pattern *)

(** Longest prefix of digits, and what follows it: a greedy run of digits. *)
Fixpoint take_digits (s : str) : str * str :=
  match s with
  | [] => ([], [])
  | c :: s' =>
      if is_digit c
      then let (d, r) := take_digits s' in (c :: d, r)
      else ([], s)
  end.

(** [s] without the prefix [p], when it starts with it. *)
Fixpoint strip_prefix (p s : str) : option str :=
  match p, s with
  | [], _ => Some s
  | a :: p', b :: s' => if (a =? b)%N then strip_prefix p' s' else None
  | _ :: _, [] => None
  end.

(** One or more digits, greedily, and what follows them. *)
Definition digits_then (s : str) : option (str * str) :=
  let (d, r) := take_digits s in
  match d with
  | [] => None
  | _ => Some (d, r)
  end.

(** The character [c], and what follows it. *)
Definition expect (c : N) (s : str) : option str :=
  match s with
  | c' :: r => if (c' =? c)%N then Some r else None
  | [] => None
  end.

(** The text "time=", the colon and the point of the pattern. *)
Definition TIME : str := of_string "time=".
Definition COLON : N := 58.
Definition POINT : N := 46.

(** An attempt to match the pattern of [TIME_RE] at the start of [s]: the
    text "time=", then three groups separated by ":" where the first two are
    one or more digits and the third is one or more digits, an optional
    point and any number of digits. Each run of digits is followed by a
    character that is not a digit, so the greedy choice is the only one that
    can succeed, and once the third run has matched the rest of the pattern
    cannot fail. *)
Definition match_here (s : str) : option (str * str * str) :=
  match strip_prefix TIME s with
  | None => None
  | Some r =>
  match digits_then r with
  | None => None
  | Some (h, r1) =>
  match expect COLON r1 with
  | None => None
  | Some r2 =>
  match digits_then r2 with
  | None => None
  | Some (m, r3) =>
  match expect COLON r3 with
  | None => None
  | Some r4 =>
  match digits_then r4 with
  | None => None
  | Some (s1, r5) =>
  match expect POINT r5 with
  | Some r6 =>
      let (s2, _) := take_digits r6 in Some (h, m, (s1 ++ POINT :: s2)%list)
  | None => Some (h, m, s1)
  end end end end end end end.

(** [TIME_RE.search(line)] followed by [m.groups()]: the leftmost match. *)
Fixpoint search (line : str) : option (str * str * str) :=
  match match_here line with
  | Some g => Some g
  | None =>
      match line with
      | [] => None
      | _ :: rest => search rest
      end
  end.

(** parse_ffmpeg_time (app2.py, subsgpt.py) and FFmpegWorker._parse_progress:
    [int(h)*3600 + int(mm)*60 + float(ss)], evaluated from left to right.
    The two products are added as integers; the sum is then converted to a
    float to be added to [float(ss)]. *)
Definition parse_ffmpeg_time (line : str) : result (option float) :=
  match search line with
  | None => Ret None
  | Some (h, mm, ss) =>
      bind (int_of_str h) (fun hv =>
      bind (int_of_str mm) (fun mv =>
      bind (float_of_str ss) (fun sv =>
      bind (float_of_int (hv * 3600 + mv * 60)) (fun iv =>
      Ret (Some (fadd iv sv))))))
  end.

End Py.

(** ** app2.py *)

Module App2.

(** Job.status: the strings the script assigns, plus the spec's [canceled]. *)
Inductive Status :=
  | queued | incompatible | running | done | error | skipped | canceled.

Definition Status_eqb (a b : Status) : bool :=
  match a, b with
  | queued, queued | incompatible, incompatible | running, running
  | done, done | error, error | skipped, skipped | canceled, canceled => true
  | _, _ => false
  end.

(** @dataclass StreamInfo *)
Record StreamInfo := mkStreamInfo {
  index : Z;
  codec_type : string;
  codec_name : string;
  language : option string
}.

(** @dataclass Job *)
Record Job := mkJob {
  input_path : string;
  out_dir : string;
  mode : string;
  extract_variant : string;
  target_container : string;
  target_vcodec : string;
  target_acodec : string;
  crf : Z;
  abr_kbps : Z;
  lang_filters : list string;
  streams : list StreamInfo;
  filesize : Z;
  duration : Py.float;
  status : Status;
  message : string;
  skip_if_incompatible : bool
}.

(** [Job(input_path=..., out_dir=...)]: the defaults of the dataclass. *)
Definition new_job (input_path out_dir : string) : Job :=
  mkJob input_path out_dir "extract" "vid_aud__leg" "mp4" "h264" "aac" 20 192
        ["pt-BR"; "en"] [] 0 Py.F0 queued "" false.

Definition set_status (j : Job) (s : Status) : Job :=
  mkJob (input_path j) (out_dir j) (mode j) (extract_variant j)
        (target_container j) (target_vcodec j) (target_acodec j) (crf j)
        (abr_kbps j) (lang_filters j) (streams j) (filesize j) (duration j)
        s (message j) (skip_if_incompatible j).

Definition set_message (j : Job) (m : string) : Job :=
  mkJob (input_path j) (out_dir j) (mode j) (extract_variant j)
        (target_container j) (target_vcodec j) (target_acodec j) (crf j)
        (abr_kbps j) (lang_filters j) (streams j) (filesize j) (duration j)
        (status j) m (skip_if_incompatible j).

Definition set_skip (j : Job) (b : bool) : Job :=
  mkJob (input_path j) (out_dir j) (mode j) (extract_variant j)
        (target_container j) (target_vcodec j) (target_acodec j) (crf j)
        (abr_kbps j) (lang_filters j) (streams j) (filesize j) (duration j)
        (status j) (message j) b.

(** JobWorker._match_sub_lang: the inner loop over
    [(lf.lower(), lf.split("-")[0].lower())] is the disjunction below. *)
Definition _match_sub_lang (filters : list string) (lang : option string) : bool :=
  match lang with
  | None => false
  | Some EmptyString => false
  | Some l =>
      let l' := PyStr.lower l in
      existsb (fun lf =>
                 orb (PyStr.contains (PyStr.lower lf) l')
                     (PyStr.contains (PyStr.lower (PyStr.split_first "-" lf)) l'))
              filters
  end.

(** [subtitle_streams] of JobWorker.run *)
Definition subtitle_streams (j : Job) : list StreamInfo :=
  filter (fun s => String.eqb (codec_type s) "subtitle") (streams j).

(** The subtitle streams JobWorker.run acts on:
    [for s in subtitle_streams: if self._match_sub_lang(s.language)]. *)
Definition matched_subtitles (j : Job) : list StreamInfo :=
  filter (fun s => _match_sub_lang (lang_filters j) (language s))
         (subtitle_streams j).


(** *** os.path *)

Fixpoint has_char (c : ascii) (s : string) : bool :=
  match s with
  | EmptyString => false
  | String d r => orb (Ascii.eqb d c) (has_char c r)
  end.

(** os.path.basename: what follows the last "/". *)
Fixpoint basename (p : string) : string :=
  match p with
  | EmptyString => EmptyString
  | String _ r => if has_char "/" p then basename r else p
  end.

(** [s[:s.rfind(".")]] for a string that holds a point. *)
Fixpoint cut_last_dot (s : string) : string :=
  match s with
  | EmptyString => EmptyString
  | String c r =>
      if has_char "." r then String c (cut_last_dot r)
      else if Ascii.eqb c "." then EmptyString else s
  end.

Fixpoint all_dots (s : string) : bool :=
  match s with
  | EmptyString => true
  | String c r => andb (Ascii.eqb c ".") (all_dots r)
  end.

(** [os.path.splitext(name)[0]] for a name without separator: the last
    point starts the extension unless only points precede it. *)
Definition splitext_root (name : string) : string :=
  if has_char "." name
  then let r := cut_last_dot name in if all_dots r then name else r
  else name.

Fixpoint ends_with_slash (s : string) : bool :=
  match s with
  | EmptyString => false
  | String c EmptyString => Ascii.eqb c "/"
  | String _ r => ends_with_slash r
  end.

(** os.path.join(a, b) *)
Definition path_join (a b : string) : string :=
  match b with
  | String "/" _ => b
  | _ => match a with
         | EmptyString => b
         | _ => if ends_with_slash a then a ++ b else a ++ "/" ++ b
         end
  end.

(** *** JobWorker *)

Inductive Signal :=
  | progress (pct : Z) (msg : string)
  | finished (ok : bool) (msg : string)
  | status_changed (st : string).

(** What the worker observes of one child process: whether Popen finds the
    program, the lines of its output, each with the value of [self._cancel]
    when the loop body starts on it, and the exit code. *)
Record Proc := mkProc {
  found : bool;
  output : list (bool * Py.str);
  returncode : Z
}.

(** [min(99, int((t/duration)*100))]: the quotient and the product are
    floats, and [int] raises on an infinity and on a NaN. *)
Definition percent (t duration : Py.float) : Py.result Z :=
  Py.bind (Py.fdiv t duration) (fun q =>
  Py.bind (Py.int_of_float (Py.fmul q (Py.float_of_Z 100))) (fun n =>
  Py.Ret (Z.min 99 n))).

(** What _run_process_and_track emits for a line parsed to [t]:
    [if t is not None and duration > 0: ... self.progress.emit(pct, step_msg)]. *)
Definition emit_for (duration : Py.float) (step_msg : string)
                    (t : option Py.float)
  : Py.result (list Signal) :=
  match t with
  | Some tv =>
      if Py.gt0 duration
      then Py.bind (percent tv duration) (fun pct =>
           Py.Ret [progress pct step_msg])
      else Py.Ret []
  | None => Py.Ret []
  end.

(** The [for line in self._proc.stdout] loop of _run_process_and_track and
    the [wait()] after it: the signals emitted and the returned value, or
    the exception that leaves the loop. *)
Fixpoint track (duration : Py.float) (step_msg : string)
               (out : list (bool * Py.str)) (rc : Z)
  : list Signal * Py.result bool :=
  match out with
  | [] => ([], Py.Ret (rc =? 0)%Z)
  | (cancel, line) :: rest =>
      if cancel then ([], Py.Ret false)
      else match Py.bind (Py.parse_ffmpeg_time line)
                         (emit_for duration step_msg) with
           | Py.Raise e => ([], Py.Raise e)
           | Py.Ret now =>
               let (sigs, r) := track duration step_msg rest rc in
               ((now ++ sigs)%list, r)
           end
  end.

(** JobWorker._run_process_and_track *)
Definition _run_process_and_track (p : Proc) (duration : Py.float)
                                  (step_msg : string)
  : list Signal * Py.result bool :=
  if found p
  then let (sigs, r) := track duration step_msg (output p) (returncode p) in
       (status_changed step_msg :: sigs, r)
  else ([status_changed step_msg; progress 0 "ffmpeg não encontrado"],
        Py.Ret false).

(** One invocation of the tool in JobWorker.run: the phase label, the output
    file, the argument vector and the message emitted when it fails. *)
Record Step := mkStep {
  phase : string;
  dest : string;
  args : list string;
  fail_msg : string
}.

Definition is_type (t : string) (s : StreamInfo) : bool :=
  String.eqb (codec_type s) t.

Definition video_streams (j : Job) : list StreamInfo :=
  filter (is_type "video") (streams j).

Definition audio_streams (j : Job) : list StreamInfo :=
  filter (is_type "audio") (streams j).

(** [unified_ext] of JobWorker.run *)
Definition unified_ext (j : Job) : string :=
  let mp4_vid_ok :=
    existsb (fun s => PyStr.mem (codec_name s)
                        ["h264"; "mpeg4"; "mpeg2video"; "mpeg1video"; "hevc"])
            (video_streams j) in
  let mp4_aud_ok :=
    existsb (fun s => PyStr.mem (codec_name s) ["aac"; "mp3"; "ac3"])
            (audio_streams j) in
  if andb (String.eqb (target_container j) "mp4")
          (negb (andb mp4_vid_ok mp4_aud_ok))
  then "mkv" else target_container j.

(** The part an output file plays: the roles of JobWorker.run. *)
Inductive Role :=
  | RVideo                                  (* "{base}.video.{ext}" *)
  | RAudio (n : nat)                        (* "{base}.audio{n}.mka" *)
  | RSubtitle (lang : option string) (n : nat) (* "{base}.{lang or 'sub'}.{n}.srt" *)
  | RUnified.                               (* "{base}.{ext}" *)

Definition str_of_nat (n : nat) : string := PyStr.str_of_nat n.

(** The file name of an output, from the input stem, the role and the
    extension of the unified container. *)
Definition dest_name (base : string) (r : Role) (ext : string) : string :=
  match r with
  | RVideo => base ++ ".video." ++ ext
  | RAudio n => base ++ ".audio" ++ str_of_nat n ++ ".mka"
  | RSubtitle lang n =>
      base ++ "." ++ PyStr.or_default lang "sub" ++ "." ++ str_of_nat n ++ ".srt"
  | RUnified => base ++ "." ++ ext
  end.

Definition map_arg (s : StreamInfo) : list string :=
  ["-map"; "0:" ++ PyStr.str_of_Z (index s)].

(** [enumerate(xs)] with the counter starting at [k]. *)
Fixpoint enumerate_from {A : Type} (k : nat) (xs : list A) : list (nat * A) :=
  match xs with
  | [] => []
  | x :: r => (k, x) :: enumerate_from (S k) r
  end.

Definition audio_step (ffmpeg : string) (j : Job) (base : string)
                      (ia : nat * StreamInfo) : Step :=
  let (idx, a) := ia in
  let n := str_of_nat (idx + 1) in
  mkStep ("Extraindo áudio " ++ n)
         (path_join (out_dir j) (dest_name base (RAudio (idx + 1)) "mka"))
         ([ffmpeg; "-y"; "-i"; input_path j] ++ map_arg a ++
          ["-c"; "copy";
           path_join (out_dir j) (dest_name base (RAudio (idx + 1)) "mka")])%list
         ("Falha ao extrair áudio " ++ n).

(** A subtitle step; [s_count] is the number of subtitles extracted before
    it, which is its position among the matched ones since the first
    failure ends the run. *)
Definition subtitle_step (ffmpeg : string) (j : Job) (base : string)
                         (cs : nat * StreamInfo) : Step :=
  let (s_count, s) := cs in
  let n := str_of_nat (s_count + 1) in
  let out_s := path_join (out_dir j)
                 (dest_name base (RSubtitle (language s) (s_count + 1)) "srt") in
  mkStep ("Extraindo legenda " ++ n)
         out_s
         ([ffmpeg; "-y"; "-i"; input_path j] ++ map_arg s ++
          ["-c:s"; "srt"; out_s])%list
         ("Falha ao extrair legenda " ++ n).

Definition subtitle_steps (ffmpeg : string) (j : Job) (base : string) : list Step :=
  map (subtitle_step ffmpeg j base) (enumerate_from 0 (matched_subtitles j)).

(** The steps of JobWorker.run for a job with first video stream [v], in
    the order the method runs them, and the message of a successful run. *)
Definition build_steps (ffmpeg : string) (j : Job) (v : StreamInfo)
  : list Step * string :=
  let base := splitext_root (basename (input_path j)) in
  let ext := unified_ext j in
  if String.eqb (mode j) "extract" then
    if String.eqb (extract_variant j) "sep_tracks" then
      let out_video := path_join (out_dir j) (dest_name base RVideo ext) in
      (mkStep "Extraindo vídeo" out_video
              ([ffmpeg; "-y"; "-i"; input_path j] ++ map_arg v ++
               ["-c"; "copy"; out_video])%list
              "Falha ao extrair vídeo"
       :: (map (audio_step ffmpeg j base) (enumerate_from 0 (audio_streams j))
           ++ subtitle_steps ffmpeg j base)%list,
       "Extração (faixas separadas) concluída")
    else if String.eqb (extract_variant j) "vid_aud__leg" then
      let out_unified := path_join (out_dir j) (dest_name base RUnified ext) in
      (mkStep "Remux: vídeo+áudio" out_unified
              ([ffmpeg; "-y"; "-i"; input_path j; "-c"; "copy"] ++ map_arg v ++
               flat_map map_arg (audio_streams j) ++ [out_unified])%list
              "Falha no remux vídeo+áudio"
       :: subtitle_steps ffmpeg j base,
       "Remux + legendas concluído")
    else
      let out_unified := path_join (out_dir j) (dest_name base RUnified ext) in
      ([mkStep "Remux unificado (V/A/Leg)" out_unified
               ([ffmpeg; "-y"; "-i"; input_path j; "-c"; "copy"] ++ map_arg v ++
                flat_map map_arg (audio_streams j) ++
                flat_map map_arg (matched_subtitles j) ++ [out_unified])%list
               "Falha no remux unificado"],
       "Remux unificado concluído")
  else
    let out_file :=
      path_join (out_dir j) (dest_name base RUnified (target_container j)) in
    ([mkStep "Transcodificando" out_file
             [ffmpeg; "-y"; "-i"; input_path j; "-c:v"; target_vcodec j;
              "-crf"; PyStr.str_of_Z (crf j); "-preset"; "veryfast";
              "-c:a"; target_acodec j;
              "-b:a"; PyStr.str_of_Z (abr_kbps j) ++ "k"; out_file]
             "Falha na transcodificação"],
     "Transcodificação concluída").

(** The steps run one after the other; the [k]-th spawned process behaves
    as [procs k]. The first step that does not return [True] ends the run
    with [finished(False, ...)]; an exception reaches the handler at the
    end of JobWorker.run. *)
Fixpoint exec_steps (duration : Py.float) (procs : nat -> Proc) (k : nat)
                    (steps : list Step) (ok_msg : string) : list Signal :=
  match steps with
  | [] => [finished true ok_msg]
  | st :: rest =>
      let (sigs, r) := _run_process_and_track (procs k) duration (phase st) in
      (sigs ++
       match r with
       | Py.Ret true => exec_steps duration procs (S k) rest ok_msg
       | Py.Ret false => [finished false (fail_msg st)]
       | Py.Raise e => [finished false ("Erro interno: " ++ e)%string]
       end)%list
  end.

(** JobWorker.run: the signals it emits. [probe] is what probe_duration
    returns for the input, consulted when [job.duration] is zero. *)
Definition run (ffmpeg : string) (probe : Py.float) (procs : nat -> Proc)
               (j : Job)
  : list Signal :=
  let duration := if Py.nonzero (duration j) then duration j else probe in
  status_changed "running" ::
  match video_streams j with
  | [] => [finished false "Sem faixa de vídeo"]
  | v :: _ =>
      let (steps, ok_msg) := build_steps ffmpeg j v in
      exec_steps duration procs 0 steps ok_msg
  end.

(** The steps JobWorker.run goes through for a job; none without a video
    stream. *)
Definition steps_of (ffmpeg : string) (j : Job) : list Step :=
  match video_streams j with
  | [] => []
  | v :: _ => fst (build_steps ffmpeg j v)
  end.

(** The child process was found, every line of its output was handled with
    [self._cancel] unset, and it exited with code 0. *)
Definition succeeded (p : Proc) : Prop :=
  found p = true /\ returncode p = 0%Z /\
  Forall (fun l => fst l = false) (output p).

Definition is_finished (s : Signal) : bool :=
  match s with
  | finished _ _ => true
  | _ => false
  end.

(** *** Admission: probe_duration and MainWindow.add_from_input *)

Section Admission.

(** [float(s.strip())]: the value, or the exception it raises. *)
Variable float_of_output : string -> Py.result Py.float.

(** probe_duration: [out] is what [subprocess.check_output] returns, or the
    exception it raises. *)
Definition probe_duration (out : Py.result string) : Py.float :=
  match Py.bind out float_of_output with
  | Py.Ret d => d
  | Py.Raise _ => Py.F0
  end.

(** One entry of the "streams" array of ffprobe, as add_from_input reads it. *)
Record Probed := mkProbed {
  p_index : Z;
  p_codec_type : string;
  p_codec_name : string;
  p_tags : option (list (string * string))
}.

(** What add_from_input learns about one file from its environment. *)
Record FileEnv := mkFileEnv {
  probe_streams : Py.result (list Probed); (* run_ffprobe_collect_streams *)
  getsize : Z;                             (* os.path.getsize(full) *)
  duration_out : Py.result string;         (* output of the duration probe *)
  disk_free : Py.result Z                  (* shutil.disk_usage(out_dir).free *)
}.

Definition stream_info (s : Probed) : StreamInfo :=
  let tags := match p_tags s with Some t => t | None => [] end in
  mkStreamInfo (p_index s) (p_codec_type s) (p_codec_name s)
    (PyStr.or_str (PyStr.dict_get tags "language")
                  (PyStr.dict_get tags "LANGUAGE")).

Definition with_probe (j : Job) (ss : list StreamInfo) (size : Z)
                      (d : Py.float) : Job :=
  mkJob (input_path j) (out_dir j) (mode j) (extract_variant j)
        (target_container j) (target_vcodec j) (target_acodec j) (crf j)
        (abr_kbps j) (lang_filters j) (streams j ++ ss)%list size d
        (status j) (message j) (skip_if_incompatible j).

(** The body of the loop of add_from_input for one file. [j0] is the job
    as created from the window's controls. *)
Definition admit_file (j0 : Job) (env : FileEnv) : Job :=
  let j1 :=
    match probe_streams env with
    | Py.Raise err =>
        set_message (set_status j0 incompatible) ("ffprobe falhou: " ++ err)
    | Py.Ret ss =>
        let j := with_probe j0 (map stream_info ss) (getsize env)
                            (probe_duration (duration_out env)) in
        if existsb (is_type "video") (streams j)
        then set_status j queued
        else set_message (set_status j incompatible) "Sem faixa de vídeo"
    end in
  match disk_free env with
  | Py.Ret free =>
      if (free <? filesize j1)%Z
      then set_message (set_status j1 incompatible)
                       "Espaço insuficiente em destino"
      else j1
  | Py.Raise _ => j1
  end.

End Admission.

(** *** MainWindow: the queue *)

(** The worker thread of the window, as the window sees it. *)
Record JobWorker := mkWorker { isRunning : bool }.

(** The window: the jobs, the value of the progress bar of each table row
    (the rows and the jobs are kept in step), the current worker and its
    row. *)
Record MainWindow := mkWindow {
  jobs : list Job;
  pbar : list Z;
  current_worker : option JobWorker;
  current_row : option nat
}.

Definition initial : MainWindow := mkWindow [] [] None None.

(** [l[i] = x] for an index in range. *)
Fixpoint list_set {A : Type} (i : nat) (x : A) (l : list A) : list A :=
  match l, i with
  | [], _ => []
  | _ :: r, O => x :: r
  | y :: r, S i' => y :: list_set i' x r
  end.

(** [l.pop(i)] for an index in range; out of range the list is unchanged
    (the IndexError is swallowed by the callers). *)
Fixpoint list_pop {A : Type} (i : nat) (l : list A) : list A :=
  match l, i with
  | [], _ => []
  | _ :: r, O => r
  | y :: r, S i' => y :: list_pop i' r
  end.

(** The [for idx, job in enumerate(self.jobs)] loop of process_next from
    row [idx] on: the jobs after the loop and [next_idx]. *)
Fixpoint scan (js : list Job) (idx : nat) : list Job * option nat :=
  match js with
  | [] => ([], None)
  | j :: rest =>
      if Status_eqb (status j) queued then (js, Some idx)
      else
        let j' := if andb (Status_eqb (status j) incompatible)
                          (skip_if_incompatible j)
                  then set_status j skipped else j in
        let (rest', n) := scan rest (S idx) in
        (j' :: rest', n)
  end.

(** What a call of process_next did. *)
Inductive Outcome :=
  | Ignored            (* a worker is running *)
  | QueueFinished      (* no queued job: buttons enabled again *)
  | Blocked (row : nat)    (* warning about an incompatible job *)
  | Dispatched (row : nat). (* a worker was started for the row *)

Definition worker_running (w : MainWindow) : bool :=
  match current_worker w with
  | Some wk => isRunning wk
  | None => false
  end.

(** MainWindow.process_next. _update_row leaves the progress bars alone
    here: it only writes 100 for a job that is done. *)
Definition process_next (w : MainWindow) : MainWindow * Outcome :=
  if worker_running w then (w, Ignored)
  else
    let (js, next_idx) := scan (jobs w) 0 in
    let idle := mkWindow js (pbar w) (current_worker w) (current_row w) in
    match next_idx with
    | None => (idle, QueueFinished)
    | Some i =>
        match nth_error js i with
        | None => (idle, QueueFinished)
        | Some job =>
            if andb (Status_eqb (status job) incompatible)
                    (negb (skip_if_incompatible job))
            then (idle, Blocked i)
            else (mkWindow (list_set i (set_status job running) js) (pbar w)
                           (Some (mkWorker true)) (Some i),
                  Dispatched i)
        end
    end.

(** MainWindow._on_finished, called as
    [self._on_finished(self.current_row, ok, msg)]: the row is read when
    the signal is handled. An index out of range, or no current row, raises
    inside the [try] and is swallowed. _update_row sets the bar of a job
    that is done to 100. *)
Definition _on_finished (w : MainWindow) (ok : bool) (msg : string) : MainWindow :=
  match current_row w with
  | Some row =>
      match nth_error (jobs w) row with
      | Some j =>
          mkWindow
            (list_set row
               (set_message (set_status j (if ok then done else error)) msg)
               (jobs w))
            (if ok then list_set row 100%Z (pbar w) else pbar w)
            None None
      | None => mkWindow (jobs w) (pbar w) None None
      end
  | None => mkWindow (jobs w) (pbar w) None None
  end.

(** MainWindow._on_progress, called with [self.current_row]. *)
Definition _on_progress (w : MainWindow) (pct : Z) : MainWindow :=
  match current_row w with
  | Some row => mkWindow (jobs w) (list_set row pct (pbar w))
                         (current_worker w) (current_row w)
  | None => w
  end.

(** MainWindow._on_status, called with [self.current_row]. *)
Definition _on_status (w : MainWindow) (st : string) : MainWindow :=
  match current_row w with
  | Some row =>
      match nth_error (jobs w) row with
      | Some j => mkWindow (list_set row (set_message j st) (jobs w)) (pbar w)
                           (current_worker w) (current_row w)
      | None => w
      end
  | None => w
  end.

(** MainWindow._remove_row *)
Definition _remove_row (w : MainWindow) (row : nat) : MainWindow :=
  if andb (match current_row w with
           | Some r => Nat.eqb r row
           | None => false
           end)
          (worker_running w)
  then w
  else mkWindow (list_pop row (jobs w)) (list_pop row (pbar w))
                (current_worker w) (current_row w).

(** MainWindow._set_skip_flag *)
Definition _set_skip_flag (w : MainWindow) (row : nat) (state : bool) : MainWindow :=
  match nth_error (jobs w) row with
  | Some j => mkWindow (list_set row (set_skip j state) (jobs w)) (pbar w)
                       (current_worker w) (current_row w)
  | None => w
  end.

(** What happens to the window: the user's actions and the notifications
    of the worker. A notification of a worker is handled while it is the
    current worker. *)
Inductive Event :=
  | EAdd (j : Job)               (* add_from_input appended [j] and its row *)
  | EStart                       (* start_queue, or the timer: process_next *)
  | ERemove (row : nat)          (* the row's "Remover" button *)
  | ESkipFlag (row : nat) (b : bool)
  | EProgress (pct : Z)          (* progress of the worker *)
  | EStatus (st : string)        (* status_changed of the worker *)
  | EFinished (ok : bool) (msg : string). (* finished of the worker *)

Definition step (w : MainWindow) (e : Event) : MainWindow :=
  match e with
  | EAdd j => mkWindow (jobs w ++ [j])%list (pbar w ++ [0%Z])%list
                       (current_worker w) (current_row w)
  | EStart => fst (process_next w)
  | ERemove row => _remove_row w row
  | ESkipFlag row b => _set_skip_flag w row b
  | EProgress pct =>
      match current_worker w with
      | Some _ => _on_progress w pct
      | None => w
      end
  | EStatus st =>
      match current_worker w with
      | Some _ => _on_status w st
      | None => w
      end
  | EFinished ok msg =>
      match current_worker w with
      | Some _ => _on_finished w ok msg
      | None => w
      end
  end.

Definition run_events (w : MainWindow) (es : list Event) : MainWindow :=
  fold_left step es w.


Definition count_status (st : Status) (js : list Job) : nat :=
  List.length (filter (fun j => Status_eqb (status j) st) js).

(** The items of the list of subtitle languages that _build_ui creates. *)
Definition LANG_KEYS : list string :=
  ["pt-BR"; "pt"; "en"; "es"; "fr"; "de"; "it"; "ja"; "zh"].

(** MainWindow._gather_lang_filters: the texts of the selected items of
    that list; [sel] are their rows, in the order [selectedItems()] gives
    them. *)
Definition _gather_lang_filters (sel : list nat) : list string :=
  flat_map (fun i => match nth_error LANG_KEYS i with
                     | Some k => [k]
                     | None => []
                     end) sel.

(** The test of clear_done on the text of a status cell. *)
Definition cleared (st : Status) : bool :=
  orb (Status_eqb st done) (orb (Status_eqb st error) (Status_eqb st skipped)).

(** The first loop of clear_done over the status cells from row [r] on:
    the rows to remove, in increasing order. *)
Fixpoint done_rows (cells : list Status) (r : nat) : list nat :=
  match cells with
  | [] => []
  | st :: rest =>
      if cleared st then r :: done_rows rest (S r) else done_rows rest (S r)
  end.

(** MainWindow.clear_done. The status cell of a row shows the status of its
    job (_append_job_row, _update_row and _on_status write it after every
    change); the rows found are removed from the last to the first, from
    the table and from the job list. *)
Definition clear_done (w : MainWindow) : MainWindow :=
  fold_left (fun w' r => mkWindow (list_pop r (jobs w')) (list_pop r (pbar w'))
                                  (current_worker w') (current_row w'))
            (rev (done_rows (map status (jobs w)) 0))
            w.

(** [sorted(rows, reverse=True)] on row numbers. *)
Fixpoint insert_desc (x : nat) (l : list nat) : list nat :=
  match l with
  | [] => [x]
  | y :: r => if Nat.leb y x then x :: l else y :: insert_desc x r
  end.

Definition sorted_reverse (l : list nat) : list nat :=
  fold_right insert_desc [] l.

(** MainWindow.remove_selected; [sels] are the rows of the selection, as
    [selectedRows()] lists them. *)
Definition remove_selected (w : MainWindow) (sels : list nat) : MainWindow :=
  fold_left _remove_row (sorted_reverse sels) w.

End App2.

(** ** LG DNLA Toolkit v0 alfa.py *)

Module Alfa.

Definition LANG_MAP : list (string * list string) :=
  [ ("pt", ["por"; "pt"]);
    ("pt-BR", ["por"; "pb"; "pt-BR"]);
    ("en", ["eng"; "en"]);
    ("es", ["spa"; "es"]);
    ("fr", ["fra"; "fre"; "fr"]);
    ("de", ["deu"; "ger"; "de"]);
    ("it", ["ita"; "it"]);
    ("ja", ["jpn"; "ja"]);
    ("zh", ["zho"; "chi"; "zh"]) ].

(** One entry of ffprobe's "streams" array: the keys the script reads.
    [tags] is [None] when the key is missing or null. *)
Record Stream := mkStream {
  s_index : Z;
  s_codec_type : option string;
  s_tags : option (list (string * string))
}.

(** [(tags.get("language") or tags.get("LANGUAGE") or "").lower()] with
    [tags = stream.get("tags", {}) or {}]. *)
Definition stream_lang (s : Stream) : string :=
  let tags := match s_tags s with Some t => t | None => [] end in
  PyStr.lower
    (PyStr.or_default
       (PyStr.or_str (PyStr.dict_get tags "language")
                     (PyStr.dict_get tags "LANGUAGE")) "").

(** [LANG_MAP.get(k, [k])] *)
Definition candidates (k : string) : list string :=
  match PyStr.dict_get LANG_MAP k with
  | Some l => l
  | None => [k]
  end.

(** FFmpegWorker._match_lang *)
Definition _match_lang (filters : list string) (s : Stream) : bool :=
  let lang := stream_lang s in
  if existsb (fun k =>
                existsb (fun cand => String.eqb (PyStr.lower cand) lang)
                        (candidates k))
             filters
  then true
  else PyStr.mem "*" filters.

(** [sub_idxs] of FFmpegWorker._do_extract *)
Definition sub_idxs (filters : list string) (streams : list Stream) : list Z :=
  map s_index
      (filter (fun s =>
                 andb (match s_codec_type s with
                       | Some t => String.eqb t "subtitle"
                       | None => false
                       end)
                      (_match_lang filters s))
              streams).


(** The signals of FFmpegWorker. *)
Inductive Signal :=
  | progress_signal (pct : Z) (msg : string)
  | status_signal (st : string)
  | finished_signal (ok : bool) (msg : string).

(** FFmpegWorker.run after the job's work: [body] is the pair returned by
    _do_extract or _do_reencode, or the exception raised inside the [try];
    [cancel] is [self._cancel] when it is tested. The flag is only ever set,
    by FFmpegWorker.cancel, so it holds there whenever cancellation was
    requested during the work. *)
Definition run (body : Py.result (bool * string)) (cancel : bool) : list Signal :=
  status_signal "running" ::
  match body with
  | Py.Raise e =>
      [status_signal "error"; finished_signal false ("Erro: " ++ e)]
  | Py.Ret (ok, msg) =>
      if cancel
      then [status_signal "canceled"; finished_signal false "Cancelado"]
      else if ok
      then [status_signal "done";
            finished_signal true (PyStr.or_default (Some msg) "Concluído")]
      else [status_signal "error";
            finished_signal false (PyStr.or_default (Some msg) "Falhou")]
  end.

(** The status cell of the row, written by [on_status] of _run_row. *)
Definition shown_status (sigs : list Signal) : option string :=
  fold_left (fun acc s => match s with
                          | status_signal st => Some st
                          | _ => acc
                          end) sigs None.

End Alfa.

(** ** subsgpt.py *)

Module SubsGpt.

(** One entry of the "streams" array kept in the job's dictionary. *)
Record Stream := mkStream {
  s_index : Z;
  s_codec_type : option string;
  s_codec_name : option string;
  s_tags : option (list (string * string))
}.

(** The job dictionaries built by add_from_input; [skip] is [None] until
    _set_skip stores the key. *)
Record Job := mkJob {
  path : string;
  streams : list Stream;
  filesize : Z;
  duration : Py.float;
  message : string;
  compatible : bool;
  skip : option bool
}.

(** The dictionary [settings] made by start_queue. *)
Record Settings := mkSettings {
  mode : string;
  vcodec : string;
  acodec : string;
  crf : Z;
  abr : Z;
  outdir : string;
  langs : list string;
  out_container : string
}.

(** What the worker does that the window or the system can see. *)
Inductive Act :=
  | Spawn (cmd : list string)                    (* subprocess.Popen(cmd) *)
  | progress (row : nat) (pct : Z) (msg : string)
  | finished (row : nat) (ok : bool) (msg : string).

(** What the worker observes of one child process, as in [App2.Proc]. *)
Record Proc := mkProc {
  found : bool;
  output : list (bool * Py.str);
  returncode : Z
}.

(** [min(99, int((t / duration) * 100))]: the quotient and the product are
    floats, and [int] raises on an infinity and on a NaN. *)
Definition percent (t duration : Py.float) : Py.result Z :=
  Py.bind (Py.fdiv t duration) (fun q =>
  Py.bind (Py.int_of_float (Py.fmul q (Py.float_of_Z 100))) (fun n =>
  Py.Ret (Z.min 99 n))).

(** The loop of FFmpegWorker._run_cmd_with_logging over the output lines
    and the [wait()] after it, or the exception that leaves the loop.
    [last_pct] is the local variable. *)
Fixpoint log_lines (row : nat) (duration : Py.float) (step_msg : string)
                   (out : list (bool * Py.str)) (rc : Z) (last_pct : Z)
  : list Act * Py.result bool :=
  match out with
  | [] => ([], Py.Ret (rc =? 0)%Z)
  | (cancel, line) :: rest =>
      if cancel then ([], Py.Ret false)
      else match Py.parse_ffmpeg_time line with
           | Py.Raise e => ([], Py.Raise e)
           | Py.Ret (Some tv) =>
               if Py.nonzero duration then
                 match percent tv duration with
                 | Py.Raise e => ([], Py.Raise e)
                 | Py.Ret pct =>
                     if (pct =? last_pct)%Z
                     then log_lines row duration step_msg rest rc last_pct
                     else let (acts, r) :=
                            log_lines row duration step_msg rest rc pct in
                          (progress row pct step_msg :: acts, r)
                 end
               else log_lines row duration step_msg rest rc last_pct
           | Py.Ret None => log_lines row duration step_msg rest rc last_pct
           end
  end.

(** FFmpegWorker._run_cmd_with_logging *)
Definition _run_cmd_with_logging (row : nat) (cmd : list string) (p : Proc)
                                 (duration : Py.float) (step_msg : string)
  : list Act * Py.result bool :=
  if found p
  then let (acts, r) :=
         log_lines row duration step_msg (output p) (returncode p) 0 in
       (Spawn cmd :: acts, r)
  else ([Spawn cmd], Py.Ret false).

Definition has_type (t : string) (s : Stream) : bool :=
  match s_codec_type s with
  | Some t' => String.eqb t' t
  | None => false
  end.

Definition name_in (names : list string) (s : Stream) : bool :=
  match s_codec_name s with
  | Some n => PyStr.mem n names
  | None => false
  end.

(** [(tags.get('language') or tags.get('LANGUAGE') or '').lower()] *)
Definition stream_lang (s : Stream) : string :=
  let tags := match s_tags s with Some t => t | None => [] end in
  PyStr.lower
    (PyStr.or_default
       (PyStr.or_str (PyStr.dict_get tags "language")
                     (PyStr.dict_get tags "LANGUAGE")) "").

(** The [matched] flag of FFmpegWorker.run for a subtitle stream. *)
Definition matched (lang_filters : list string) (s : Stream) : bool :=
  existsb (fun lf => PyStr.contains (PyStr.split_first "-" (PyStr.lower lf))
                                    (stream_lang s))
          lang_filters.

Definition ffmpeg_head (infile : string) : list string :=
  ["ffmpeg"; "-hide_banner"; "-loglevel"; "info"; "-y"; "-i"; infile].

(** The subtitle loop of the extract mode: a failed extraction is written
    to the log and the loop goes on; an exception leaves the loop. *)
Fixpoint extract_subs (row : nat) (st : Settings) (infile basename : string)
                      (duration : Py.float) (procs : nat -> Proc) (k : nat)
                      (sidx : nat) (subs : list Stream)
  : list Act * Py.result unit :=
  match subs with
  | [] => ([], Py.Ret tt)
  | s :: rest =>
      if matched (langs st) s then
        let lang := stream_lang s in
        let out_srt :=
          App2.path_join (outdir st)
            (basename ++ "." ++
             (match lang with
              | EmptyString => "sub" ++ PyStr.str_of_nat (sidx + 1)
              | _ => lang
              end) ++ ".srt") in
        let cmd_s := (ffmpeg_head infile ++
                      ["-map"; ("0:" ++ PyStr.str_of_Z (s_index s))%string;
                       "-c:s"; "srt"; out_srt])%list in
        let (acts, r) :=
          _run_cmd_with_logging row cmd_s (procs k) duration "ExtrairLegenda" in
        match r with
        | Py.Raise e => (acts, Py.Raise e)
        | Py.Ret _ =>
            let (acts', r') :=
              extract_subs row st infile basename duration procs (S k)
                           (S sidx) rest in
            ((acts ++ acts')%list, r')
        end
      else extract_subs row st infile basename duration procs k sidx rest
  end.

(** What FFmpegWorker.run learns from the system before it starts:
    [shutil.disk_usage(outdir)] and [os.path.getsize(infile)]. *)
Record RunEnv := mkRunEnv {
  disk_free : Py.result Z;
  getsize : Py.result Z
}.

(** The free-space test at the start of FFmpegWorker.run: [true] when the
    worker gives up; an exception of either call is logged and ignored. *)
Definition no_space (env : RunEnv) : bool :=
  match disk_free env, getsize env with
  | Py.Ret free, Py.Ret size => (free <? size)%Z
  | _, _ => false
  end.

(** FFmpegWorker.run. [logfile] is the path of the job's log file. *)
Definition run (job : Job) (row : nat) (st : Settings) (env : RunEnv)
               (logfile : string) (procs : nat -> Proc) : list Act :=
  let infile := path job in
  let basename := App2.splitext_root (App2.basename infile) in
  let duration := if Py.nonzero (duration job) then duration job else Py.F0 in
  if no_space env then [finished row false logfile]
  else if String.eqb (mode st) "extract" then
    let mp4_friendly_v :=
      existsb (fun s => andb (has_type "video" s)
                             (name_in ["h264"; "mpeg4"; "mpeg2video"] s))
              (streams job) in
    let mp4_friendly_a :=
      existsb (fun s => andb (has_type "audio" s)
                             (name_in ["aac"; "mp3"; "ac3"] s))
              (streams job) in
    let target_container :=
      if andb mp4_friendly_v mp4_friendly_a then "mp4" else "mkv" in
    let outfile :=
      App2.path_join (outdir st) (basename ++ "." ++ target_container) in
    let cmd := (ffmpeg_head infile ++
                ["-map"; "0:v:0"; "-map"; "0:a?"; "-c"; "copy"; outfile])%list in
    let (acts, ok) := _run_cmd_with_logging row cmd (procs 0%nat) duration "Remux" in
    match ok with
    | Py.Raise e => (acts ++ [finished row false e])%list
    | Py.Ret false => (acts ++ [finished row false logfile])%list
    | Py.Ret true =>
        let (acts', r) :=
          extract_subs row st infile basename duration procs 1 0
                       (filter (has_type "subtitle") (streams job)) in
        match r with
        | Py.Raise e => (acts ++ acts' ++ [finished row false e])%list
        | Py.Ret _ =>
            (acts ++ acts' ++
             [progress row 100 "Concluído (extract)";
              finished row true logfile])%list
        end
    end
  else
    let out_ext := PyStr.or_default (Some (out_container st)) "mp4" in
    let outfile := App2.path_join (outdir st) (basename ++ "." ++ out_ext) in
    let a_map := if existsb (has_type "audio") (streams job)
                 then ["-map"; "0:a:0"] else [] in
    let cmd :=
      (ffmpeg_head infile ++ ["-map"; "0:v:0"] ++ a_map ++
       ["-c:v"; vcodec st; "-preset"; "medium"; "-crf"; PyStr.str_of_Z (crf st)] ++
       (match a_map with
        | [] => []
        | _ => ["-c:a"; acodec st; "-b:a"; (PyStr.str_of_Z (abr st) ++ "k")%string]
        end) ++
       (if String.eqb out_ext "mp4" then ["-movflags"; "faststart"] else []) ++
       [outfile])%list in
    let (acts, ok) :=
      _run_cmd_with_logging row cmd (procs 0%nat) duration "Transcodificando" in
    match ok with
    | Py.Raise e => (acts ++ [finished row false e])%list
    | Py.Ret false => (acts ++ [finished row false logfile])%list
    | Py.Ret true =>
        (acts ++ [progress row 100 "Concluído (reencode)";
                  finished row true logfile])%list
    end.

(** *** MainWindow *)

(** The window: the jobs, the text of the status cell of each row, the
    scan position and the current worker's row. *)
Record MainWindow := mkWindow {
  jobs : list Job;
  status_cell : list string;
  _next_index : nat;
  current_row : option nat
}.

Definition truthy (b : option bool) : bool :=
  match b with Some true => true | _ => false end.

(** What a call of _process_next did. *)
Inductive Outcome :=
  | QueueFinished
  | Blocked (row : nat)
  | Dispatched (row : nat).

(** The [while] loop of _process_next over the jobs from [_next_index] on
    ([js] is [self.jobs[_next_index:]]): the status cells, the new
    [_next_index] and what the loop found. *)
Fixpoint scan (js : list Job) (cells : list string) (next : nat)
  : list string * nat * Outcome :=
  match js with
  | [] => (cells, next, QueueFinished)
  | j :: rest =>
      if andb (negb (compatible j)) (truthy (skip j))
      then scan rest (App2.list_set next "Ignorado" cells) (S next)
      else if orb (compatible j) (andb (negb (compatible j)) (truthy (skip j)))
      then (cells, next, Dispatched next)
      else (cells, next, Blocked next)
  end.

(** MainWindow._process_next *)
Definition _process_next (w : MainWindow) : MainWindow * Outcome :=
  let '(cells, next, o) :=
    scan (skipn (_next_index w) (jobs w)) (status_cell w) (_next_index w) in
  match o with
  | Dispatched row =>
      (mkWindow (jobs w) (App2.list_set row "Executando" cells) next (Some row), o)
  | _ => (mkWindow (jobs w) cells next (current_row w), o)
  end.

(** MainWindow._on_finished *)
Definition _on_finished (w : MainWindow) (row : nat) (success : bool) : MainWindow :=
  mkWindow (jobs w)
           (App2.list_set row (if success then "Concluído" else "Falhou")
                          (status_cell w))
           (_next_index w + 1) None.

End SubsGpt.

(** ** Subs, ChatGPT.py *)

Module SubsChat.

(** A [pathlib.Path]: the directory part and the final component. *)
Record Path := mkPath {
  parent : string;
  name : string
}.

(** [str(p)] *)
Definition render (p : Path) : string := parent p ++ "/" ++ name p.

(** The paths that exist, as the strings that name them. *)
Definition FileSystem := list string.

(** [p.exists()] *)
Definition exists_ (fs : FileSystem) (p : Path) : bool :=
  PyStr.mem (render p) fs.

(** Split at the last point: what precedes it and what follows it. *)
Fixpoint split_last_dot (s : string) : option (string * string) :=
  match s with
  | EmptyString => None
  | String c r =>
      match split_last_dot r with
      | Some (a, b) => Some (String c a, b)
      | None => if Ascii.eqb c "." then Some (EmptyString, r) else None
      end
  end.

(** [(p.stem, p.suffix)]: the last point starts the suffix unless it is the
    first or the last character of the name. *)
Definition stem_suffix (nm : string) : string * string :=
  match split_last_dot nm with
  | Some (String c a, String d b) => (String c a, "." ++ String d b)
  | _ => (nm, EmptyString)
  end.

(** [base.with_stem(f"{base.stem} ({i})")]; a path without a final
    component raises ValueError. *)
Definition candidate (base : Path) (i : nat) : Path :=
  let (stem, suffix) := stem_suffix (name base) in
  mkPath (parent base) (stem ++ " (" ++ PyStr.str_of_nat i ++ ")" ++ suffix).

(** The [while True] loop of unique_path from counter [i], for at most
    [fuel] rounds. *)
Fixpoint unique_loop (fs : FileSystem) (base : Path) (i fuel : nat) : option Path :=
  match fuel with
  | O => None
  | S fuel' =>
      let c := candidate base i in
      if exists_ fs c then unique_loop fs base (S i) fuel' else Some c
  end.

(** unique_path; [None] when the loop needs more than [fuel] rounds. *)
Definition unique_path (fs : FileSystem) (base : Path) (overwrite : bool)
                       (fuel : nat) : option (Py.result Path) :=
  if orb overwrite (negb (exists_ fs base)) then Some (Py.Ret base)
  else match name base with
       | EmptyString => Some (Py.Raise "ValueError")
       | _ => option_map Py.Ret (unique_loop fs base 1 fuel)
       end.

End SubsChat.

(** * Concrete inputs *)

(** A job with the default filters and three subtitle streams. *)
Definition movie_job : App2.Job :=
  App2.mkJob "/in/movie.mkv" "/out" "extract" "vid_aud__leg" "mp4" "h264" "aac"
    20 192 ["pt-BR"; "en"]
    [App2.mkStreamInfo 0 "video" "h264" None;
     App2.mkStreamInfo 1 "audio" "aac" (Some "eng");
     App2.mkStreamInfo 2 "subtitle" "subrip" (Some "por");
     App2.mkStreamInfo 3 "subtitle" "subrip" (Some "eng");
     App2.mkStreamInfo 4 "subtitle" "subrip" (Some "spa")]
    1000 (Py.float_of_Z 60) App2.queued "" false.

(** The same streams as ffprobe reports them to the v0 script. *)
Definition movie_streams : list Alfa.Stream :=
  [Alfa.mkStream 0 (Some "video") None;
   Alfa.mkStream 1 (Some "audio") (Some [("language", "eng")]);
   Alfa.mkStream 2 (Some "subtitle") (Some [("language", "por")]);
   Alfa.mkStream 3 (Some "subtitle") (Some [("language", "eng")]);
   Alfa.mkStream 4 (Some "subtitle") (Some [("language", "spa")])].

(** The test of [sub_idxs] on the kind of a stream. *)
Definition is_subtitle (s : Alfa.Stream) : bool :=
  match Alfa.s_codec_type s with
  | Some t => String.eqb t "subtitle"
  | None => false
  end.

(** A job as add_from_input queues it: one video stream, status queued. *)
Definition video_job (input_path : string) : App2.Job :=
  App2.mkJob input_path "/out" "extract" "vid_aud__leg" "mp4" "h264" "aac"
    20 192 ["pt-BR"; "en"]
    [App2.mkStreamInfo 0 "video" "h264" None]
    1000 (Py.float_of_Z 60) App2.queued "" false.

(** Four files are added and the queue is started; the first job ends, the
    second is running when the row of the first is removed; the second job
    ends and the queue goes on. *)
Definition removal_trace : list App2.Event :=
  [App2.EAdd (video_job "/in/a.mkv");
   App2.EAdd (video_job "/in/b.mkv");
   App2.EAdd (video_job "/in/c.mkv");
   App2.EAdd (video_job "/in/d.mkv");
   App2.EStart;
   App2.EFinished true "Remux + legendas concluído";
   App2.EStart;
   App2.ERemove 0;
   App2.EFinished true "Remux + legendas concluído";
   App2.EStart].

(** An incompatible job that is not to be skipped, followed by a queued one. *)
Definition blocked_queue : list App2.Job :=
  [App2.set_message (App2.set_status (video_job "/in/a.mkv") App2.incompatible)
                    "Espaço insuficiente em destino";
   video_job "/in/b.mkv"].



(** A percentage signal carries a value from 0 to 99. *)
Definition below_100 (s : App2.Signal) : Prop :=
  match s with
  | App2.progress pct _ => (0 <= pct <= 99)%Z
  | _ => True
  end.

(** A line of the tool's output one minute into a two-minute file. *)
Definition progress_line : Py.str :=
  Py.of_string
    "frame= 1500 fps=25 q=-1.0 size=    1024kB time=00:01:00.50 bitrate= 134.2kbits/s".

(** A string of one or more digits. *)
Definition digits1 (s : Py.str) : Prop :=
  s <> [] /\ Py.all_digits s = true.

(** The text does not go on with a digit. *)
Definition no_digit_next (r : Py.str) : Prop :=
  match r with
  | [] => True
  | c :: _ => Py.is_digit c = false
  end.

(** The seconds group of a marker: the digits [a], and the digits [f]
    after the point when there is a point. *)
Definition seconds_text (a : Py.str) (b : option Py.str) : Py.str :=
  match b with
  | None => a
  | Some f => (a ++ Py.POINT :: f)%list
  end.

(** The digits after the point, none without a point. *)
Definition fraction (b : option Py.str) : Py.str :=
  match b with
  | None => []
  | Some f => f
  end.

(** The text of an elapsed-time marker with its three groups. *)
Definition marker (h m : Py.str) (a : Py.str) (b : option Py.str) : Py.str :=
  (Py.TIME ++ h ++ Py.COLON :: m ++ Py.COLON :: seconds_text a b)%list.

(** [line] is [pre], a marker and [post]. The hours and the minutes are
    runs of digits; the seconds are a run of digits, with the point that
    follows it if one does and the digits after that point, and reach as
    far as they can: [post] starts with no digit, and with no point when
    the group has none. *)
Definition marker_at (line pre h m a : Py.str) (b : option Py.str)
                     (post : Py.str) : Prop :=
  line = (pre ++ marker h m a b ++ post)%list /\
  digits1 h /\ digits1 m /\ digits1 a /\
  Py.all_digits (fraction b) = true /\
  no_digit_next post /\
  (b = None -> forall r, post <> Py.POINT :: r).

(** A marker starts at position [p] of the line. *)
Definition marker_from (line : Py.str) (p : nat) : Prop :=
  exists h m a b post, marker_at (skipn p line) [] h m a b post.

(** The line holds an elapsed-time marker. *)
Definition has_marker (line : Py.str) : Prop :=
  exists p, marker_from line p.

(** The marker after [pre] is the leftmost one of the line. *)
Definition leftmost_marker (line pre h m a : Py.str) (b : option Py.str)
                           (post : Py.str) : Prop :=
  marker_at line pre h m a b post /\
  forall p, (p < List.length pre)%nat -> ~ marker_from line p.

(** The whole seconds before the seconds group: [h*3600 + m*60]. *)
Definition whole_seconds (h m : Py.str) : Z :=
  Py.digits_val 0 h * 3600 + Py.digits_val 0 m * 60.

(** The double nearest to the decimal number written by the seconds
    group. *)
Definition seconds_value (a : Py.str) (b : option Py.str) : Py.float :=
  Py.float_of_ratio (Py.digits_val 0 (a ++ fraction b)%list)
                    (10 ^ Z.of_nat (List.length (fraction b))).

(** What the parser makes of the groups of a marker. *)
Definition marker_value (h m a : Py.str) (b : option Py.str)
  : Py.result (option Py.float) :=
  if orb (Py.INT_MAX_STR_DIGITS <? List.length h)%nat
         (Py.INT_MAX_STR_DIGITS <? List.length m)%nat
  then Py.Raise "ValueError"
  else if (Py.DBL_OVERFLOW <=? whole_seconds h m)%Z
  then Py.Raise "OverflowError"
  else Py.Ret (Some (Py.fadd (Py.float_of_Z (whole_seconds h m))
                             (seconds_value a b))).

(** [n] times the digit "0". *)
Definition zeros (n : nat) : Py.str := repeat 48%N n.

(** A line whose hours field has 401 digits. *)
Definition huge_line : Py.str :=
  (Py.TIME ++ 49%N :: zeros 400 ++ Py.of_string ":00:00.00")%list.

(** A line whose hours field is 4301 zeros. *)
Definition long_line : Py.str :=
  (Py.TIME ++ zeros 4301 ++ Py.of_string ":00:00.00")%list.

(** "time=" followed by 12:34:56 in Arabic-Indic digits. *)
Definition arabic_line : Py.str :=
  (Py.TIME ++ [1633; 1634; 58; 1635; 1636; 58; 1637; 1638]%N)%list.

(** The input stem of a job of app2.py. *)
Definition stem_of (j : App2.Job) : string :=
  App2.splitext_root (App2.basename (App2.input_path j)).

(** The extension its outputs are named with: the unified container when
    extracting, the configured container when re-encoding. *)
Definition ext_of (j : App2.Job) : string :=
  if String.eqb (App2.mode j) "extract" then App2.unified_ext j
  else App2.target_container j.

(** A subtitle file that two earlier runs have already written. *)
Definition track_path : SubsChat.Path :=
  SubsChat.mkPath "/out" "movie.track2.eng.srt".

Definition crowded_dir : SubsChat.FileSystem :=
  ["/out/movie.track2.eng.srt"; "/out/movie.track2.eng (1).srt";
   "/out/movie.mkv"].

(** The environment of a file with another outcome of the duration probe. *)
Definition with_duration_out (env : App2.FileEnv) (out : Py.result string)
  : App2.FileEnv :=
  App2.mkFileEnv (App2.probe_streams env) (App2.getsize env) out
                 (App2.disk_free env).

(** [float] as far as the examples need it: ffprobe prints "N/A" for a
    duration it does not know, which [float] rejects. *)
Definition float_or_error (s : string) : Py.result Py.float :=
  if String.eqb s "N/A" then Py.Raise "ValueError"
  else Py.float_of_str (Py.of_string s).

(** A file with a video stream whose duration ffprobe does not know, and
    room enough in the destination. *)
Definition unknown_duration_env : App2.FileEnv :=
  App2.mkFileEnv
    (Py.Ret [App2.mkProbed 0 "video" "h264" None;
             App2.mkProbed 1 "audio" "aac" (Some [("language", "eng")])])
    1000 (Py.Ret "N/A") (Py.Ret 5000%Z).

(** How process_next may change the status of a job. *)
Definition dispatch_change (a b : App2.Status) : Prop :=
  b = a \/ (a = App2.incompatible /\ b = App2.skipped) \/
  (a = App2.queued /\ b = App2.running).

(** A compatible job of subsgpt.py and the settings of its queue. *)
Definition gpt_job : SubsGpt.Job :=
  SubsGpt.mkJob "/in/movie.mkv"
    [SubsGpt.mkStream 0 (Some "video") (Some "h264") None]
    1000 (Py.float_of_Z 60) "" true None.

Definition gpt_settings : SubsGpt.Settings :=
  SubsGpt.mkSettings "extract" "libx264" "aac" 20 192 "/out" ["pt-BR"; "en"] "mp4".

(** The destination has 10 bytes left when the worker starts. *)
Definition full_disk : SubsGpt.RunEnv :=
  SubsGpt.mkRunEnv (Py.Ret 10%Z) (Py.Ret 1000%Z).

Definition quiet_proc : SubsGpt.Proc := SubsGpt.mkProc true [] 0.

(** The windows of the two scripts with one pending job each. *)
Definition one_job_window : App2.MainWindow :=
  App2.mkWindow [video_job "/in/a.mkv"] [0%Z] None None.

Definition gpt_window : SubsGpt.MainWindow :=
  SubsGpt.mkWindow [gpt_job] ["Pendente"] 0 None.

(** The events under which the row of the running job stays where
    [current_row] says: files are added as add_from_input creates them, and
    no row above the running job is removed. *)
Definition keeps_row (w : App2.MainWindow) (e : App2.Event) : Prop :=
  match e with
  | App2.EAdd j => App2.status j <> App2.running
  | App2.ERemove row =>
      match App2.current_row w with
      | Some r => (r <= row)%nat
      | None => True
      end
  | _ => True
  end.

(** The states of the window reached through such events. *)
Inductive row_kept : App2.MainWindow -> Prop :=
  | row_kept_initial : row_kept App2.initial
  | row_kept_step : forall w e,
      row_kept w -> keeps_row w e -> row_kept (App2.step w e).

(** Either nothing runs, or the one running job is the job of the worker,
    in the row the window remembers. *)
Definition one_running (w : App2.MainWindow) : Prop :=
  match App2.current_worker w, App2.current_row w with
  | None, None => App2.count_status App2.running (App2.jobs w) = 0%nat
  | Some wk, Some r =>
      App2.isRunning wk = true /\
      (exists j, nth_error (App2.jobs w) r = Some j /\
                 App2.status j = App2.running) /\
      App2.count_status App2.running (App2.jobs w) = 1%nat
  | _, _ => False
  end.

(** What a job adds to the count of the jobs with status [st]. *)
Definition hit (st : App2.Status) (j : App2.Job) : nat :=
  if App2.Status_eqb (App2.status j) st then 1%nat else 0%nat.

(** A job of subsgpt.py with an English subtitle stream, room enough in
    the destination, and a tool that remuxes well but fails on the
    subtitle: the second process exits with code 1. *)
Definition gpt_sub_job : SubsGpt.Job :=
  SubsGpt.mkJob "/in/movie.mkv"
    [SubsGpt.mkStream 0 (Some "video") (Some "h264") None;
     SubsGpt.mkStream 1 (Some "audio") (Some "aac") (Some [("language", "eng")]);
     SubsGpt.mkStream 2 (Some "subtitle") (Some "hdmv_pgs_subtitle")
                      (Some [("language", "eng")])]
    1000 (Py.float_of_Z 60) "" true None.

Definition roomy_disk : SubsGpt.RunEnv :=
  SubsGpt.mkRunEnv (Py.Ret 5000%Z) (Py.Ret 1000%Z).

Definition failing_proc : SubsGpt.Proc := SubsGpt.mkProc true [] 1.

Definition subtitle_fails (k : nat) : SubsGpt.Proc :=
  match k with
  | O => quiet_proc
  | S _ => failing_proc
  end.

(** One turn of the queue of app2.py: process_next, and when it started a
    worker, the worker's [finished] signal with the outcome [ok]. *)
Definition turn (w : App2.MainWindow) (ok : bool) : App2.MainWindow :=
  match App2.process_next w with
  | (w', App2.Dispatched _) => App2._on_finished w' ok "fim"
  | (w', _) => w'
  end.

(** The turns of the queue for a list of outcomes. *)
Definition turns (w : App2.MainWindow) (oks : list bool) : App2.MainWindow :=
  fold_left turn oks w.

(** Three files: the second cannot be processed and is to be skipped. *)
Definition mixed_window : App2.MainWindow :=
  App2.mkWindow
    [App2.set_status (video_job "/in/a.mkv") App2.done;
     App2.set_skip (App2.set_status (video_job "/in/b.mkv") App2.incompatible) true;
     video_job "/in/c.mkv";
     video_job "/in/d.mkv"]
    [100%Z; 0%Z; 0%Z; 0%Z] None None.

(** The percentages of the progress notifications of subsgpt.py, in order. *)
Fixpoint percents (acts : list SubsGpt.Act) : list Z :=
  match acts with
  | [] => []
  | SubsGpt.progress _ pct _ :: r => pct :: percents r
  | _ :: r => percents r
  end.

(** No value of the list equals the one before it, starting from [last]. *)
Fixpoint no_repeat (last : Z) (l : list Z) : Prop :=
  match l with
  | [] => True
  | x :: r => x <> last /\ no_repeat x r
  end.




(** What a worker of subsgpt.py does before its final notification: it
    starts processes and reports progress for its own row. *)
Definition own_progress (row : nat) (a : SubsGpt.Act) : Prop :=
  match a with
  | SubsGpt.Spawn _ => True
  | SubsGpt.progress r _ _ => r = row
  | SubsGpt.finished _ _ _ => False
  end.

(** What is left of a column of the table when the rows with a cleared
    status cell are taken out. *)
Fixpoint keep_rows {A : Type} (cells : list App2.Status) (col : list A) : list A :=
  match cells, col with
  | st :: cells', x :: col' =>
      if App2.cleared st then keep_rows cells' col' else x :: keep_rows cells' col'
  | _, _ => col
  end.

(** A window with a finished, a running, a failed and a queued job. *)
Definition busy_window : App2.MainWindow :=
  App2.mkWindow
    [App2.set_status (video_job "/in/a.mkv") App2.done;
     App2.set_status (video_job "/in/b.mkv") App2.running;
     App2.set_status (video_job "/in/c.mkv") App2.error;
     video_job "/in/d.mkv"]
    [100%Z; 40%Z; 12%Z; 0%Z]
    (Some (App2.mkWorker true)) (Some 1%nat).

(** A column of the table without the entries of the rows [rows]; [k] is
    the row of the first entry. *)
Fixpoint without_rows {A : Type} (rows : list nat) (col : list A) (k : nat)
  : list A :=
  match col with
  | [] => []
  | x :: r =>
      if existsb (Nat.eqb k) rows
      then without_rows rows r (S k)
      else x :: without_rows rows r (S k)
  end.

(** The row that _remove_row refuses to remove: the one of a running
    worker. *)
Definition guarded (w : App2.MainWindow) (row : nat) : bool :=
  andb (match App2.current_row w with
        | Some r => Nat.eqb r row
        | None => false
        end)
       (App2.worker_running w).

(** Row numbers in strictly decreasing order. *)
Fixpoint descending (rows : list nat) : Prop :=
  match rows with
  | [] => True
  | r :: rest => (forall x, In x rest -> (x < r)%nat) /\ descending rest
  end.

(** Two compatible jobs waiting in the window of subsgpt.py. *)
Definition gpt_pair_window : SubsGpt.MainWindow :=
  SubsGpt.mkWindow [gpt_job; gpt_sub_job] ["Pendente"; "Pendente"] 0 None.

(** What can happen to the window of app2.py: an event of [App2.step], the
    button that clears the finished rows, or the removal of a selection. *)
Inductive Action :=
  | Ev (e : App2.Event)
  | ClearDone
  | RemoveSelected (sels : list nat).

Definition act (w : App2.MainWindow) (a : Action) : App2.MainWindow :=
  match a with
  | Ev e => App2.step w e
  | ClearDone => App2.clear_done w
  | RemoveSelected sels => App2.remove_selected w sels
  end.

(** The sign bit of the float is clear, or the float is a NaN. *)
Definition not_negative (x : Py.float) : bool :=
  match x with
  | S754_zero s | S754_infinity s | S754_finite s _ _ => negb s
  | S754_nan => true
  end.

(** No match of the pattern starts at a position before [n]. *)
Definition no_match_before (line : Py.str) (n : nat) : bool :=
  forallb (fun p => match Py.match_here (skipn p line) with
                    | None => true
                    | Some _ => false
                    end)
          (seq 0 n).



(** * Subtitle selection *)

Lemma filter_filter {A : Type} (f g : A -> bool) (l : list A) :
  filter f (filter g l) = filter (fun x => andb (g x) (f x)) l.
Proof.
  induction l as [|x l IH]; simpl; [reflexivity|].
  destruct (g x); simpl; [destruct (f x)|]; rewrite IH; reflexivity.
Qed.

(** C1, app2.py: for every job whose filters are ["pt-BR", "en"] and whose
    subtitle streams are tagged por, eng and spa in this order,
    JobWorker.run acts on the eng stream only: neither "pt-br" nor "pt" is a
    substring of "por", so the por stream is not selected. *)
Theorem C1_app2_selects_only_eng :
  forall (j : App2.Job) (a b c : App2.StreamInfo),
    App2.lang_filters j = ["pt-BR"; "en"] ->
    App2.subtitle_streams j = [a; b; c] ->
    App2.language a = Some "por" ->
    App2.language b = Some "eng" ->
    App2.language c = Some "spa" ->
    App2.matched_subtitles j = [b].
Proof.
  intros j a b c Hf Hs Ha Hb Hc.
  unfold App2.matched_subtitles.
  rewrite Hs, Hf. simpl.
  rewrite Ha, Hb, Hc. reflexivity.
Qed.

Lemma C1_app2_selects_only_eng_witness :
  App2.matched_subtitles movie_job = [App2.mkStreamInfo 3 "subtitle" "subrip" (Some "eng")].
Proof.
  apply (C1_app2_selects_only_eng movie_job
           (App2.mkStreamInfo 2 "subtitle" "subrip" (Some "por"))
           (App2.mkStreamInfo 3 "subtitle" "subrip" (Some "eng"))
           (App2.mkStreamInfo 4 "subtitle" "subrip" (Some "spa")));
    reflexivity.
Defined.

(** The v0 script, which resolves the filters through LANG_MAP, selects the
    por and the eng stream, in the order of the probe, and not the spa
    stream. *)
Lemma Alfa_selects_por_and_eng :
  forall (streams : list Alfa.Stream) (a b c : Alfa.Stream),
    filter is_subtitle streams = [a; b; c] ->
    Alfa.stream_lang a = "por" ->
    Alfa.stream_lang b = "eng" ->
    Alfa.stream_lang c = "spa" ->
    Alfa.sub_idxs ["pt-BR"; "en"] streams = [Alfa.s_index a; Alfa.s_index b].
Proof.
  intros streams a b c Hs Ha Hb Hc.
  unfold Alfa.sub_idxs.
  change (fun s : Alfa.Stream =>
            andb (match Alfa.s_codec_type s with
                  | Some t => String.eqb t "subtitle"
                  | None => false
                  end) (Alfa._match_lang ["pt-BR"; "en"] s))
    with (fun s => andb (is_subtitle s) (Alfa._match_lang ["pt-BR"; "en"] s)).
  rewrite <- filter_filter, Hs. simpl.
  unfold Alfa._match_lang. rewrite Ha, Hb, Hc. reflexivity.
Qed.

Example Alfa_movie_selection :
  Alfa.sub_idxs ["pt-BR"; "en"] movie_streams = [2%Z; 3%Z].
Proof. reflexivity. Qed.

(** FFmpegWorker._match_lang of the v0 script: a filter list that holds "*"
    matches every stream, whatever its tags, and the empty list matches
    none. *)
Lemma Alfa_wildcard_and_empty :
  (forall filters s, PyStr.mem "*" filters = true ->
                     Alfa._match_lang filters s = true) /\
  (forall s, Alfa._match_lang [] s = false).
Proof.
  split.
  - intros filters s H. unfold Alfa._match_lang. rewrite H.
    destruct (existsb _ filters); reflexivity.
  - intros s. reflexivity.
Qed.

(** The window of app2.py never hands the wildcard to its matcher: the
    filters are texts of the nine items of the language list. *)
Lemma app2_filters_without_wildcard (sel : list nat) :
  PyStr.mem "*" (App2._gather_lang_filters sel) = false.
Proof.
  unfold PyStr.mem, App2._gather_lang_filters.
  induction sel as [|i sel IH]; [reflexivity|].
  cbn [flat_map]. rewrite existsb_app, IH, orb_false_r.
  do 9 (destruct i as [|i]; [reflexivity|]).
  destruct i; reflexivity.
Qed.

(** C6: a filter list that holds the wildcard "*" matches every stream,
    whatever its language tag, also a missing or an empty one, and the
    empty filter list matches no stream (FFmpegWorker._match_lang of the
    v0 script); in app2.py, whose window never puts the wildcard among the
    filters, the empty filter list matches no stream either. *)
Theorem C6_wildcard_matches_every_stream :
  (forall (filters : list string) (s : Alfa.Stream),
      PyStr.mem "*" filters = true -> Alfa._match_lang filters s = true) /\
  (forall s : Alfa.Stream, Alfa._match_lang [] s = false) /\
  (forall lang : option string, App2._match_sub_lang [] lang = false) /\
  (forall sel : list nat,
      PyStr.mem "*" (App2._gather_lang_filters sel) = false).
Proof.
  split; [exact (proj1 Alfa_wildcard_and_empty)|].
  split; [exact (proj2 Alfa_wildcard_and_empty)|].
  split; [|exact app2_filters_without_wildcard].
  intros [[|c l]|]; reflexivity.
Qed.

(** A subtitle stream without tags and one with an empty language tag,
    under the filters pt-BR and "*". *)
Lemma C6_wildcard_matches_every_stream_witness :
  Alfa._match_lang ["pt-BR"; "*"] (Alfa.mkStream 2 (Some "subtitle") None) = true /\
  Alfa._match_lang ["pt-BR"; "*"]
    (Alfa.mkStream 3 (Some "subtitle") (Some [("language", "")])) = true.
Proof.
  split; apply (proj1 C6_wildcard_matches_every_stream); reflexivity.
Defined.


(** * The queue of app2.py *)

Lemma nth_error_list_set {A : Type} (l : list A) (i : nat) (x y : A) :
  nth_error l i = Some y -> nth_error (App2.list_set i x l) i = Some x.
Proof.
  revert i; induction l as [|a l IH]; intros [|i] H; simpl in *;
    try discriminate; [reflexivity | apply IH, H].
Qed.

Lemma build_steps_nonempty (ffmpeg : string) (j : App2.Job) (v : App2.StreamInfo) :
  exists st rest ok_msg, App2.build_steps ffmpeg j v = (st :: rest, ok_msg).
Proof.
  unfold App2.build_steps.
  destruct (String.eqb (App2.mode j) "extract");
    [destruct (String.eqb (App2.extract_variant j) "sep_tracks");
     [|destruct (String.eqb (App2.extract_variant j) "vid_aud__leg")]|];
    eexists; eexists; eexists; reflexivity.
Qed.

(** C5, app2.py: an incompatible job that is not to be skipped does not
    stop the scan of process_next. The loop goes past it, the queued job
    behind it is dispatched, and the warning branch (which tests the job at
    [next_idx], always a queued one) is never taken. *)
Theorem C5_app2_dispatches_past_blocking_job :
  forall (a b : App2.Job) (rest : list App2.Job) (bars : list Z),
    App2.status a = App2.incompatible ->
    App2.skip_if_incompatible a = false ->
    App2.status b = App2.queued ->
    App2.process_next (App2.mkWindow (a :: b :: rest) bars None None)
    = (App2.mkWindow (a :: App2.set_status b App2.running :: rest) bars
                     (Some (App2.mkWorker true)) (Some 1%nat),
       App2.Dispatched 1).
Proof.
  intros a b rest bars Ha Hs Hb.
  unfold App2.process_next, App2.worker_running. simpl.
  rewrite Ha, Hs, Hb. simpl. rewrite Hb. reflexivity.
Qed.

Lemma C5_app2_dispatches_past_blocking_job_witness :
  snd (App2.process_next (App2.mkWindow blocked_queue [0%Z; 0%Z] None None))
  = App2.Dispatched 1.
Proof.
  unfold blocked_queue.
  rewrite (C5_app2_dispatches_past_blocking_job _ _ [] [0%Z; 0%Z]);
    reflexivity.
Defined.

(** The first half of C5 holds in app2.py: an incompatible job marked to be
    skipped becomes skipped and the scan goes on behind it. *)
Lemma app2_scan_skips :
  forall (a : App2.Job) (rest : list App2.Job) (idx : nat),
    App2.status a = App2.incompatible ->
    App2.skip_if_incompatible a = true ->
    App2.scan (a :: rest) idx
    = (App2.set_status a App2.skipped :: fst (App2.scan rest (S idx)),
       snd (App2.scan rest (S idx))).
Proof.
  intros a rest idx Ha Hs. simpl. rewrite Ha, Hs. simpl.
  destruct (App2.scan rest (S idx)); reflexivity.
Qed.

Lemma app2_scan_finds_queued :
  forall js idx js' i,
    App2.scan js idx = (js', Some i) ->
    exists j, nth_error js' (i - idx) = Some j /\ App2.status j = App2.queued
              /\ (idx <= i)%nat.
Proof.
  induction js as [|a js IH]; intros idx js' i H; simpl in H; [discriminate|].
  destruct (App2.Status_eqb (App2.status a) App2.queued) eqn:Hq.
  - inversion H; subst. rewrite Nat.sub_diag. exists a. simpl.
    repeat split; [|lia]. destruct (App2.status a); try discriminate; reflexivity.
  - destruct (App2.scan js (S idx)) as [r n] eqn:Hr. inversion H; subst.
    destruct (IH _ _ _ Hr) as [j [Hn [Hs Hle]]].
    exists j. repeat split; [|assumption|lia].
    replace (i - idx)%nat with (S (i - S idx)) by lia. exact Hn.
Qed.

(** X10. No warning is ever given by process_next of app2.py. *)
Lemma app2_never_blocked :
  forall w row, snd (App2.process_next w) <> App2.Blocked row.
Proof.
  intros w row. unfold App2.process_next.
  destruct (App2.worker_running w); [discriminate|].
  destruct (App2.scan (App2.jobs w) 0) as [js [i|]] eqn:Hs; [|discriminate].
  destruct (app2_scan_finds_queued _ _ _ _ Hs) as [j [Hn [Hq _]]].
  rewrite Nat.sub_0_r in Hn. rewrite Hn, Hq. discriminate.
Qed.

(** The scan of subsgpt.py stops at such a job and reports it. *)
Lemma SubsGpt_blocks :
  forall (j : SubsGpt.Job) (rest : list SubsGpt.Job) (cells : list string),
    SubsGpt.compatible j = false ->
    SubsGpt.truthy (SubsGpt.skip j) = false ->
    SubsGpt._process_next (SubsGpt.mkWindow (j :: rest) cells 0 None)
    = (SubsGpt.mkWindow (j :: rest) cells 0 None, SubsGpt.Blocked 0).
Proof.
  intros j rest cells Hc Hs. unfold SubsGpt._process_next. simpl.
  rewrite Hc, Hs. reflexivity.
Qed.

(** C2, app2.py: a state reached by adding four files, starting the queue
    and removing the row of a finished job while the next one runs. The
    removal shifts the jobs but not [current_row], so _on_finished marks the
    job behind the running one as done, the running job keeps its status,
    and the next call of process_next dispatches one more: two jobs have
    status running. *)
Theorem C2_app2_two_jobs_running :
  let w := App2.run_events App2.initial removal_trace in
  map App2.input_path (App2.jobs w) = ["/in/b.mkv"; "/in/c.mkv"; "/in/d.mkv"] /\
  map App2.status (App2.jobs w) = [App2.running; App2.done; App2.running] /\
  App2.count_status App2.running (App2.jobs w) = 2%nat.
Proof. repeat split. Qed.

(** What holds of the dispatch itself: while a worker runs, process_next
    changes nothing. *)
Lemma app2_process_next_guard :
  forall w, App2.worker_running w = true ->
            App2.process_next w = (w, App2.Ignored).
Proof. intros w H. unfold App2.process_next. rewrite H. reflexivity. Qed.

(** * The worker of app2.py *)

(** What is emitted for one line: nothing, or one percentage computed from
    the time on the line, and that only for a duration above zero. *)
Lemma emit_for_shape (d : Py.float) (msg : string) (t : option Py.float)
      (now : list App2.Signal) :
  App2.emit_for d msg t = Py.Ret now ->
  now = [] \/
  exists tv pct, t = Some tv /\ Py.gt0 d = true /\
                 App2.percent tv d = Py.Ret pct /\
                 now = [App2.progress pct msg].
Proof.
  unfold App2.emit_for. destruct t as [tv|].
  - destruct (Py.gt0 d) eqn:Hd.
    + destruct (App2.percent tv d) as [pct|e] eqn:Hp; cbn [Py.bind];
        intros H; [|discriminate H].
      injection H as <-. right. exists tv, pct. repeat split; assumption.
    + intros H. injection H as <-. left. reflexivity.
  - intros H. injection H as <-. left. reflexivity.
Qed.

Lemma line_shape (d : Py.float) (msg : string) (line : Py.str)
      (now : list App2.Signal) :
  Py.bind (Py.parse_ffmpeg_time line) (App2.emit_for d msg) = Py.Ret now ->
  now = [] \/
  exists tv pct, Py.parse_ffmpeg_time line = Py.Ret (Some tv) /\
                 Py.gt0 d = true /\ App2.percent tv d = Py.Ret pct /\
                 now = [App2.progress pct msg].
Proof.
  destruct (Py.parse_ffmpeg_time line) as [t|e]; cbn [Py.bind];
    [|discriminate].
  intros H. destruct (emit_for_shape _ _ _ _ H) as [->|[tv [pct [-> Hr]]]];
    [left; reflexivity | right; exists tv, pct; split; [reflexivity | exact Hr]].
Qed.

Lemma track_inv (d : Py.float) (msg : string) (out : list (bool * Py.str))
      (rc : Z) :
  Forall (fun s => App2.is_finished s = false) (fst (App2.track d msg out rc)) /\
  (snd (App2.track d msg out rc) = Py.Ret true ->
   rc = 0%Z /\ Forall (fun l => fst l = false) out).
Proof.
  induction out as [|[cancel line] out IH]; cbn [App2.track].
  - cbn [fst snd]. split; [constructor|]. intros H. injection H as H1.
    split; [apply Z.eqb_eq, H1 | constructor].
  - destruct cancel; [cbn [fst snd]; split; [constructor | discriminate]|].
    destruct (Py.bind (Py.parse_ffmpeg_time line) (App2.emit_for d msg))
      as [now|e] eqn:E; [|cbn [fst snd]; split; [constructor | discriminate]].
    destruct (App2.track d msg out rc) as [sigs r]; cbn [fst snd] in *.
    destruct IH as [IH1 IH2]. split.
    + apply Forall_app. split; [|exact IH1].
      destruct (line_shape _ _ _ _ E) as [->|[tv [pct [_ [_ [_ ->]]]]]];
        repeat constructor.
    + intros H. destruct (IH2 H) as [Hrc Hall]. split; [exact Hrc|].
      constructor; [reflexivity | exact Hall].
Qed.

Lemma run_process_inv (p : App2.Proc) (d : Py.float) (msg : string) :
  Forall (fun s => App2.is_finished s = false)
         (fst (App2._run_process_and_track p d msg)) /\
  (snd (App2._run_process_and_track p d msg) = Py.Ret true -> App2.succeeded p).
Proof.
  unfold App2._run_process_and_track, App2.succeeded.
  destruct (App2.found p) eqn:Hf; simpl.
  - pose proof (track_inv d msg (App2.output p) (App2.returncode p)) as [H1 H2].
    destruct (App2.track d msg (App2.output p) (App2.returncode p)) as [sigs r].
    simpl in *. split; [constructor; [reflexivity | exact H1]|].
    intros H. destruct (H2 H). repeat split; assumption.
  - split; [repeat constructor | discriminate].
Qed.

(** The signals of the steps end with the one [finished] signal, and it
    reports success only when every step's process succeeded. *)
Lemma exec_steps_shape (d : Py.float) (procs : nat -> App2.Proc) (steps : list App2.Step)
      (ok_msg : string) :
  forall k, exists pre ok m,
    App2.exec_steps d procs k steps ok_msg = (pre ++ [App2.finished ok m])%list /\
    Forall (fun s => App2.is_finished s = false) pre /\
    (ok = true ->
     forall i, (i < List.length steps)%nat -> App2.succeeded (procs (k + i)%nat)).
Proof.
  induction steps as [|st steps IH]; intros k; simpl.
  - exists [], true, ok_msg.
    split; [reflexivity | split; [constructor|]]. intros _ i Hi. lia.
  - pose proof (run_process_inv (procs k) d (App2.phase st)) as [H1 H2].
    destruct (App2._run_process_and_track (procs k) d (App2.phase st))
      as [sigs r]. simpl in *.
    destruct r as [[|]|e].
    + destruct (IH (S k)) as [pre [ok [m [He [Hp Hs]]]]].
      exists (sigs ++ pre)%list, ok, m. rewrite He, app_assoc.
      split; [reflexivity | split; [apply Forall_app; split; assumption|]].
      intros Hok [|i] Hi.
      * rewrite Nat.add_0_r. apply H2. reflexivity.
      * replace (k + S i)%nat with (S k + i)%nat by lia. apply Hs; [exact Hok | lia].
    + exists sigs, false, (App2.fail_msg st).
      split; [reflexivity | split; [exact H1 | discriminate]].
    + exists sigs, false, ("Erro interno: " ++ e).
      split; [reflexivity | split; [exact H1 | discriminate]].
Qed.

Lemma run_shape (ffmpeg : string) (probe : Py.float) (procs : nat -> App2.Proc)
      (j : App2.Job) :
  exists pre ok m,
    App2.run ffmpeg probe procs j = (pre ++ [App2.finished ok m])%list /\
    Forall (fun s => App2.is_finished s = false) pre /\
    (ok = true ->
     forall i, (i < List.length (App2.steps_of ffmpeg j))%nat ->
               App2.succeeded (procs i)).
Proof.
  unfold App2.run, App2.steps_of.
  destruct (App2.video_streams j) as [|v vs].
  - exists [App2.status_changed "running"], false, "Sem faixa de vídeo".
    split; [reflexivity | split; [repeat constructor | discriminate]].
  - destruct (App2.build_steps ffmpeg j v) as [steps ok_msg]. simpl.
    destruct (exec_steps_shape
                (if Py.nonzero (App2.duration j) then App2.duration j else probe)
                procs steps ok_msg 0) as [pre [ok [m [He [Hp Hs]]]]].
    exists (App2.status_changed "running" :: pre), ok, m. rewrite He.
    split; [reflexivity | split; [constructor; [reflexivity | exact Hp] | exact Hs]].
Qed.

Lemma list_set_length {A : Type} (l : list A) (i : nat) (x : A) :
  List.length (App2.list_set i x l) = List.length l.
Proof.
  revert i; induction l as [|a l IH]; intros [|i]; simpl; auto.
Qed.



(** The v0 script tells a cancelled run from a failed one: when the flag
    is set the status shown is "canceled", whatever the work returned. *)
Lemma Alfa_cancel_is_canceled :
  forall (ok : bool) (msg : string),
    Alfa.shown_status (Alfa.run (Py.Ret (ok, msg)) true) = Some "canceled".
Proof. intros ok msg. reflexivity. Qed.

(** * Progress *)

(** ** Signs of the float operations *)

Lemma round_aux_sign (m e : Z) (l : location) :
  not_negative (binary_round_aux Py.prec Py.emax false m e l) = true.
Proof.
  unfold binary_round_aux.
  destruct (shr_fexp Py.prec Py.emax m e l) as [mrs' e'].
  destruct (shr_fexp Py.prec Py.emax
              (round_nearest_even (shr_m mrs') (loc_of_shr_record mrs'))
              e' loc_Exact) as [mrs'' e''].
  destruct (shr_m mrs''); [reflexivity | | reflexivity].
  destruct (Z.leb e'' (Z.sub Py.emax Py.prec)); reflexivity.
Qed.

Lemma round_sign (m : positive) (e : Z) :
  not_negative (binary_round Py.prec Py.emax false m e) = true.
Proof.
  unfold binary_round.
  destruct (shl_align m e _) as [mz ez]. apply round_aux_sign.
Qed.

Lemma float_of_ratio_sign (n d : Z) : not_negative (Py.float_of_ratio n d) = true.
Proof.
  unfold Py.float_of_ratio. destruct n as [|p|p]; try reflexivity.
  destruct (SFdiv_core_binary Py.prec Py.emax (Z.pos p) 0 d 0) as [[q e] l].
  apply round_aux_sign.
Qed.

Lemma float_of_Z_sign (n : Z) :
  (0 <= n)%Z -> not_negative (Py.float_of_Z n) = true.
Proof.
  unfold Py.float_of_Z, binary_normalize. destruct n as [|p|p]; intros H.
  - reflexivity.
  - apply round_sign.
  - lia.
Qed.

Lemma fadd_sign (x y : Py.float) :
  not_negative x = true -> not_negative y = true ->
  not_negative (Py.fadd x y) = true.
Proof.
  unfold Py.fadd.
  destruct x as [sx|sx| |sx mx ex], y as [sy|sy| |sy my ey];
    cbn [not_negative]; intros Hx Hy;
    try (apply negb_true_iff in Hx; subst sx);
    try (apply negb_true_iff in Hy; subst sy);
    try reflexivity.
  cbn [SFadd cond_Zopp].
  destruct (shl_align mx ex (Z.min ex ey)) as [ax ex'].
  destruct (shl_align my ey (Z.min ex ey)) as [ay ey'].
  cbn [fst Z.add binary_normalize]. apply round_sign.
Qed.

Lemma fdiv_sign (x y q : Py.float) :
  not_negative x = true -> not_negative y = true ->
  Py.fdiv x y = Py.Ret q -> not_negative q = true.
Proof.
  unfold Py.fdiv.
  destruct x as [sx|sx| |sx mx ex], y as [sy|sy| |sy my ey];
    cbn [not_negative]; intros Hx Hy H;
    try discriminate H; injection H as <-;
    try (apply negb_true_iff in Hx; subst sx);
    try (apply negb_true_iff in Hy; subst sy);
    try reflexivity.
  cbn [SFdiv xorb].
  destruct (SFdiv_core_binary Py.prec Py.emax (Z.pos mx) ex (Z.pos my) ey)
    as [[mz ez] lz].
  apply round_aux_sign.
Qed.

Lemma fmul_sign (x y : Py.float) :
  not_negative x = true -> not_negative y = true ->
  not_negative (Py.fmul x y) = true.
Proof.
  unfold Py.fmul.
  destruct x as [sx|sx| |sx mx ex], y as [sy|sy| |sy my ey];
    cbn [not_negative]; intros Hx Hy;
    try (apply negb_true_iff in Hx; subst sx);
    try (apply negb_true_iff in Hy; subst sy);
    try reflexivity.
  cbn [SFmul xorb]. apply round_aux_sign.
Qed.

Lemma int_of_float_sign (x : Py.float) (n : Z) :
  not_negative x = true -> Py.int_of_float x = Py.Ret n -> (0 <= n)%Z.
Proof.
  destruct x as [s|s| |s m e]; cbn [not_negative Py.int_of_float];
    intros Hs H; try discriminate H; injection H as <-; [lia|].
  apply negb_true_iff in Hs. subst s. cbn [cond_Zopp].
  destruct (0 <=? e)%Z.
  - apply Z.shiftl_nonneg. lia.
  - apply Z.shiftr_nonneg. lia.
Qed.

Lemma gt0_sign (d : Py.float) : Py.gt0 d = true -> not_negative d = true.
Proof.
  unfold Py.gt0, SFltb, Py.F0.
  destruct d as [s|s| |s m e]; cbn [SFcompare not_negative];
    try discriminate; destruct s; try discriminate; reflexivity.
Qed.

Lemma gt0_nonzero (d : Py.float) : Py.gt0 d = true -> Py.nonzero d = true.
Proof.
  unfold Py.gt0, SFltb, Py.F0.
  destruct d as [s|s| |s m e]; cbn [SFcompare Py.nonzero];
    try discriminate; reflexivity.
Qed.

(** The percentage of a line, when it is computed at all, is at most 99,
    and it is not negative when neither the time nor the duration is. *)
Lemma percent_range (t d : Py.float) (pct : Z) :
  App2.percent t d = Py.Ret pct ->
  (pct <= 99)%Z /\
  (not_negative t = true -> not_negative d = true -> (0 <= pct)%Z).
Proof.
  unfold App2.percent.
  destruct (Py.fdiv t d) as [q|e] eqn:Hq; cbn [Py.bind]; [|discriminate].
  destruct (Py.int_of_float (Py.fmul q (Py.float_of_Z 100))) as [n|e] eqn:Hn;
    cbn [Py.bind]; [|discriminate].
  intros H. injection H as <-. split; [lia|].
  intros Ht Hd.
  assert (0 <= n)%Z; [|lia].
  apply (int_of_float_sign _ _ (fmul_sign _ _ (fdiv_sign _ _ _ Ht Hd Hq)
                                          (float_of_Z_sign 100 ltac:(lia))) Hn).
Qed.

Lemma subsgpt_percent (t d : Py.float) : SubsGpt.percent t d = App2.percent t d.
Proof. reflexivity. Qed.

Lemma decimal_nonneg (c : N) (d : Z) : Py.decimal c = Some d -> (0 <= d)%Z.
Proof.
  unfold Py.decimal. destruct (find _ Py.DECIMAL_ZEROS); [|discriminate].
  intros H. injection H as <-. lia.
Qed.

Lemma digits_val_nonneg (s : Py.str) :
  forall acc, (0 <= acc)%Z -> (0 <= Py.digits_val acc s)%Z.
Proof.
  induction s as [|c s IH]; intros acc Hacc; [exact Hacc|].
  cbn [Py.digits_val]. apply IH.
  destruct (Py.decimal c) as [d|] eqn:Hd; [|lia].
  pose proof (decimal_nonneg _ _ Hd). lia.
Qed.

Lemma int_of_str_nonneg (s : Py.str) (v : Z) :
  Py.int_of_str s = Py.Ret v -> (0 <= v)%Z.
Proof.
  unfold Py.int_of_str. destruct s as [|c s]; [discriminate|].
  destruct (Py.all_digits (c :: s)); [|discriminate].
  destruct (Py.INT_MAX_STR_DIGITS <? List.length (c :: s))%nat; [discriminate|].
  intros E. assert (Hv : v = Py.digits_val 0 (c :: s)) by congruence.
  rewrite Hv. apply digits_val_nonneg. lia.
Qed.

Lemma float_of_str_sign (s : Py.str) (v : Py.float) :
  Py.float_of_str s = Py.Ret v -> not_negative v = true.
Proof.
  unfold Py.float_of_str. destruct (Py.split_point s) as [a b].
  destruct a as [|c a]; [discriminate|].
  destruct (negb (Py.all_digits (c :: a))); [discriminate|].
  destruct b as [f|].
  - destruct (Py.all_digits f); [|discriminate].
    intros H. injection H as <-. apply float_of_ratio_sign.
  - intros H. injection H as <-. apply float_of_ratio_sign.
Qed.

(** The parser never returns a negative time. *)
Lemma parse_sign (line : Py.str) (t : Py.float) :
  Py.parse_ffmpeg_time line = Py.Ret (Some t) -> not_negative t = true.
Proof.
  unfold Py.parse_ffmpeg_time.
  destruct (Py.search line) as [[[h m] x]|]; [|discriminate].
  destruct (Py.int_of_str h) as [hv|] eqn:Hh; [|discriminate].
  destruct (Py.int_of_str m) as [mv|] eqn:Hm; [|discriminate].
  destruct (Py.float_of_str x) as [sv|] eqn:Hs; [|discriminate].
  cbn [Py.bind]. unfold Py.float_of_int.
  destruct (Z.abs (hv * 3600 + mv * 60) <? Py.DBL_OVERFLOW)%Z; [|discriminate].
  cbn [Py.bind]. intros E. injection E as <-.
  apply int_of_str_nonneg in Hh, Hm. apply float_of_str_sign in Hs.
  apply fadd_sign; [apply float_of_Z_sign; lia | exact Hs].
Qed.

(** ** The percentages of a run *)

(** Every percentage emitted while a step of app2.py runs comes from a line
    handled before cancellation, with a duration above zero; it is what
    [percent] computes from the time on the line, and lies between 0 and
    99. *)
Lemma track_progress (d : Py.float) (msg : string)
      (out : list (bool * Py.str)) (rc : Z) :
  forall pct m,
    In (App2.progress pct m) (fst (App2.track d msg out rc)) ->
    Py.gt0 d = true /\ m = msg /\ (0 <= pct <= 99)%Z /\
    exists line t, In (false, line) out /\
                   Py.parse_ffmpeg_time line = Py.Ret (Some t) /\
                   App2.percent t d = Py.Ret pct.
Proof.
  induction out as [|[cancel line] out IH]; cbn [App2.track]; intros pct m H;
    [contradiction|].
  destruct cancel; [contradiction|].
  destruct (Py.bind (Py.parse_ffmpeg_time line) (App2.emit_for d msg))
    as [now|e] eqn:E; [|contradiction].
  destruct (App2.track d msg out rc) as [sigs r]. cbn [fst] in *.
  apply in_app_or in H. destruct H as [H|H].
  - destruct (line_shape _ _ _ _ E) as [->|[tv [p [Hp [Hd [Hpc ->]]]]]];
      [contradiction|].
    destruct H as [H|[]]. injection H as <- <-.
    destruct (percent_range _ _ _ Hpc) as [Hle Hge].
    split; [exact Hd | split; [reflexivity | split]].
    + split; [apply Hge; [exact (parse_sign _ _ Hp) | exact (gt0_sign _ Hd)]
             | exact Hle].
    + exists line, tv. split; [left; reflexivity | split; assumption].
  - destruct (IH _ _ H) as [Hd [Hm [Hb [l [t' [Hin Hr]]]]]].
    split; [exact Hd | split; [exact Hm | split; [exact Hb|]]].
    exists l, t'. split; [right; exact Hin | exact Hr].
Qed.

(** The same for subsgpt.py, which reports a percentage only when it
    differs from the last one reported, and for any duration but zero. *)
Lemma log_lines_progress (row : nat) (d : Py.float) (msg : string)
      (out : list (bool * Py.str)) (rc : Z) :
  forall last r pct m,
    In (SubsGpt.progress r pct m) (fst (SubsGpt.log_lines row d msg out rc last)) ->
    Py.nonzero d = true /\ r = row /\ m = msg /\ (pct <= 99)%Z /\
    (Py.gt0 d = true -> (0 <= pct)%Z) /\
    exists line t, In (false, line) out /\
                   Py.parse_ffmpeg_time line = Py.Ret (Some t) /\
                   SubsGpt.percent t d = Py.Ret pct.
Proof.
  induction out as [|[cancel line] out IH]; cbn [SubsGpt.log_lines];
    intros last r pct m H; [contradiction|].
  destruct cancel; [contradiction|].
  assert (Hrec : forall last',
             In (SubsGpt.progress r pct m)
                (fst (SubsGpt.log_lines row d msg out rc last')) ->
             Py.nonzero d = true /\ r = row /\ m = msg /\ (pct <= 99)%Z /\
             (Py.gt0 d = true -> (0 <= pct)%Z) /\
             exists line0 t, In (false, line0) ((false, line) :: out) /\
                   Py.parse_ffmpeg_time line0 = Py.Ret (Some t) /\
                   SubsGpt.percent t d = Py.Ret pct).
  { intros last' H'.
    destruct (IH _ _ _ _ H') as [H1 [H2 [H3 [H4 [H5 [l [t [H6 H7]]]]]]]].
    split; [exact H1 | split; [exact H2 | split; [exact H3 | split;
      [exact H4 | split; [exact H5|]]]]].
    exists l, t. split; [right; exact H6 | exact H7]. }
  destruct (Py.parse_ffmpeg_time line) as [[tv|]|e] eqn:Hp;
    [| apply (Hrec _ H) | contradiction].
  destruct (Py.nonzero d) eqn:Hd; [| apply (Hrec _ H)].
  destruct (SubsGpt.percent tv d) as [p|e] eqn:Hpc; [|contradiction].
  destruct (p =? last)%Z; [apply (Hrec _ H)|].
  destruct (SubsGpt.log_lines row d msg out rc p) as [acts res] eqn:Hl.
  cbn [fst] in H. destruct H as [H|H].
  - injection H as <- <- <-.
    destruct (percent_range _ _ _ Hpc) as [Hle Hge].
    split; [reflexivity | split; [reflexivity | split; [reflexivity | split;
      [exact Hle | split]]]].
    + intros Hg. apply Hge; [exact (parse_sign _ _ Hp) | exact (gt0_sign _ Hg)].
    + exists line, tv. split; [left; reflexivity | split; assumption].
  - apply (Hrec p). rewrite Hl. exact H.
Qed.

(** Without a duration above zero app2.py emits no percentage, and with a
    duration of zero neither does subsgpt.py. *)
Lemma no_percent_without_duration (d : Py.float) (msg : string) :
  (Py.gt0 d = false ->
   forall out rc pct m,
     ~ In (App2.progress pct m) (fst (App2.track d msg out rc))) /\
  (Py.nonzero d = false ->
   forall row out rc last r pct m,
     ~ In (SubsGpt.progress r pct m)
          (fst (SubsGpt.log_lines row d msg out rc last))).
Proof.
  split.
  - intros Hd out rc pct m H. apply track_progress in H.
    destruct H as [H _]. congruence.
  - intros Hd row out rc last r pct m H. apply log_lines_progress in H.
    destruct H as [H _]. congruence.
Qed.

Lemma track_below_100 (d : Py.float) (msg : string)
      (out : list (bool * Py.str)) (rc : Z) :
  Forall below_100 (fst (App2.track d msg out rc)).
Proof.
  apply Forall_forall. intros [pct m | ok m | st] H; cbn [below_100];
    try exact I.
  apply track_progress in H. tauto.
Qed.

Lemma exec_steps_below_100 (d : Py.float) (procs : nat -> App2.Proc)
      (steps : list App2.Step) (ok_msg : string) :
  forall k, Forall below_100 (App2.exec_steps d procs k steps ok_msg).
Proof.
  induction steps as [|st steps IH]; intros k; cbn [App2.exec_steps];
    [repeat constructor|].
  unfold App2._run_process_and_track.
  destruct (App2.found (procs k)).
  - pose proof (track_below_100 d (App2.phase st) (App2.output (procs k))
                                (App2.returncode (procs k))) as Ht.
    destruct (App2.track d (App2.phase st) (App2.output (procs k))
                         (App2.returncode (procs k))) as [sigs r].
    cbn [fst] in Ht. apply Forall_app. split; [constructor; [exact I | exact Ht]|].
    destruct r as [[|]|e]; [apply IH | repeat constructor | repeat constructor].
  - apply Forall_app. split; [|repeat constructor].
    constructor; [exact I|]. constructor; [cbn [below_100]; lia | constructor].
Qed.

(** No signal of JobWorker.run carries 100. *)
Lemma run_below_100 (ffmpeg : string) (probe : Py.float)
      (procs : nat -> App2.Proc) (j : App2.Job) :
  Forall below_100 (App2.run ffmpeg probe procs j).
Proof.
  unfold App2.run. constructor; [exact I|].
  destruct (App2.video_streams j) as [|v vs]; [repeat constructor|].
  destruct (App2.build_steps ffmpeg j v) as [steps ok_msg].
  apply exec_steps_below_100.
Qed.

(** JobWorker.run reports success only when the process of every step,
    the last one included, exited with code 0. *)
Lemma run_success (ffmpeg : string) (probe : Py.float)
      (procs : nat -> App2.Proc) (j : App2.Job) (m : string) :
  In (App2.finished true m) (App2.run ffmpeg probe procs j) ->
  forall i, (i < List.length (App2.steps_of ffmpeg j))%nat -> App2.succeeded (procs i).
Proof.
  intros H. destruct (run_shape ffmpeg probe procs j) as [pre [ok [m' [He [Hp Hs]]]]].
  rewrite He in H. apply in_app_or in H. destruct H as [H|[H|[]]].
  - rewrite Forall_forall in Hp. specialize (Hp _ H). discriminate.
  - apply Hs. congruence.
Qed.

Lemma in_list_set {A : Type} (l : list A) (i : nat) (x y : A) :
  In y (App2.list_set i x l) -> y = x \/ In y l.
Proof.
  revert i; induction l as [|a l IH]; intros [|i] H; simpl in *; try tauto.
  - destruct H as [H|H]; [left; congruence | tauto].
  - destruct H as [H|H]; [tauto|]. destruct (IH _ H); tauto.
Qed.

Lemma in_list_pop {A : Type} (l : list A) (i : nat) (y : A) :
  In y (App2.list_pop i l) -> In y l.
Proof.
  revert i; induction l as [|a l IH]; intros [|i] H; simpl in *; try tauto.
  destruct H as [H|H]; [tauto | right; apply (IH _ H)].
Qed.

(** In the window a progress bar comes to show 100 only when the
    [finished(True, ...)] signal of the worker is handled. *)
Lemma bar_full_only_on_success (w : App2.MainWindow) (e : App2.Event) :
  match e with App2.EProgress pct => pct <> 100%Z | _ => True end ->
  In 100%Z (App2.pbar (App2.step w e)) ->
  In 100%Z (App2.pbar w) \/ exists m, e = App2.EFinished true m.
Proof.
  intros He H. destruct e as [j | | row | row b | pct | st | ok m]; simpl in H.
  - apply in_app_or in H. destruct H as [H|[H|[]]]; [tauto | discriminate].
  - left. unfold App2.process_next in H.
    destruct (App2.worker_running w); [exact H|].
    destruct (App2.scan (App2.jobs w) 0) as [js [i|]]; [|exact H].
    destruct (nth_error js i) as [job|]; [|exact H].
    destruct (andb _ _); exact H.
  - left. unfold App2._remove_row in H.
    destruct (andb _ _); [exact H | apply (in_list_pop _ _ _ H)].
  - left. unfold App2._set_skip_flag in H.
    destruct (nth_error (App2.jobs w) row); exact H.
  - left. destruct (App2.current_worker w); [|exact H].
    unfold App2._on_progress in H.
    destruct (App2.current_row w); [|exact H]. simpl in H.
    destruct (in_list_set _ _ _ _ H) as [E|E]; [congruence | exact E].
  - left. destruct (App2.current_worker w); [|exact H].
    unfold App2._on_status in H.
    destruct (App2.current_row w) as [row|]; [|exact H].
    destruct (nth_error (App2.jobs w) row); exact H.
  - destruct (App2.current_worker w); [|left; exact H].
    unfold App2._on_finished in H.
    destruct ok; [right; exists m; reflexivity | left].
    destruct (App2.current_row w) as [row|]; [|exact H].
    destruct (nth_error (App2.jobs w) row); exact H.
Qed.

(** The progress of a running step: for every line parsed to a time [t],
    with a duration above zero the percentage app2.py reports is
    [min(99, int((t/d)*100))] in double arithmetic, between 0 and 99 however
    large [t] is; subsgpt.py reports the same number for every duration but
    zero; without such a duration no percentage is reported. In app2.py the
    signals of a run carry no 100, success is reported only after the
    processes of all the steps, the last one included, exited with code 0,
    and the window shows 100 only on that report. *)
Lemma percent_capped_until_success :
  forall (d : Py.float) (msg : string),
    (forall out rc pct m,
        In (App2.progress pct m) (fst (App2.track d msg out rc)) ->
        Py.gt0 d = true /\ (0 <= pct <= 99)%Z /\
        exists line t, In (false, line) out /\
                       Py.parse_ffmpeg_time line = Py.Ret (Some t) /\
                       App2.percent t d = Py.Ret pct) /\
    (forall row out rc last r pct m,
        In (SubsGpt.progress r pct m)
           (fst (SubsGpt.log_lines row d msg out rc last)) ->
        Py.nonzero d = true /\ (pct <= 99)%Z /\
        (Py.gt0 d = true -> (0 <= pct)%Z) /\
        exists line t, In (false, line) out /\
                       Py.parse_ffmpeg_time line = Py.Ret (Some t) /\
                       SubsGpt.percent t d = Py.Ret pct) /\
    (forall ffmpeg probe procs j,
        Forall below_100 (App2.run ffmpeg probe procs j) /\
        (forall m, In (App2.finished true m) (App2.run ffmpeg probe procs j) ->
                   forall i, (i < List.length (App2.steps_of ffmpeg j))%nat ->
                             App2.succeeded (procs i))) /\
    (forall w e,
        match e with App2.EProgress pct => pct <> 100%Z | _ => True end ->
        In 100%Z (App2.pbar (App2.step w e)) ->
        In 100%Z (App2.pbar w) \/ exists m, e = App2.EFinished true m).
Proof.
  intros d msg. split; [|split; [|split]].
  - intros out rc pct m H. apply track_progress in H.
    destruct H as [Hd [_ [Hb Hex]]]. repeat split; try assumption; apply Hb.
  - intros row out rc last r pct m H. apply log_lines_progress in H.
    destruct H as [Hd [_ [_ [Hle [Hge Hex]]]]]. repeat split; assumption.
  - intros ffmpeg probe procs j. split; [apply run_below_100|].
    intros m. apply run_success.
  - intros w e. apply bar_full_only_on_success.
Qed.

(** One minute into a file of two minutes. *)
Example percent_at_half :
  Py.parse_ffmpeg_time progress_line
  = Py.Ret (Some (Py.float_of_ratio 605 10)) /\
  App2.emit_for (Py.float_of_Z 120) "Remux" (Some (Py.float_of_ratio 605 10))
  = Py.Ret [App2.progress 50 "Remux"].
Proof. split; vm_compute; reflexivity. Qed.

(** * The progress pattern *)

Lemma str_app_assoc (a b c : string) : (a ++ b) ++ c = a ++ (b ++ c).
Proof. induction a as [|x a IH]; simpl; [reflexivity | rewrite IH; reflexivity]. Qed.

Lemma str_app_nil_r (a : string) : a ++ "" = a.
Proof. induction a as [|x a IH]; simpl; [reflexivity | rewrite IH; reflexivity]. Qed.

Lemma str_app_length (a b : string) :
  String.length (a ++ b) = (String.length a + String.length b)%nat.
Proof. induction a as [|x a IH]; simpl; [reflexivity | rewrite IH; reflexivity]. Qed.

Lemma take_digits_spec (s : Py.str) :
  s = (fst (Py.take_digits s) ++ snd (Py.take_digits s))%list /\
  Py.all_digits (fst (Py.take_digits s)) = true /\
  no_digit_next (snd (Py.take_digits s)).
Proof.
  induction s as [|c s [IH1 [IH2 IH3]]]; cbn [Py.take_digits].
  - repeat split.
  - destruct (Py.is_digit c) eqn:Hc; [|repeat split; exact Hc].
    destruct (Py.take_digits s) as [d r]. cbn [fst snd] in *.
    split; [rewrite IH1 at 1; reflexivity | split; [|exact IH3]].
    unfold Py.all_digits in *. cbn [forallb]. rewrite Hc, IH2. reflexivity.
Qed.

(** A run of digits that cannot go on is taken whole. *)
Lemma take_digits_exact (d r : Py.str) :
  Py.all_digits d = true -> no_digit_next r ->
  Py.take_digits (d ++ r)%list = (d, r).
Proof.
  intros Hd Hr. induction d as [|c d IH]; cbn [app Py.take_digits].
  - destruct r as [|c r]; [reflexivity|]. cbn [no_digit_next] in Hr.
    cbn [Py.take_digits]. rewrite Hr. reflexivity.
  - unfold Py.all_digits in Hd. cbn [forallb] in Hd.
    apply andb_prop in Hd. destruct Hd as [Hc Hd].
    rewrite Hc, (IH Hd). reflexivity.
Qed.

Lemma digits_then_sound (s d r : Py.str) :
  Py.digits_then s = Some (d, r) ->
  s = (d ++ r)%list /\ digits1 d /\ no_digit_next r.
Proof.
  unfold Py.digits_then. pose proof (take_digits_spec s) as [H1 [H2 H3]].
  destruct (Py.take_digits s) as [d0 r0]. cbn [fst snd] in *.
  destruct d0 as [|c d0]; [discriminate|].
  intros E. injection E as <- <-.
  split; [exact H1 | split; [split; [discriminate | exact H2] | exact H3]].
Qed.

Lemma digits_then_exact (d r : Py.str) :
  digits1 d -> no_digit_next r -> Py.digits_then (d ++ r)%list = Some (d, r).
Proof.
  intros [Hne Hd] Hr. unfold Py.digits_then.
  rewrite (take_digits_exact d r Hd Hr).
  destruct d; [contradiction Hne; reflexivity | reflexivity].
Qed.

Lemma strip_prefix_sound (p s r : Py.str) :
  Py.strip_prefix p s = Some r -> s = (p ++ r)%list.
Proof.
  revert s; induction p as [|a p IH]; intros s H; cbn [Py.strip_prefix] in H.
  - injection H as ->. reflexivity.
  - destruct s as [|b s]; [discriminate|].
    destruct (a =? b)%N eqn:E; [|discriminate].
    apply N.eqb_eq in E. subst b. cbn [app]. f_equal. apply IH, H.
Qed.

Lemma strip_prefix_complete (p r : Py.str) :
  Py.strip_prefix p (p ++ r)%list = Some r.
Proof.
  induction p as [|a p IH]; cbn [app Py.strip_prefix]; [reflexivity|].
  rewrite N.eqb_refl. exact IH.
Qed.

Lemma expect_sound (c : N) (s r : Py.str) :
  Py.expect c s = Some r -> s = c :: r.
Proof.
  destruct s as [|c' s]; cbn [Py.expect]; [discriminate|].
  destruct (c' =? c)%N eqn:E; [|discriminate].
  apply N.eqb_eq in E. intros H. injection H as ->. subst. reflexivity.
Qed.

Lemma expect_none (c : N) (s : Py.str) :
  Py.expect c s = None -> forall r, s <> c :: r.
Proof.
  destruct s as [|c' s]; cbn [Py.expect]; [discriminate|].
  destruct (c' =? c)%N eqn:E; [discriminate|].
  apply N.eqb_neq in E. intros _ r H. injection H as H _. contradiction.
Qed.

Lemma expect_head (c : N) (r : Py.str) : Py.expect c (c :: r) = Some r.
Proof. cbn [Py.expect]. rewrite N.eqb_refl. reflexivity. Qed.

Lemma digit_not_point (c : N) : Py.is_digit c = true -> (c =? 46)%N = false.
Proof.
  intros H. destruct (c =? 46)%N eqn:E; [|reflexivity].
  apply N.eqb_eq in E. subst c. discriminate H.
Qed.

Lemma split_point_digits (a : Py.str) :
  Py.all_digits a = true ->
  Py.split_point a = (a, None) /\
  forall b, Py.split_point (a ++ Py.POINT :: b)%list = (a, Some b).
Proof.
  induction a as [|c a IH]; intros H.
  - split; [reflexivity|]. intros b. reflexivity.
  - unfold Py.all_digits in H. cbn [forallb] in H.
    apply andb_prop in H. destruct H as [Hc Ha].
    destruct (IH Ha) as [H1 H2]. cbn [app Py.split_point].
    rewrite (digit_not_point c Hc), H1. split; [reflexivity|].
    intros b. rewrite H2. reflexivity.
Qed.

(** What the pattern captures where it matches: the groups of the marker
    that starts there, with the seconds group as long as it can be. *)
Lemma match_here_sound (s h m x : Py.str) :
  Py.match_here s = Some (h, m, x) ->
  exists a b post, x = seconds_text a b /\ marker_at s [] h m a b post.
Proof.
  unfold Py.match_here.
  destruct (Py.strip_prefix Py.TIME s) as [r|] eqn:H0; [|discriminate].
  destruct (Py.digits_then r) as [[h0 r1]|] eqn:H1; [|discriminate].
  destruct (Py.expect Py.COLON r1) as [r2|] eqn:H2; [|discriminate].
  destruct (Py.digits_then r2) as [[m0 r3]|] eqn:H3; [|discriminate].
  destruct (Py.expect Py.COLON r3) as [r4|] eqn:H4; [|discriminate].
  destruct (Py.digits_then r4) as [[s1 r5]|] eqn:H5; [|discriminate].
  apply strip_prefix_sound in H0. apply digits_then_sound in H1, H3, H5.
  apply expect_sound in H2, H4.
  destruct H1 as [E1 [D1 _]], H3 as [E3 [D3 _]], H5 as [E5 [D5 N5]].
  destruct (Py.expect Py.POINT r5) as [r6|] eqn:H6.
  - apply expect_sound in H6.
    pose proof (take_digits_spec r6) as [E6 [D6 N6]].
    destruct (Py.take_digits r6) as [s2 r7]. cbn [fst snd] in *.
    intros E. injection E as <- <- <-. exists s1, (Some s2), r7.
    split; [reflexivity|]. unfold marker_at, marker. cbn [seconds_text fraction].
    split; [|repeat split; try assumption; try apply D1; try apply D3;
             try apply D5; discriminate].
    rewrite H0, E1, H2, E3, H4, E5, H6, E6. cbn [app].
    repeat (rewrite <- ?app_assoc; cbn [app]). reflexivity.
  - intros E. injection E as <- <- <-. exists s1, None, r5.
    split; [reflexivity|]. unfold marker_at, marker. cbn [seconds_text fraction].
    split; [|repeat split; try assumption; try apply D1; try apply D3;
             try apply D5].
    + rewrite H0, E1, H2, E3, H4, E5. cbn [app].
      repeat (rewrite <- ?app_assoc; cbn [app]). reflexivity.
    + intros _. exact (expect_none _ _ H6).
Qed.

Lemma match_here_complete (s h m a : Py.str) (b : option Py.str)
      (post : Py.str) :
  marker_at s [] h m a b post ->
  Py.match_here s = Some (h, m, seconds_text a b).
Proof.
  intros [Hs [Dh [Dm [Da [Df [Np Hb]]]]]]. subst s.
  unfold Py.match_here, marker. cbn [app].
  rewrite <- app_assoc, strip_prefix_complete.
  rewrite <- app_assoc, (digits_then_exact h _ Dh) by reflexivity.
  cbn [app]. rewrite expect_head.
  rewrite <- app_assoc, (digits_then_exact m _ Dm) by reflexivity.
  cbn [app]. rewrite expect_head.
  destruct b as [f|]; cbn [seconds_text fraction] in *.
  - rewrite <- app_assoc. cbn [app].
    rewrite (digits_then_exact a _ Da) by reflexivity.
    rewrite expect_head, (take_digits_exact f post Df Np). reflexivity.
  - rewrite (digits_then_exact a post Da Np).
    destruct (Py.expect Py.POINT post) as [r|] eqn:E; [|reflexivity].
    apply expect_sound in E. destruct (Hb eq_refl _ E).
Qed.

Lemma marker_from_iff (line : Py.str) (p : nat) :
  marker_from line p <-> exists g, Py.match_here (skipn p line) = Some g.
Proof.
  split.
  - intros [h [m [a [b [post H]]]]]. eexists. exact (match_here_complete _ _ _ _ _ _ H).
  - intros [[[h m] x] H]. destruct (match_here_sound _ _ _ _ H) as [a [b [post [_ Hm]]]].
    exists h, m, a, b, post. exact Hm.
Qed.

Lemma search_none (line : Py.str) :
  Py.search line = None <-> forall p, Py.match_here (skipn p line) = None.
Proof.
  induction line as [|c line IH]; cbn [Py.search].
  - split; [intros _ p; rewrite skipn_nil; reflexivity|].
    intros H. specialize (H 0%nat). cbn [skipn] in H. rewrite H. reflexivity.
  - destruct (Py.match_here (c :: line)) as [g|] eqn:E.
    + split; [discriminate|]. intros H. specialize (H 0%nat).
      cbn [skipn] in H. congruence.
    + rewrite IH. split.
      * intros H [|p]; [exact E | exact (H p)].
      * intros H p. exact (H (S p)).
Qed.

(** The search returns the groups of the first position where the pattern
    matches. *)
Lemma search_some (line : Py.str) (g : Py.str * Py.str * Py.str) :
  Py.search line = Some g <->
  exists p, Py.match_here (skipn p line) = Some g /\
            forall q, (q < p)%nat -> Py.match_here (skipn q line) = None.
Proof.
  induction line as [|c line IH]; cbn [Py.search].
  - split; [discriminate|]. intros [p [H _]]. rewrite skipn_nil in H.
    discriminate H.
  - destruct (Py.match_here (c :: line)) as [g0|] eqn:E.
    + split.
      * intros H. injection H as ->. exists 0%nat. split; [exact E|].
        intros q Hq. lia.
      * intros [[|p] [H Hmin]]; [cbn [skipn] in H; congruence|].
        specialize (Hmin 0%nat ltac:(lia)). cbn [skipn] in Hmin. congruence.
    + rewrite IH. split.
      * intros [p [H Hmin]]. exists (S p). split; [exact H|].
        intros [|q] Hq; [exact E | apply Hmin; lia].
      * intros [[|p] [H Hmin]]; [cbn [skipn] in H; congruence|].
        exists p. split; [exact H|]. intros q Hq. apply (Hmin (S q)). lia.
Qed.

Lemma skipn_prefix {A : Type} (pre rest : list A) :
  skipn (List.length pre) (pre ++ rest)%list = rest.
Proof. induction pre as [|x pre IH]; cbn [List.length app skipn]; auto. Qed.

(** The groups the search returns are those of the leftmost marker. *)
Lemma search_leftmost (line pre h m a : Py.str) (b : option Py.str)
      (post : Py.str) :
  leftmost_marker line pre h m a b post ->
  Py.search line = Some (h, m, seconds_text a b).
Proof.
  intros [Hm Hleft]. apply search_some. exists (List.length pre). split.
  - apply (match_here_complete _ h m a b post).
    destruct Hm as [Hl Hr]. split; [|exact Hr].
    rewrite Hl, skipn_prefix. reflexivity.
  - intros q Hq. destruct (Py.match_here (skipn q line)) as [g|] eqn:E;
      [|reflexivity].
    exfalso. apply (Hleft q Hq). apply marker_from_iff. exists g. exact E.
Qed.

(** A line with a marker has a leftmost one, and the search finds it. *)
Lemma leftmost_exists (line : Py.str) :
  has_marker line ->
  exists pre h m a b post, leftmost_marker line pre h m a b post.
Proof.
  intros [p0 Hp0]. apply marker_from_iff in Hp0. destruct Hp0 as [g0 Hg0].
  destruct (Py.search line) as [[[h m] x]|] eqn:Hs.
  - apply search_some in Hs. destruct Hs as [p [Hp Hmin]].
    destruct (match_here_sound _ _ _ _ Hp) as [a [b [post [_ Hm]]]].
    assert (Hlt : (p < List.length line)%nat).
    { destruct (Nat.lt_ge_cases p (List.length line)) as [H|H]; [exact H|].
      rewrite (skipn_all2 line H) in Hp. discriminate Hp. }
    exists (firstn p line), h, m, a, b, post. split.
    + destruct Hm as [Hl Hr]. split; [|exact Hr].
      rewrite <- (firstn_skipn p line) at 1. rewrite Hl. reflexivity.
    + intros q Hq. rewrite firstn_length_le in Hq by lia.
      intros Hc. apply marker_from_iff in Hc. destruct Hc as [g Hg].
      rewrite (Hmin q Hq) in Hg. discriminate Hg.
  - rewrite search_none in Hs. rewrite (Hs p0) in Hg0. discriminate Hg0.
Qed.

Lemma int_of_str_digits (s : Py.str) :
  digits1 s ->
  Py.int_of_str s
  = if (Py.INT_MAX_STR_DIGITS <? List.length s)%nat then Py.Raise "ValueError"
    else Py.Ret (Py.digits_val 0 s).
Proof.
  intros [Hne Hd]. unfold Py.int_of_str.
  destruct s as [|c s]; [contradiction Hne; reflexivity|].
  rewrite Hd. reflexivity.
Qed.

(** [float] accepts every seconds group the pattern captures, and reads
    the digits before and after the point as one decimal number. *)
Lemma float_of_str_seconds (a : Py.str) (b : option Py.str) :
  digits1 a -> Py.all_digits (fraction b) = true ->
  Py.float_of_str (seconds_text a b) = Py.Ret (seconds_value a b).
Proof.
  intros [Hne Ha] Hb. unfold Py.float_of_str, seconds_value.
  destruct (split_point_digits a Ha) as [H1 H2].
  destruct b as [f|]; cbn [seconds_text fraction] in *.
  - rewrite H2. destruct a as [|c a]; [contradiction Hne; reflexivity|].
    rewrite Ha, Hb. reflexivity.
  - rewrite H1. destruct a as [|c a]; [contradiction Hne; reflexivity|].
    rewrite Ha, app_nil_r. reflexivity.
Qed.

Lemma no_match_before_spec (line : Py.str) (n : nat) :
  no_match_before line n = true ->
  forall p, (p < n)%nat -> ~ marker_from line p.
Proof.
  unfold no_match_before. rewrite forallb_forall. intros H p Hp Hm.
  apply marker_from_iff in Hm. destruct Hm as [g Hg].
  specialize (H p). rewrite Hg in H.
  assert (Hin : In p (seq 0 n)) by (apply in_seq; lia).
  specialize (H Hin). discriminate H.
Qed.

(** C8, as the code has it. A line without a marker gives [None]. On a
    line with a marker the pattern takes the leftmost one, with the
    seconds group as long as it can be, and the parser returns the double
    [float(h*3600 + m*60) + float(s)], the seconds read with their
    fraction, unless it raises: ValueError when the hours or the minutes
    have more than 4300 digits, OverflowError when [h*3600 + m*60] is
    beyond the range of a double. Every line with a marker has a leftmost
    one. *)
Theorem C8_parse_leftmost_marker :
  forall line : Py.str,
    (~ has_marker line -> Py.parse_ffmpeg_time line = Py.Ret None) /\
    (forall pre h m a b post,
        leftmost_marker line pre h m a b post ->
        Py.parse_ffmpeg_time line = marker_value h m a b) /\
    (has_marker line ->
     exists pre h m a b post, leftmost_marker line pre h m a b post).
Proof.
  intros line. split; [|split].
  - intros Hno. unfold Py.parse_ffmpeg_time.
    destruct (Py.search line) as [g|] eqn:E; [|reflexivity].
    exfalso. apply Hno. apply search_some in E. destruct E as [p [Hp _]].
    exists p. apply marker_from_iff. exists g. exact Hp.
  - intros pre h m a b post Hl.
    pose proof (search_leftmost _ _ _ _ _ _ _ Hl) as Hs.
    destruct Hl as [[_ [Dh [Dm [Da [Df _]]]]] _].
    unfold Py.parse_ffmpeg_time, marker_value. rewrite Hs.
    rewrite (int_of_str_digits h Dh), (int_of_str_digits m Dm).
    rewrite (float_of_str_seconds a b Da Df).
    destruct (Py.INT_MAX_STR_DIGITS <? List.length h)%nat; [reflexivity|].
    destruct (Py.INT_MAX_STR_DIGITS <? List.length m)%nat; [reflexivity|].
    cbn [orb Py.bind]. unfold Py.float_of_int. fold (whole_seconds h m).
    assert (H0 : (0 <= whole_seconds h m)%Z).
    { unfold whole_seconds.
      pose proof (digits_val_nonneg h 0 (Z.le_refl 0)).
      pose proof (digits_val_nonneg m 0 (Z.le_refl 0)). lia. }
    rewrite Z.abs_eq by exact H0.
    destruct (Py.DBL_OVERFLOW <=? whole_seconds h m)%Z eqn:Ho.
    + apply Z.leb_le in Ho.
      replace (whole_seconds h m <? Py.DBL_OVERFLOW)%Z with false
        by (symmetry; apply Z.ltb_ge; exact Ho).
      reflexivity.
    + apply Z.leb_gt in Ho.
      replace (whole_seconds h m <? Py.DBL_OVERFLOW)%Z with true
        by (symmetry; apply Z.ltb_lt; exact Ho).
      reflexivity.
  - apply leftmost_exists.
Qed.

(** One minute and half a second: 60.5. *)
Lemma C8_parse_leftmost_marker_witness :
  Py.parse_ffmpeg_time progress_line
  = Py.Ret (Some (Py.fadd (Py.float_of_Z 60) (Py.float_of_ratio 50 100))).
Proof.
  destruct (C8_parse_leftmost_marker progress_line) as [_ [H _]].
  rewrite (H (Py.of_string "frame= 1500 fps=25 q=-1.0 size=    1024kB ")
             (Py.of_string "00") (Py.of_string "01") (Py.of_string "00")
             (Some (Py.of_string "50"))
             (Py.of_string " bitrate= 134.2kbits/s")).
  - reflexivity.
  - split.
    + unfold marker_at.
      split; [reflexivity|]. repeat split; try discriminate; reflexivity.
    + apply no_match_before_spec. vm_compute. reflexivity.
Defined.

(** C8 as stated fails: on a line whose hours field has 401 digits the
    parser raises OverflowError, and on one whose hours field is 4301
    zeros it raises ValueError. *)
Lemma C8_huge_hours_raise :
  Py.parse_ffmpeg_time huge_line = Py.Raise "OverflowError" /\
  Py.parse_ffmpeg_time long_line = Py.Raise "ValueError" /\
  ~ (forall line, exists r, Py.parse_ffmpeg_time line = Py.Ret r).
Proof.
  assert (H : Py.parse_ffmpeg_time huge_line = Py.Raise "OverflowError")
    by (vm_compute; reflexivity).
  split; [exact H|]. split; [vm_compute; reflexivity|].
  intros Hall. destruct (Hall huge_line) as [r Hr].
  rewrite H in Hr. discriminate.
Qed.

(** The digits of every script are read: 12:34:56 in Arabic-Indic digits
    is 45296 seconds. *)
Example arabic_digits_parse :
  Py.parse_ffmpeg_time arabic_line = Py.Ret (Some (Py.float_of_Z 45296)).
Proof. vm_compute. reflexivity. Qed.

(** * Destination names *)

Lemma str_app_inv_head (p a b : string) : p ++ a = p ++ b -> a = b.
Proof.
  induction p as [|c p IH]; simpl; intros H; [exact H|].
  injection H as H. exact (IH H).
Qed.

Lemma str_app_inv_tail (t a : string) : forall b, a ++ t = b ++ t -> a = b.
Proof.
  induction a as [|c a IH]; intros [|d b] H; simpl in H.
  - reflexivity.
  - exfalso. apply (f_equal String.length) in H. simpl in H.
    rewrite str_app_length in H. lia.
  - exfalso. apply (f_equal String.length) in H. simpl in H.
    rewrite str_app_length in H. lia.
  - injection H as Hc H. subst d. f_equal. exact (IH _ H).
Qed.

Lemma str_of_nat_inj (a b : nat) : PyStr.str_of_nat a = PyStr.str_of_nat b -> a = b.
Proof.
  unfold PyStr.str_of_nat. intros H.
  apply (f_equal NilEmpty.uint_of_string) in H. rewrite !NilEmpty.usu in H.
  injection H as H. apply (f_equal Nat.of_uint) in H.
  rewrite !DecimalNat.Unsigned.of_to in H. exact H.
Qed.

(** Different counters give different candidate paths. *)
Lemma candidate_inj (base : SubsChat.Path) (a b : nat) :
  SubsChat.render (SubsChat.candidate base a)
  = SubsChat.render (SubsChat.candidate base b) -> a = b.
Proof.
  unfold SubsChat.render, SubsChat.candidate.
  destruct (SubsChat.stem_suffix (SubsChat.name base)) as [stem suffix].
  cbn [SubsChat.parent SubsChat.name]. intros H.
  apply str_app_inv_head in H. apply str_app_inv_head in H.
  apply str_app_inv_head in H. apply str_app_inv_head in H.
  rewrite <- !str_app_assoc in H. apply str_app_inv_tail in H.
  apply str_app_inv_tail in H. apply str_of_nat_inj, H.
Qed.

Lemma mem_In (x : string) (l : list string) : PyStr.mem x l = true <-> In x l.
Proof.
  unfold PyStr.mem. rewrite existsb_exists. split.
  - intros [y [Hy E]]. apply String.eqb_eq in E. subst. exact Hy.
  - intros H. exists x. split; [exact H | apply String.eqb_refl].
Qed.

(** Among more candidates than there are files, one does not exist. *)
Lemma some_candidate_free (fs : SubsChat.FileSystem) (base : SubsChat.Path) :
  exists k, (1 <= k < 1 + S (List.length fs))%nat /\
            SubsChat.exists_ fs (SubsChat.candidate base k) = false.
Proof.
  set (n := S (List.length fs)).
  assert (Hdec : forall l : list nat,
             (forall k, In k l -> SubsChat.exists_ fs (SubsChat.candidate base k) = true)
             \/ exists k, In k l /\
                          SubsChat.exists_ fs (SubsChat.candidate base k) = false).
  { induction l as [|a l [IH|[k [Hk Hf]]]].
    - left. intros k [].
    - destruct (SubsChat.exists_ fs (SubsChat.candidate base a)) eqn:E.
      + left. intros k [Hk|Hk]; [subst; exact E | apply IH, Hk].
      + right. exists a. split; [left; reflexivity | exact E].
    - right. exists k. split; [right; exact Hk | exact Hf]. }
  destruct (Hdec (seq 1 n)) as [Hall|[k [Hk Hf]]].
  - exfalso.
    set (f := fun k => SubsChat.render (SubsChat.candidate base k)).
    assert (Hnd : NoDup (map f (seq 1 n))).
    { apply Injective_map_NoDup; [|apply seq_NoDup].
      intros a b. apply candidate_inj. }
    assert (Hincl : incl (map f (seq 1 n)) fs).
    { intros x Hx. apply in_map_iff in Hx. destruct Hx as [k [E Hk]]. subst x.
      apply mem_In. exact (Hall k Hk). }
    pose proof (NoDup_incl_length Hnd Hincl) as Hlen.
    rewrite length_map, length_seq in Hlen. unfold n in Hlen. lia.
  - exists k. apply in_seq in Hk. split; [lia | exact Hf].
Qed.

(** The loop returns the first candidate that does not exist, when there
    is one within the rounds it is given. *)
Lemma unique_loop_spec (fs : SubsChat.FileSystem) (base : SubsChat.Path) :
  forall fuel i,
    (exists k, (i <= k < i + fuel)%nat /\
               SubsChat.exists_ fs (SubsChat.candidate base k) = false) ->
    exists k, (i <= k < i + fuel)%nat /\
              SubsChat.unique_loop fs base i fuel = Some (SubsChat.candidate base k) /\
              SubsChat.exists_ fs (SubsChat.candidate base k) = false /\
              forall k', (i <= k' < k)%nat ->
                         SubsChat.exists_ fs (SubsChat.candidate base k') = true.
Proof.
  induction fuel as [|fuel IH]; intros i [k [Hk Hf]]; [lia|].
  cbn [SubsChat.unique_loop].
  destruct (SubsChat.exists_ fs (SubsChat.candidate base i)) eqn:E.
  - assert (Hne : k <> i) by (intros ->; congruence).
    destruct (IH (S i)) as [k0 [Hk0 [Hl [Hf0 Hmin]]]];
      [exists k; split; [lia | exact Hf]|].
    exists k0. split; [lia | split; [exact Hl | split; [exact Hf0|]]].
    intros k' Hk'. destruct (Nat.eq_dec k' i) as [->|Hd]; [exact E|].
    apply Hmin. lia.
  - exists i. split; [lia | split; [reflexivity | split; [exact E|]]].
    intros k' Hk'. lia.
Qed.

(** Further rounds do not change the result of the loop. *)
Lemma unique_loop_more_fuel (fs : SubsChat.FileSystem) (base : SubsChat.Path) :
  forall fuel i p extra,
    SubsChat.unique_loop fs base i fuel = Some p ->
    SubsChat.unique_loop fs base i (fuel + extra) = Some p.
Proof.
  induction fuel as [|fuel IH]; intros i p extra H; [discriminate|].
  cbn [SubsChat.unique_loop Nat.add] in *.
  destruct (SubsChat.exists_ fs (SubsChat.candidate base i));
    [apply IH, H | exact H].
Qed.

(** Every output of JobWorker.run is named from the output folder, the
    input stem, the role of the file and the extension. *)
Lemma app2_dest_names (ffmpeg : string) (j : App2.Job) (v : App2.StreamInfo) :
  forall st, In st (fst (App2.build_steps ffmpeg j v)) ->
             exists r, App2.dest st
                       = App2.path_join (App2.out_dir j)
                           (App2.dest_name (stem_of j) r (ext_of j)).
Proof.
  assert (Hsub : forall e st,
             In st (App2.subtitle_steps ffmpeg j (stem_of j)) ->
             exists r, App2.dest st
                       = App2.path_join (App2.out_dir j)
                           (App2.dest_name (stem_of j) r e)).
  { intros e st H. unfold App2.subtitle_steps in H. apply in_map_iff in H.
    destruct H as [[n s] [E _]]. subst st.
    exists (App2.RSubtitle (App2.language s) (n + 1)). reflexivity. }
  unfold App2.build_steps, ext_of. fold (stem_of j).
  destruct (String.eqb (App2.mode j) "extract").
  - destruct (String.eqb (App2.extract_variant j) "sep_tracks");
      [|destruct (String.eqb (App2.extract_variant j) "vid_aud__leg")];
      cbn [fst]; intros st H.
    + destruct H as [H|H]; [subst st; exists App2.RVideo; reflexivity|].
      apply in_app_or in H. destruct H as [H|H]; [|apply Hsub, H].
      apply in_map_iff in H. destruct H as [[n a] [E _]]. subst st.
      exists (App2.RAudio (n + 1)). reflexivity.
    + destruct H as [H|H]; [subst st; exists App2.RUnified; reflexivity|].
      apply Hsub, H.
    + destruct H as [H|[]]. subst st. exists App2.RUnified. reflexivity.
  - cbn [fst]. intros st [H|[]]. subst st. exists App2.RUnified. reflexivity.
Qed.

(** C9: the outputs of JobWorker.run are named by [App2.dest_name], a
    function of the input stem, the role and the extension; unique_path
    returns the path itself when overwriting is allowed or the path is
    free, and otherwise, within one round more than there are files, the
    candidate with the smallest counter from 1 that does not exist, which
    further rounds do not change. *)
Theorem C9_unique_path_smallest_free :
  forall (fs : SubsChat.FileSystem) (base : SubsChat.Path),
    SubsChat.name base <> EmptyString ->
    (forall ffmpeg j v st,
        In st (fst (App2.build_steps ffmpeg j v)) ->
        exists r, App2.dest st
                  = App2.path_join (App2.out_dir j)
                      (App2.dest_name (stem_of j) r (ext_of j))) /\
    (forall overwrite fuel,
        orb overwrite (negb (SubsChat.exists_ fs base)) = true ->
        SubsChat.unique_path fs base overwrite fuel = Some (Py.Ret base)) /\
    (SubsChat.exists_ fs base = true ->
     exists i,
       (1 <= i <= S (List.length fs))%nat /\
       (forall extra,
           SubsChat.unique_path fs base false (S (List.length fs) + extra)
           = Some (Py.Ret (SubsChat.candidate base i))) /\
       SubsChat.exists_ fs (SubsChat.candidate base i) = false /\
       (forall k, (1 <= k < i)%nat ->
                  SubsChat.exists_ fs (SubsChat.candidate base k) = true)).
Proof.
  intros fs base Hname. split; [|split].
  - intros ffmpeg j v. apply app2_dest_names.
  - intros overwrite fuel H. unfold SubsChat.unique_path. rewrite H. reflexivity.
  - intros Hex.
    destruct (unique_loop_spec fs base (S (List.length fs)) 1
                (some_candidate_free fs base)) as [i [Hi [Hl [Hf Hmin]]]].
    exists i. split; [lia | split; [|split; [exact Hf | exact Hmin]]].
    intros extra. unfold SubsChat.unique_path. rewrite Hex. cbn [orb negb].
    destruct (SubsChat.name base) as [|c nm]; [contradiction Hname; reflexivity|].
    rewrite (unique_loop_more_fuel _ _ _ _ _ extra Hl). reflexivity.
Qed.

Lemma C9_unique_path_smallest_free_witness :
  exists i,
    (1 <= i <= 4)%nat /\
    SubsChat.unique_path crowded_dir track_path false 4
    = Some (Py.Ret (SubsChat.candidate track_path i)) /\
    SubsChat.exists_ crowded_dir (SubsChat.candidate track_path i) = false.
Proof.
  destruct (C9_unique_path_smallest_free crowded_dir track_path) as [_ [_ H]].
  - discriminate.
  - destruct (H eq_refl) as [i [Hi [Hu [Hf _]]]].
    exists i. split; [exact Hi | split; [exact (Hu 0%nat) | exact Hf]].
Defined.

Example unique_path_third_run :
  SubsChat.unique_path crowded_dir track_path false 4
  = Some (Py.Ret (SubsChat.mkPath "/out" "movie.track2.eng (2).srt")).
Proof. reflexivity. Qed.

(** * Admission and the free-space check *)

Lemma status_set_message (j : App2.Job) (m : string) :
  App2.status (App2.set_message j m) = App2.status j.
Proof. reflexivity. Qed.

(** The status, the size and the duration add_from_input gives a job. *)
Lemma admit_status (f : string -> Py.result Py.float) (j0 : App2.Job) (env : App2.FileEnv) :
  App2.status (App2.admit_file f j0 env)
  = match App2.probe_streams env with
    | Py.Raise _ => App2.incompatible
    | Py.Ret ss =>
        if existsb (App2.is_type "video")
                   (App2.streams j0 ++ map App2.stream_info ss)
        then match App2.disk_free env with
             | Py.Ret free =>
                 if (free <? App2.getsize env)%Z
                 then App2.incompatible else App2.queued
             | Py.Raise _ => App2.queued
             end
        else App2.incompatible
    end.
Proof.
  unfold App2.admit_file.
  destruct (App2.probe_streams env) as [ss|err].
  - cbn [App2.with_probe App2.streams].
    destruct (existsb (App2.is_type "video")
                      (App2.streams j0 ++ map App2.stream_info ss));
      destruct (App2.disk_free env) as [free|err']; try reflexivity;
      cbn [App2.set_status App2.set_message App2.with_probe App2.filesize];
      destruct (free <? App2.getsize env)%Z; reflexivity.
  - destruct (App2.disk_free env) as [free|err']; [|reflexivity].
    cbn [App2.set_status App2.set_message App2.filesize].
    destruct (free <? App2.filesize j0)%Z; reflexivity.
Qed.

Lemma admit_size_duration (f : string -> Py.result Py.float) (j0 : App2.Job)
      (env : App2.FileEnv) (ss : list App2.Probed) :
  App2.probe_streams env = Py.Ret ss ->
  App2.filesize (App2.admit_file f j0 env) = App2.getsize env /\
  App2.duration (App2.admit_file f j0 env)
  = App2.probe_duration f (App2.duration_out env).
Proof.
  intros Hss. unfold App2.admit_file. rewrite Hss.
  cbn [App2.with_probe App2.streams].
  destruct (existsb (App2.is_type "video")
                    (App2.streams j0 ++ map App2.stream_info ss));
    destruct (App2.disk_free env) as [free|err']; try (split; reflexivity);
    cbn [App2.set_status App2.set_message App2.with_probe App2.filesize];
    destruct (free <? App2.getsize env)%Z; split; reflexivity.
Qed.

(** C10: when the duration probe raises, or prints something [float]
    rejects, probe_duration returns 0; the status add_from_input gives the
    job does not depend on the duration probe at all, it is queued when the
    stream probe succeeds with a video stream and the destination is not
    short of space, and a job comes out incompatible only for a failed
    stream probe, a missing video stream or insufficient space. *)
Theorem C10_failed_duration_probe_still_queued :
  forall (float_of_output : string -> Py.result Py.float) (j0 : App2.Job)
         (env : App2.FileEnv) (e : string),
    Py.bind (App2.duration_out env) float_of_output = Py.Raise e ->
    App2.probe_duration float_of_output (App2.duration_out env) = Py.F0 /\
    (forall ss,
        App2.probe_streams env = Py.Ret ss ->
        existsb (App2.is_type "video")
                (App2.streams j0 ++ map App2.stream_info ss) = true ->
        (forall free, App2.disk_free env = Py.Ret free ->
                      (App2.getsize env <= free)%Z) ->
        App2.status (App2.admit_file float_of_output j0 env) = App2.queued /\
        App2.duration (App2.admit_file float_of_output j0 env) = Py.F0) /\
    (forall float_of_output' out',
        App2.status (App2.admit_file float_of_output' j0 (with_duration_out env out'))
        = App2.status (App2.admit_file float_of_output j0 env)) /\
    (App2.status (App2.admit_file float_of_output j0 env) = App2.incompatible ->
     (exists err, App2.probe_streams env = Py.Raise err) \/
     (exists ss, App2.probe_streams env = Py.Ret ss /\
                 existsb (App2.is_type "video")
                         (App2.streams j0 ++ map App2.stream_info ss) = false) \/
     (exists free, App2.disk_free env = Py.Ret free /\
                   (free < App2.filesize (App2.admit_file float_of_output j0 env))%Z)).
Proof.
  intros f j0 env e Hfail.
  assert (Hd : App2.probe_duration f (App2.duration_out env) = Py.F0).
  { unfold App2.probe_duration. rewrite Hfail. reflexivity. }
  split; [exact Hd | split; [|split]].
  - intros ss Hss Hv Hfree.
    destruct (admit_size_duration f j0 env ss Hss) as [_ Hdur].
    rewrite Hdur, admit_status, Hss, Hv. split; [|exact Hd].
    destruct (App2.disk_free env) as [free|err]; [|reflexivity].
    specialize (Hfree free eq_refl). apply Z.ltb_ge in Hfree.
    rewrite Hfree. reflexivity.
  - intros f' out'. rewrite !admit_status. reflexivity.
  - rewrite admit_status.
    destruct (App2.probe_streams env) as [ss|err] eqn:Hss;
      [|intros _; left; exists err; reflexivity].
    destruct (existsb (App2.is_type "video")
                      (App2.streams j0 ++ map App2.stream_info ss)) eqn:Hv;
      [|intros _; right; left; exists ss; split; [reflexivity | exact Hv]].
    destruct (App2.disk_free env) as [free|err']; [|discriminate].
    destruct (free <? App2.getsize env)%Z eqn:Hf; [|discriminate].
    intros _. right; right. exists free. split; [reflexivity|].
    destruct (admit_size_duration f j0 env ss Hss) as [Hsize _].
    rewrite Hsize. apply Z.ltb_lt, Hf.
Qed.

Lemma C10_failed_duration_probe_still_queued_witness :
  App2.status (App2.admit_file float_or_error (App2.new_job "/in/movie.mkv" "/out")
                               unknown_duration_env) = App2.queued /\
  App2.duration (App2.admit_file float_or_error (App2.new_job "/in/movie.mkv" "/out")
                                 unknown_duration_env) = Py.F0.
Proof.
  destruct (C10_failed_duration_probe_still_queued float_or_error
              (App2.new_job "/in/movie.mkv" "/out") unknown_duration_env
              "ValueError" eq_refl) as [_ [H _]].
  apply (H [App2.mkProbed 0 "video" "h264" None;
            App2.mkProbed 1 "audio" "aac" (Some [("language", "eng")])]).
  - reflexivity.
  - reflexivity.
  - intros free E. injection E as <-. simpl. lia.
Defined.

Lemma scan_changes (js : list App2.Job) :
  forall idx,
    Forall2 (fun j j' => dispatch_change (App2.status j) (App2.status j'))
            js (fst (App2.scan js idx)).
Proof.
  induction js as [|a js IH]; intros idx; cbn [App2.scan]; [constructor|].
  destruct (App2.Status_eqb (App2.status a) App2.queued).
  - cbn [fst]. clear IH. induction (a :: js) as [|b l IHl]; constructor;
      [left; reflexivity | exact IHl].
  - specialize (IH (S idx)). destruct (App2.scan js (S idx)) as [rest n].
    cbn [fst] in *. constructor; [|exact IH].
    destruct (App2.Status_eqb (App2.status a) App2.incompatible) eqn:Ei;
      cbn [andb]; [|left; reflexivity].
    destruct (App2.skip_if_incompatible a); [|left; reflexivity].
    right; left. split; [|reflexivity].
    destruct (App2.status a); try discriminate; reflexivity.
Qed.

Lemma Forall2_list_set {A B : Type} (P : A -> B -> Prop) (l : list A) (l' : list B) :
  Forall2 P l l' ->
  forall i b x, nth_error l' i = Some b ->
                (forall a, P a b -> P a x) ->
                Forall2 P l (App2.list_set i x l').
Proof.
  induction 1 as [|a b0 l l' Hab Hl IH]; intros i b x Hn Hx;
    [destruct i; discriminate Hn|].
  destruct i as [|i]; cbn [App2.list_set nth_error] in *.
  - injection Hn as ->. constructor; [apply Hx, Hab | exact Hl].
  - constructor; [exact Hab | exact (IH _ _ _ Hn Hx)].
Qed.

(** process_next changes the status of a job in two ways only: an
    incompatible job may become skipped and a queued job running. No job
    becomes incompatible at dispatch. *)
Lemma process_next_changes (w : App2.MainWindow) :
  Forall2 (fun j j' => dispatch_change (App2.status j) (App2.status j'))
          (App2.jobs w) (App2.jobs (fst (App2.process_next w))).
Proof.
  unfold App2.process_next.
  destruct (App2.worker_running w).
  - cbn [fst]. induction (App2.jobs w); constructor; [left; reflexivity | assumption].
  - pose proof (scan_changes (App2.jobs w) 0) as Hs.
    destruct (App2.scan (App2.jobs w) 0) as [js [i|]] eqn:Es; cbn [fst] in Hs;
      [|exact Hs].
    destruct (app2_scan_finds_queued _ _ _ _ Es) as [job [Hn [Hq _]]].
    rewrite Nat.sub_0_r in Hn. rewrite Hn, Hq. cbn [App2.Status_eqb andb fst App2.jobs].
    apply (Forall2_list_set _ _ _ Hs i job); [exact Hn|].
    intros a Ha. rewrite Hq in Ha. cbn [App2.set_status App2.status].
    right; right. split; [|reflexivity].
    destruct Ha as [Ha|[[_ Ha]|[_ Ha]]]; try discriminate. symmetry. exact Ha.
Qed.

(** C7 as stated fails: with 10 bytes free in the destination and a file
    of 1000 bytes, process_next of app2.py dispatches the queued job, which
    becomes running; in subsgpt.py the job is dispatched too ("Executando"),
    the worker then gives up before any step and the job ends as failed
    ("Falhou"). In neither script does the job become incompatible. *)
Lemma C7_dispatched_without_space :
  (10 < App2.filesize (video_job "/in/a.mkv"))%Z /\
  snd (App2.process_next one_job_window) = App2.Dispatched 0 /\
  map App2.status (App2.jobs (fst (App2.process_next one_job_window)))
  = [App2.running] /\
  SubsGpt.no_space full_disk = true /\
  snd (SubsGpt._process_next gpt_window) = SubsGpt.Dispatched 0 /\
  SubsGpt.status_cell (fst (SubsGpt._process_next gpt_window)) = ["Executando"] /\
  SubsGpt.run gpt_job 0 gpt_settings full_disk "/out/logs/job_movie.log"
              (fun _ => quiet_proc)
  = [SubsGpt.finished 0 false "/out/logs/job_movie.log"] /\
  SubsGpt.status_cell
    (SubsGpt._on_finished (fst (SubsGpt._process_next gpt_window)) 0 false)
  = ["Falhou"].
Proof. repeat split. Qed.

(** C7, as the code has it: a file larger than the free space of the
    destination is made incompatible when it is added (app2.py);
    process_next does not check the space again, it turns no job
    incompatible and changes a status only from incompatible to skipped or
    from queued to running; the worker of subsgpt.py checks again after the
    dispatch and, short of space, runs no step and reports failure, which
    the window shows as "Falhou". *)
Theorem C7_space_checked_at_admission_and_by_worker :
  forall free size : Z,
    (free < size)%Z ->
    (forall f j0 env ss,
        App2.probe_streams env = Py.Ret ss ->
        App2.disk_free env = Py.Ret free ->
        App2.getsize env = size ->
        App2.status (App2.admit_file f j0 env) = App2.incompatible) /\
    (forall w,
        Forall2 (fun j j' => dispatch_change (App2.status j) (App2.status j'))
                (App2.jobs w) (App2.jobs (fst (App2.process_next w)))) /\
    (forall job row st env logfile procs,
        SubsGpt.disk_free env = Py.Ret free ->
        SubsGpt.getsize env = Py.Ret size ->
        SubsGpt.run job row st env logfile procs
        = [SubsGpt.finished row false logfile]) /\
    (forall w row cell,
        nth_error (SubsGpt.status_cell w) row = Some cell ->
        nth_error (SubsGpt.status_cell (SubsGpt._on_finished w row false)) row
        = Some "Falhou").
Proof.
  intros free size Hlt. split; [|split; [|split]].
  - intros f j0 env ss Hss Hfree Hsize.
    rewrite admit_status, Hss, Hfree, Hsize.
    apply Z.ltb_lt in Hlt. rewrite Hlt.
    destruct (existsb _ _); reflexivity.
  - apply process_next_changes.
  - intros job row st env logfile procs Hfree Hsize.
    unfold SubsGpt.run, SubsGpt.no_space. rewrite Hfree, Hsize.
    apply Z.ltb_lt in Hlt. rewrite Hlt. reflexivity.
  - intros w row cell Hn. unfold SubsGpt._on_finished.
    cbn [SubsGpt.status_cell]. exact (nth_error_list_set _ _ _ _ Hn).
Qed.

Lemma C7_space_checked_at_admission_and_by_worker_witness :
  SubsGpt.run gpt_job 0 gpt_settings full_disk "/out/logs/job_movie.log"
              (fun _ => quiet_proc)
  = [SubsGpt.finished 0 false "/out/logs/job_movie.log"].
Proof.
  destruct (C7_space_checked_at_admission_and_by_worker 10 1000)
    as [_ [_ [H _]]].
  - reflexivity.
  - apply H; reflexivity.
Defined.

(** * At most one running job, as long as rows keep their place *)

Lemma count_cons (st : App2.Status) (a : App2.Job) (l : list App2.Job) :
  App2.count_status st (a :: l) = (hit st a + App2.count_status st l)%nat.
Proof.
  unfold App2.count_status, hit. cbn [filter].
  destruct (App2.Status_eqb (App2.status a) st); reflexivity.
Qed.

Lemma count_app (st : App2.Status) (l l' : list App2.Job) :
  App2.count_status st (l ++ l')
  = (App2.count_status st l + App2.count_status st l')%nat.
Proof.
  induction l as [|a l IH]; [reflexivity|].
  cbn [app]. rewrite !count_cons, IH. lia.
Qed.

Lemma count_list_set (st : App2.Status) (l : list App2.Job) :
  forall i a b, nth_error l i = Some a ->
    (App2.count_status st (App2.list_set i b l) + hit st a
     = App2.count_status st l + hit st b)%nat.
Proof.
  induction l as [|x l IH]; intros [|i] a b H; cbn [nth_error] in H;
    try discriminate; cbn [App2.list_set].
  - injection H as ->. rewrite !count_cons. lia.
  - rewrite !count_cons. specialize (IH i a b H). lia.
Qed.

Lemma count_list_pop (st : App2.Status) (l : list App2.Job) :
  forall i a, nth_error l i = Some a ->
    (App2.count_status st (App2.list_pop i l) + hit st a
     = App2.count_status st l)%nat.
Proof.
  induction l as [|x l IH]; intros [|i] a H; cbn [nth_error] in H;
    try discriminate; cbn [App2.list_pop].
  - injection H as ->. rewrite count_cons. lia.
  - rewrite !count_cons. specialize (IH i a H). lia.
Qed.

Lemma list_pop_out {A : Type} (l : list A) :
  forall i, nth_error l i = None -> App2.list_pop i l = l.
Proof.
  induction l as [|x l IH]; intros [|i] H; cbn [nth_error] in H;
    try discriminate; [reflexivity | reflexivity |].
  cbn [App2.list_pop]. rewrite (IH i H). reflexivity.
Qed.

Lemma nth_error_list_pop_before {A : Type} (l : list A) :
  forall i k, (k < i)%nat -> nth_error (App2.list_pop i l) k = nth_error l k.
Proof.
  induction l as [|x l IH]; intros [|i] [|k] H; try lia; try reflexivity.
  cbn [App2.list_pop nth_error]. apply IH. lia.
Qed.

Lemma count_at_least (st : App2.Status) (l : list App2.Job) :
  forall r j, nth_error l r = Some j -> App2.status j = st ->
              (1 <= App2.count_status st l)%nat.
Proof.
  induction l as [|x l IH]; intros [|r] j H Hs; cbn [nth_error] in H;
    try discriminate; rewrite count_cons.
  - injection H as ->. unfold hit. rewrite Hs.
    destruct st; cbn [App2.Status_eqb]; lia.
  - specialize (IH r j H Hs). lia.
Qed.

Lemma hit_running (j : App2.Job) :
  hit App2.running j = 1%nat <-> App2.status j = App2.running.
Proof.
  unfold hit. destruct (App2.status j); cbn [App2.Status_eqb];
    split; intros H; try reflexivity; discriminate.
Qed.

Lemma hit_not_running (j : App2.Job) :
  App2.status j <> App2.running -> hit App2.running j = 0%nat.
Proof.
  unfold hit. destruct (App2.status j); cbn [App2.Status_eqb]; intros H;
    try reflexivity. contradiction H; reflexivity.
Qed.

Lemma scan_keeps_running (js : list App2.Job) :
  forall idx, App2.count_status App2.running (fst (App2.scan js idx))
              = App2.count_status App2.running js.
Proof.
  induction js as [|a js IH]; intros idx; cbn [App2.scan]; [reflexivity|].
  specialize (IH (S idx)).
  destruct (App2.status a) eqn:Ea; cbn [App2.Status_eqb andb];
    try reflexivity;
    destruct (App2.scan js (S idx)) as [rest n]; cbn [fst] in *;
    try destruct (App2.skip_if_incompatible a);
    rewrite !count_cons, IH; f_equal; unfold hit;
    cbn [App2.set_status App2.status]; rewrite ?Ea; reflexivity.
Qed.

Lemma map_status_list_set (l : list App2.Job) :
  forall i j x, nth_error l i = Some j -> App2.status x = App2.status j ->
                map App2.status (App2.list_set i x l) = map App2.status l.
Proof.
  induction l as [|a l IH]; intros [|i] j x H Hx; cbn [nth_error] in H;
    try discriminate; cbn [App2.list_set map].
  - injection H as ->. rewrite Hx. reflexivity.
  - rewrite (IH i j x H Hx). reflexivity.
Qed.

Lemma count_of_statuses (st : App2.Status) (l l' : list App2.Job) :
  map App2.status l' = map App2.status l ->
  App2.count_status st l' = App2.count_status st l.
Proof.
  revert l'; induction l as [|a l IH]; intros [|b l'] H; try discriminate;
    [reflexivity|].
  cbn [map] in H. injection H as Hb H. rewrite !count_cons, (IH _ H).
  unfold hit. rewrite Hb. reflexivity.
Qed.

Lemma nth_status (l l' : list App2.Job) :
  map App2.status l' = map App2.status l ->
  forall r j, nth_error l r = Some j ->
              exists j', nth_error l' r = Some j' /\ App2.status j' = App2.status j.
Proof.
  revert l'; induction l as [|a l IH]; intros [|b l'] H [|r] j Hn;
    cbn [nth_error] in Hn; try discriminate.
  - injection Hn as ->. cbn [map] in H. injection H as Hb _.
    exists b. split; [reflexivity | exact Hb].
  - cbn [map] in H. injection H as _ H. exact (IH _ H r j Hn).
Qed.

(** Events that only touch a message, a flag or a progress bar. *)
Lemma one_running_same_statuses (w w' : App2.MainWindow) :
  App2.current_worker w' = App2.current_worker w ->
  App2.current_row w' = App2.current_row w ->
  map App2.status (App2.jobs w') = map App2.status (App2.jobs w) ->
  one_running w -> one_running w'.
Proof.
  intros Hw Hr Hm. unfold one_running. rewrite Hw, Hr.
  rewrite (count_of_statuses _ _ _ Hm).
  destruct (App2.current_worker w) as [wk|], (App2.current_row w) as [r|];
    try exact (fun H => H).
  intros [H1 [[j [Hn Hs]] H3]]. split; [exact H1 | split; [|exact H3]].
  destruct (nth_status _ _ Hm r j Hn) as [j' [Hn' Hs']].
  exists j'. split; [exact Hn' | congruence].
Qed.

Lemma one_running_step (w : App2.MainWindow) (e : App2.Event) :
  one_running w -> keeps_row w e -> one_running (App2.step w e).
Proof.
  intros Hinv Hsafe. destruct e as [j | | row | row b | pct | st | ok m];
    cbn [App2.step keeps_row] in *.
  - (* a file is added *)
    unfold one_running in *. cbn [App2.jobs App2.current_worker App2.current_row].
    rewrite count_app, count_cons, (hit_not_running j Hsafe).
    destruct (App2.current_worker w) as [wk|], (App2.current_row w) as [r|];
      try exact Hinv.
    + destruct Hinv as [H1 [[j0 [Hn Hs]] H3]].
      split; [exact H1 | split; [|rewrite H3; reflexivity]].
      exists j0. split; [|exact Hs]. rewrite nth_error_app1; [exact Hn|].
      apply nth_error_Some. rewrite Hn. discriminate.
    + rewrite Hinv. reflexivity.
  - (* process_next *)
    unfold App2.process_next.
    destruct (App2.worker_running w) eqn:Hrun; [exact Hinv|].
    unfold one_running, App2.worker_running in Hinv, Hrun.
    destruct (App2.current_worker w) as [wk|] eqn:Hw.
    { destruct (App2.current_row w); [|contradiction].
      destruct Hinv as [H1 _]. congruence. }
    destruct (App2.current_row w) as [r|] eqn:Hr; [contradiction|].
    pose proof (scan_keeps_running (App2.jobs w) 0) as Hc.
    destruct (App2.scan (App2.jobs w) 0) as [js [i|]] eqn:Es; cbn [fst] in Hc.
    + destruct (app2_scan_finds_queued _ _ _ _ Es) as [job [Hn [Hq _]]].
      rewrite Nat.sub_0_r in Hn. rewrite Hn, Hq.
      cbn [App2.Status_eqb andb fst]. unfold one_running.
      cbn [App2.jobs App2.current_worker App2.current_row App2.isRunning].
      split; [reflexivity | split].
      * exists (App2.set_status job App2.running).
        split; [exact (nth_error_list_set _ _ _ _ Hn) | reflexivity].
      * pose proof (count_list_set App2.running js i job
                      (App2.set_status job App2.running) Hn) as Hset.
        rewrite (hit_not_running job) in Hset by (rewrite Hq; discriminate).
        replace (hit App2.running (App2.set_status job App2.running))
          with 1%nat in Hset by reflexivity.
        lia.
    + cbn [fst]. unfold one_running.
      cbn [App2.jobs App2.current_worker App2.current_row].
      rewrite ?Hw, ?Hr. lia.
  - (* a row is removed *)
    unfold App2._remove_row.
    destruct (andb _ (App2.worker_running w)) eqn:Hg; [exact Hinv|].
    unfold one_running in *.
    cbn [App2.jobs App2.current_worker App2.current_row].
    destruct (nth_error (App2.jobs w) row) as [a|] eqn:Hrow;
      [|rewrite (list_pop_out _ _ Hrow); exact Hinv].
    pose proof (count_list_pop App2.running (App2.jobs w) row a Hrow) as Hpop.
    destruct (App2.current_worker w) as [wk|] eqn:Hw,
             (App2.current_row w) as [r|] eqn:Hr; try exact Hinv.
    + destruct Hinv as [H1 [[j0 [Hn Hs]] H3]].
      assert (Hlt : (r < row)%nat).
      { unfold App2.worker_running in Hg. rewrite Hw, H1, andb_true_r in Hg.
        apply Nat.eqb_neq in Hg. lia. }
      assert (Hn' : nth_error (App2.list_pop row (App2.jobs w)) r = Some j0).
      { rewrite nth_error_list_pop_before; [exact Hn | exact Hlt]. }
      pose proof (count_at_least App2.running _ r j0 Hn' Hs) as Hge.
      split; [exact H1 | split; [exists j0; split; assumption | lia]].
    + lia.
  - (* the skip flag of a row *)
    unfold App2._set_skip_flag.
    destruct (nth_error (App2.jobs w) row) as [j1|] eqn:Hn; [|exact Hinv].
    apply (one_running_same_statuses w); try reflexivity; [|exact Hinv].
    cbn [App2.jobs]. apply (map_status_list_set _ _ j1); [exact Hn | reflexivity].
  - (* progress *)
    destruct (App2.current_worker w) eqn:Hw; [|exact Hinv].
    unfold App2._on_progress. destruct (App2.current_row w) eqn:Hr; [|exact Hinv].
    apply (one_running_same_statuses w); cbn [App2.current_worker App2.current_row
      App2.jobs]; try reflexivity; try (symmetry; assumption). exact Hinv.
  - (* status_changed *)
    destruct (App2.current_worker w) eqn:Hw; [|exact Hinv].
    unfold App2._on_status. destruct (App2.current_row w) as [r|] eqn:Hr; [|exact Hinv].
    destruct (nth_error (App2.jobs w) r) as [j1|] eqn:Hn; [|exact Hinv].
    apply (one_running_same_statuses w); cbn [App2.current_worker App2.current_row
      App2.jobs]; try reflexivity; try (symmetry; assumption); [|exact Hinv].
    apply (map_status_list_set _ _ j1); [exact Hn | reflexivity].
  - (* finished *)
    destruct (App2.current_worker w) as [wk|] eqn:Hw; [|exact Hinv].
    unfold one_running in Hinv. rewrite Hw in Hinv.
    destruct (App2.current_row w) as [r|] eqn:Hr; [|contradiction].
    destruct Hinv as [H1 [[j0 [Hn Hs]] H3]].
    unfold App2._on_finished. rewrite Hr, Hn. unfold one_running.
    cbn [App2.jobs App2.current_worker App2.current_row].
    pose proof (count_list_set App2.running (App2.jobs w) r j0
                  (App2.set_message
                     (App2.set_status j0 (if ok then App2.done else App2.error)) m)
                  Hn) as Hset.
    rewrite (proj2 (hit_running j0) Hs) in Hset.
    replace (hit App2.running
               (App2.set_message
                  (App2.set_status j0 (if ok then App2.done else App2.error)) m))
      with 0%nat in Hset by (destruct ok; reflexivity).
    lia.
Qed.

(** X11. What holds of the queue of app2.py: as long as no row above the running
    job is removed, at most one job has the status running, and it is the
    job of the current worker. *)
Lemma one_running_while_rows_kept (w : App2.MainWindow) :
  row_kept w ->
  one_running w /\ (App2.count_status App2.running (App2.jobs w) <= 1)%nat.
Proof.
  intros H.
  assert (Hinv : one_running w).
  { induction H as [|w e _ IH Hsafe]; [reflexivity|].
    exact (one_running_step w e IH Hsafe). }
  split; [exact Hinv|]. unfold one_running in Hinv.
  destruct (App2.current_worker w), (App2.current_row w);
    try contradiction; [destruct Hinv as [_ [_ Hc]]|]; lia.
Qed.

(** * The end of a run in subsgpt.py *)

(** C3, subsgpt.py: the last step of the job, the extraction of its
    subtitle, exits with code 1; FFmpegWorker.run notes the failure in the
    log, goes on, and reports 100 and success. *)
Theorem C3_subsgpt_full_after_failed_step :
  SubsGpt.returncode (subtitle_fails 1) = 1%Z /\
  SubsGpt.run gpt_sub_job 0 gpt_settings roomy_disk "/out/logs/job_movie.log"
              subtitle_fails
  = [SubsGpt.Spawn ["ffmpeg"; "-hide_banner"; "-loglevel"; "info"; "-y"; "-i";
                    "/in/movie.mkv"; "-map"; "0:v:0"; "-map"; "0:a?";
                    "-c"; "copy"; "/out/movie.mp4"];
     SubsGpt.Spawn ["ffmpeg"; "-hide_banner"; "-loglevel"; "info"; "-y"; "-i";
                    "/in/movie.mkv"; "-map"; "0:2"; "-c:s"; "srt";
                    "/out/movie.eng.srt"];
     SubsGpt.progress 0 100 "Concluído (extract)";
     SubsGpt.finished 0 true "/out/logs/job_movie.log"].
Proof. split; reflexivity. Qed.

(** In the extract mode of subsgpt.py the outcome of the subtitle steps
    does not matter: once the remux step has succeeded, and as long as no
    line makes the parser raise, the run ends with 100 and success. *)
Lemma subsgpt_subtitles_tolerated :
  forall row st infile basename d procs subs k sidx,
    (forall i, SubsGpt.output (procs i) = []) ->
    snd (SubsGpt.extract_subs row st infile basename d procs k sidx subs)
    = Py.Ret tt.
Proof.
  intros row st infile basename d procs subs.
  induction subs as [|s subs IH]; intros k sidx Hout; [reflexivity|].
  cbn [SubsGpt.extract_subs].
  destruct (SubsGpt.matched (SubsGpt.langs st) s); [|apply IH, Hout].
  unfold SubsGpt._run_cmd_with_logging. rewrite Hout.
  destruct (SubsGpt.found (procs k)); cbn [SubsGpt.log_lines];
    specialize (IH (S k) (S sidx) Hout);
    destruct (SubsGpt.extract_subs row st infile basename d procs (S k)
                                   (S sidx) subs) as [acts r];
    exact IH.
Qed.

(** * More on the queue of app2.py *)

Lemma status_eqb_eq (a b : App2.Status) : App2.Status_eqb a b = true <-> a = b.
Proof. destruct a, b; cbn [App2.Status_eqb]; split; intros H; congruence. Qed.

(** What the scan of process_next finds: the first queued job, left as it
    is, with no queued job before it; or no queued job at all. *)
Lemma scan_spec (js : list App2.Job) :
  forall idx js' r,
    App2.scan js idx = (js', r) ->
    match r with
    | Some i =>
        (idx <= i)%nat /\
        (exists j, nth_error js (i - idx) = Some j /\
                   App2.status j = App2.queued /\
                   nth_error js' (i - idx) = Some j) /\
        (forall k j, (k < i - idx)%nat -> nth_error js k = Some j ->
                     App2.status j <> App2.queued)
    | None => Forall (fun j => App2.status j <> App2.queued) js
    end.
Proof.
  induction js as [|a js IH]; intros idx js' r H; cbn [App2.scan] in H.
  - injection H as <- <-. constructor.
  - destruct (App2.Status_eqb (App2.status a) App2.queued) eqn:Hq.
    + injection H as <- <-. rewrite Nat.sub_diag.
      split; [lia | split].
      * exists a. apply status_eqb_eq in Hq. repeat split; assumption || reflexivity.
      * intros k j Hk. lia.
    + destruct (App2.scan js (S idx)) as [rest n] eqn:Hs.
      injection H as <- <-. specialize (IH _ _ _ Hs).
      assert (Ha : App2.status a <> App2.queued).
      { intros E. apply status_eqb_eq in E. congruence. }
      destruct n as [i|].
      * destruct IH as [Hle [[j [Hn [Hj Hn']]] Hbefore]].
        replace (i - idx)%nat with (S (i - S idx)) by lia.
        split; [lia | split].
        -- exists j. repeat split; assumption.
        -- intros [|k] j0 Hk Hn0; cbn [nth_error] in Hn0.
           ++ injection Hn0 as <-. exact Ha.
           ++ apply (Hbefore k j0); [lia | exact Hn0].
      * constructor; assumption.
Qed.

Lemma scan_keeps_queued (js : list App2.Job) :
  forall idx, App2.count_status App2.queued (fst (App2.scan js idx))
              = App2.count_status App2.queued js.
Proof.
  induction js as [|a js IH]; intros idx; cbn [App2.scan]; [reflexivity|].
  specialize (IH (S idx)).
  destruct (App2.status a) eqn:Ea; cbn [App2.Status_eqb andb];
    try reflexivity;
    destruct (App2.scan js (S idx)) as [rest n]; cbn [fst] in *;
    try destruct (App2.skip_if_incompatible a);
    rewrite !count_cons, IH; f_equal; unfold hit;
    cbn [App2.set_status App2.status]; rewrite ?Ea; reflexivity.
Qed.

Lemma count_zero_iff (st : App2.Status) (l : list App2.Job) :
  App2.count_status st l = 0%nat <-> Forall (fun j => App2.status j <> st) l.
Proof.
  induction l as [|a l IH]; [split; [constructor | reflexivity]|].
  rewrite count_cons. unfold hit.
  destruct (App2.Status_eqb (App2.status a) st) eqn:E; split; intros H.
  - discriminate.
  - inversion H as [|? ? Ha _]. apply status_eqb_eq in E. contradiction.
  - constructor; [|apply IH; exact H].
    intros E'. apply status_eqb_eq in E'. congruence.
  - inversion H. apply IH. assumption.
Qed.

(** X1. The job process_next dispatches is the first queued job of the list,
    in the order of insertion: it was queued, no job before it was, it is
    running afterwards and its row is the current row. *)
Theorem X_app2_dispatches_first_queued :
  forall (w : App2.MainWindow) (i : nat),
    snd (App2.process_next w) = App2.Dispatched i ->
    (exists j, nth_error (App2.jobs w) i = Some j /\ App2.status j = App2.queued) /\
    (forall k j, (k < i)%nat -> nth_error (App2.jobs w) k = Some j ->
                 App2.status j <> App2.queued) /\
    option_map App2.status (nth_error (App2.jobs (fst (App2.process_next w))) i)
    = Some App2.running /\
    App2.current_row (fst (App2.process_next w)) = Some i.
Proof.
  intros w i. unfold App2.process_next.
  destruct (App2.worker_running w); [discriminate|].
  destruct (App2.scan (App2.jobs w) 0) as [js [n|]] eqn:Hs; [|discriminate].
  pose proof (scan_spec _ _ _ _ Hs) as [_ [[j [Hn [Hq Hn']]] Hbefore]].
  rewrite Nat.sub_0_r in *. rewrite Hn', Hq. cbn [App2.Status_eqb andb snd fst].
  intros E. injection E as <-.
  split; [exists j; split; assumption | split; [exact Hbefore | split]].
  - cbn [App2.jobs]. rewrite (nth_error_list_set _ _ _ _ Hn'). reflexivity.
  - reflexivity.
Qed.

Lemma X_app2_dispatches_first_queued_witness :
  option_map App2.status
    (nth_error (App2.jobs (fst (App2.process_next mixed_window))) 2)
  = Some App2.running.
Proof.
  destruct (X_app2_dispatches_first_queued mixed_window 2 eq_refl)
    as [_ [_ [H _]]].
  exact H.
Defined.

(** X2. With no worker running, process_next finds the queue finished exactly
    when no job is queued; otherwise it dispatches, and each dispatch
    takes one job out of the queued ones. *)
Theorem X_app2_queue_finished_iff_none_queued :
  forall w : App2.MainWindow,
    App2.worker_running w = false ->
    (snd (App2.process_next w) = App2.QueueFinished <->
     App2.count_status App2.queued (App2.jobs w) = 0%nat) /\
    (forall i, snd (App2.process_next w) = App2.Dispatched i ->
               S (App2.count_status App2.queued
                    (App2.jobs (fst (App2.process_next w))))
               = App2.count_status App2.queued (App2.jobs w)).
Proof.
  intros w Hrun. unfold App2.process_next. rewrite Hrun.
  pose proof (scan_keeps_queued (App2.jobs w) 0) as Hc.
  destruct (App2.scan (App2.jobs w) 0) as [js [n|]] eqn:Hs; cbn [fst] in Hc.
  - pose proof (scan_spec _ _ _ _ Hs) as [_ [[j [Hn [Hq Hn']]] _]].
    rewrite Nat.sub_0_r in *. rewrite Hn', Hq. cbn [App2.Status_eqb andb snd fst].
    pose proof (count_at_least App2.queued _ _ _ Hn Hq) as Hge.
    split; [split; [discriminate | lia]|].
    intros i _. cbn [App2.jobs].
    pose proof (count_list_set App2.queued js n j
                  (App2.set_status j App2.running) Hn') as Hset.
    replace (hit App2.queued j) with 1%nat in Hset
      by (unfold hit; rewrite Hq; reflexivity).
    replace (hit App2.queued (App2.set_status j App2.running)) with 0%nat in Hset
      by reflexivity.
    lia.
  - pose proof (scan_spec _ _ _ _ Hs) as Hnone. cbn [snd fst].
    split; [|discriminate].
    split; [intros _; apply count_zero_iff, Hnone | reflexivity].
Qed.

Lemma X_app2_queue_finished_iff_none_queued_witness :
  S (App2.count_status App2.queued
       (App2.jobs (fst (App2.process_next mixed_window)))) = 2%nat.
Proof.
  destruct (X_app2_queue_finished_iff_none_queued mixed_window eq_refl)
    as [_ H].
  exact (H 2%nat eq_refl).
Defined.

(** The two ways a call of process_next can go when no worker runs. *)
Lemma process_next_cases (w : App2.MainWindow) :
  App2.worker_running w = false ->
  let js := fst (App2.scan (App2.jobs w) 0) in
  App2.count_status App2.queued js = App2.count_status App2.queued (App2.jobs w) /\
  ((exists i j,
       App2.process_next w
       = (App2.mkWindow (App2.list_set i (App2.set_status j App2.running) js)
                        (App2.pbar w) (Some (App2.mkWorker true)) (Some i),
          App2.Dispatched i) /\
       nth_error js i = Some j /\ App2.status j = App2.queued) \/
   (App2.process_next w
    = (App2.mkWindow js (App2.pbar w) (App2.current_worker w) (App2.current_row w),
       App2.QueueFinished) /\
    App2.count_status App2.queued (App2.jobs w) = 0%nat)).
Proof.
  intros Hrun. cbv zeta. unfold App2.process_next. rewrite Hrun.
  pose proof (scan_keeps_queued (App2.jobs w) 0) as Hc.
  destruct (App2.scan (App2.jobs w) 0) as [js [n|]] eqn:Hs; cbn [fst] in *.
  - pose proof (scan_spec _ _ _ _ Hs) as [_ [[j [Hn [Hq Hn']]] _]].
    rewrite Nat.sub_0_r in *. rewrite Hn', Hq. cbn [App2.Status_eqb andb].
    split; [exact Hc|]. left. exists n, j.
    split; [reflexivity | split; assumption].
  - pose proof (scan_spec _ _ _ _ Hs) as Hnone.
    split; [exact Hc|]. right. split; [reflexivity|].
    apply count_zero_iff, Hnone.
Qed.

Lemma turn_progress (w : App2.MainWindow) (ok : bool) :
  one_running w -> App2.current_worker w = None ->
  one_running (turn w ok) /\
  App2.current_worker (turn w ok) = None /\
  App2.count_status App2.queued (App2.jobs (turn w ok))
  = Nat.pred (App2.count_status App2.queued (App2.jobs w)).
Proof.
  intros Hinv Hw.
  assert (Hrun : App2.worker_running w = false)
    by (unfold App2.worker_running; rewrite Hw; reflexivity).
  pose proof (one_running_step w App2.EStart Hinv I) as Hinv1.
  cbn [App2.step] in Hinv1.
  destruct (process_next_cases w Hrun) as [Hc [[i [j [Hp [Hn Hq]]]]|[Hp Hz]]];
    unfold turn; rewrite Hp in *; cbn [fst] in Hinv1.
  - (* a job is dispatched and ends *)
    pose proof (one_running_step _ (App2.EFinished ok "fim") Hinv1 I) as Hinv2.
    cbn [App2.step App2.current_worker] in Hinv2.
    split; [exact Hinv2|].
    unfold App2._on_finished. cbn [App2.current_row App2.jobs App2.pbar].
    rewrite (nth_error_list_set _ _ _ _ Hn).
    cbn [App2.current_worker App2.jobs]. split; [reflexivity|].
    pose proof (count_list_set App2.queued
                  (fst (App2.scan (App2.jobs w) 0)) i j
                  (App2.set_status j App2.running) Hn) as H1.
    pose proof (count_list_set App2.queued
                  (App2.list_set i (App2.set_status j App2.running)
                     (fst (App2.scan (App2.jobs w) 0))) i
                  (App2.set_status j App2.running)
                  (App2.set_message
                     (App2.set_status (App2.set_status j App2.running)
                        (if ok then App2.done else App2.error)) "fim")
                  (nth_error_list_set _ _ _ _ Hn)) as H2.
    replace (hit App2.queued j) with 1%nat in H1
      by (unfold hit; rewrite Hq; reflexivity).
    replace (hit App2.queued (App2.set_status j App2.running)) with 0%nat in H1, H2
      by reflexivity.
    replace (hit App2.queued
               (App2.set_message
                  (App2.set_status (App2.set_status j App2.running)
                     (if ok then App2.done else App2.error)) "fim"))
      with 0%nat in H2 by (destruct ok; reflexivity).
    lia.
  - (* nothing is queued *)
    split; [exact Hinv1|]. cbn [App2.current_worker App2.jobs].
    split; [exact Hw|]. rewrite Hc, Hz. reflexivity.
Qed.

(** X3. The queue drains: from a state with no worker, after as many turns as
    there are queued jobs (each turn dispatching the next queued job and
    handling the end of its worker, whatever its outcome) no job is queued
    or running and no worker is left. *)
Theorem X_app2_queue_drains :
  forall (oks : list bool) (w : App2.MainWindow),
    one_running w ->
    App2.current_worker w = None ->
    (App2.count_status App2.queued (App2.jobs w) <= List.length oks)%nat ->
    App2.count_status App2.queued (App2.jobs (turns w oks)) = 0%nat /\
    App2.count_status App2.running (App2.jobs (turns w oks)) = 0%nat /\
    App2.current_worker (turns w oks) = None.
Proof.
  induction oks as [|ok oks IH]; intros w Hinv Hw Hlen; cbn [List.length] in Hlen.
  - cbn [turns fold_left]. split; [lia | split; [|exact Hw]].
    unfold one_running in Hinv. rewrite Hw in Hinv.
    destruct (App2.current_row w); [contradiction | exact Hinv].
  - destruct (turn_progress w ok Hinv Hw) as [Hinv1 [Hw1 Hc1]].
    unfold turns. cbn [fold_left]. apply IH; [exact Hinv1 | exact Hw1 | lia].
Qed.

Lemma X_app2_queue_drains_witness :
  App2.count_status App2.queued (App2.jobs (turns mixed_window [true; false])) = 0%nat.
Proof.
  destruct (X_app2_queue_drains [true; false] mixed_window) as [H _].
  - reflexivity.
  - reflexivity.
  - vm_compute. lia.
  - exact H.
Defined.

Example mixed_window_drained :
  map App2.status (App2.jobs (turns mixed_window [true; false]))
  = [App2.done; App2.skipped; App2.done; App2.error].
Proof. reflexivity. Qed.

(** * More on the workers *)

(** X4. JobWorker.run of app2.py always ends by emitting [finished], once, as
    its last signal: the terminal notification of a job comes last. *)
Theorem X_app2_run_ends_with_one_finished :
  forall (ffmpeg : string) (probe : Py.float) (procs : nat -> App2.Proc) (j : App2.Job),
  exists pre ok m,
    App2.run ffmpeg probe procs j = (pre ++ [App2.finished ok m])%list /\
    Forall (fun s => App2.is_finished s = false) pre.
Proof.
  intros ffmpeg probe procs j.
  destruct (run_shape ffmpeg probe procs j) as [pre [ok [m [He [Hp _]]]]].
  exists pre, ok, m. split; assumption.
Qed.

Lemma enumerate_from_length {A : Type} (l : list A) :
  forall k, List.length (App2.enumerate_from k l) = List.length l.
Proof. induction l as [|x l IH]; intros k; simpl; [reflexivity | rewrite IH; reflexivity]. Qed.

(** X5. The number of steps of a job in app2.py: separate tracks take one step
    for the video, one for each audio stream and one for each matched
    subtitle; the remux with separate subtitles takes one step and one for
    each matched subtitle; the unified remux and the re-encoding take one
    step. *)
Theorem X_app2_step_count :
  forall (ffmpeg : string) (j : App2.Job) (v : App2.StreamInfo),
    List.length (fst (App2.build_steps ffmpeg j v))
    = if String.eqb (App2.mode j) "extract" then
        if String.eqb (App2.extract_variant j) "sep_tracks"
        then (1 + List.length (App2.audio_streams j)
                + List.length (App2.matched_subtitles j))%nat
        else if String.eqb (App2.extract_variant j) "vid_aud__leg"
        then (1 + List.length (App2.matched_subtitles j))%nat
        else 1%nat
      else 1%nat.
Proof.
  intros ffmpeg j v. unfold App2.build_steps, App2.subtitle_steps.
  destruct (String.eqb (App2.mode j) "extract"); [|reflexivity].
  destruct (String.eqb (App2.extract_variant j) "sep_tracks").
  - cbn [fst List.length]. rewrite length_app, !length_map, !enumerate_from_length.
    lia.
  - destruct (String.eqb (App2.extract_variant j) "vid_aud__leg"); [|reflexivity].
    cbn [fst List.length]. rewrite length_map, enumerate_from_length. reflexivity.
Qed.

(** X6. Every argument vector of app2.py starts with the tool, the overwrite
    flag and the input file, and ends with the destination of its step. *)
Theorem X_app2_args_shape :
  forall (ffmpeg : string) (j : App2.Job) (v : App2.StreamInfo) (st : App2.Step),
    In st (fst (App2.build_steps ffmpeg j v)) ->
    exists mid,
      App2.args st
      = ([ffmpeg; "-y"; "-i"; App2.input_path j] ++ mid ++ [App2.dest st])%list.
Proof.
  intros ffmpeg j v st.
  assert (Hsub : forall st0,
             In st0 (App2.subtitle_steps ffmpeg j
                       (App2.splitext_root (App2.basename (App2.input_path j)))) ->
             exists mid,
               App2.args st0
               = ([ffmpeg; "-y"; "-i"; App2.input_path j] ++ mid ++ [App2.dest st0])%list).
  { intros st0 H. unfold App2.subtitle_steps in H. apply in_map_iff in H.
    destruct H as [[n s] [E _]]. subst st0.
    exists (App2.map_arg s ++ ["-c:s"; "srt"])%list.
    cbn [App2.subtitle_step App2.args App2.dest].
    rewrite <- !app_assoc. reflexivity. }
  unfold App2.build_steps.
  destruct (String.eqb (App2.mode j) "extract").
  - destruct (String.eqb (App2.extract_variant j) "sep_tracks");
      [|destruct (String.eqb (App2.extract_variant j) "vid_aud__leg")];
      cbn [fst]; intros H.
    + destruct H as [H|H].
      * subst st. exists (App2.map_arg v ++ ["-c"; "copy"])%list.
        cbn [App2.args App2.dest]. rewrite <- !app_assoc. reflexivity.
      * apply in_app_or in H. destruct H as [H|H]; [|apply Hsub, H].
        apply in_map_iff in H. destruct H as [[n a] [E _]]. subst st.
        exists (App2.map_arg a ++ ["-c"; "copy"])%list.
        cbn [App2.audio_step App2.args App2.dest].
        rewrite <- !app_assoc. reflexivity.
    + destruct H as [H|H]; [|apply Hsub, H]. subst st.
      exists (["-c"; "copy"] ++ App2.map_arg v
              ++ flat_map App2.map_arg (App2.audio_streams j))%list.
      cbn [App2.args App2.dest]. rewrite <- !app_assoc. reflexivity.
    + destruct H as [H|[]]. subst st.
      exists (["-c"; "copy"] ++ App2.map_arg v
              ++ flat_map App2.map_arg (App2.audio_streams j)
              ++ flat_map App2.map_arg (App2.matched_subtitles j))%list.
      cbn [App2.args App2.dest]. rewrite <- !app_assoc. reflexivity.
  - cbn [fst]. intros [H|[]]. subst st.
    exists ["-c:v"; App2.target_vcodec j; "-crf"; PyStr.str_of_Z (App2.crf j);
            "-preset"; "veryfast"; "-c:a"; App2.target_acodec j; "-b:a";
            PyStr.str_of_Z (App2.abr_kbps j) ++ "k"].
    reflexivity.
Qed.

Lemma X_app2_args_shape_witness :
  exists mid,
    ["ffmpeg"; "-y"; "-i"; "/in/movie.mkv"; "-c"; "copy"; "-map"; "0:0";
     "-map"; "0:1"; "/out/movie.mp4"]
    = (["ffmpeg"; "-y"; "-i"; "/in/movie.mkv"] ++ mid ++ ["/out/movie.mp4"])%list.
Proof.
  destruct (X_app2_args_shape "ffmpeg" movie_job
              (App2.mkStreamInfo 0 "video" "h264" None)
              (App2.mkStep "Remux: vídeo+áudio" "/out/movie.mp4"
                 ["ffmpeg"; "-y"; "-i"; "/in/movie.mkv"; "-c"; "copy";
                  "-map"; "0:0"; "-map"; "0:1"; "/out/movie.mp4"]
                 "Falha no remux vídeo+áudio")) as [mid H].
  - left. reflexivity.
  - exists mid. exact H.
Defined.

(** X7. A percentage that app2.py computes for a time that is not negative
    and a duration above zero lies between 0 and 99, whatever the rounding
    of the division and of the product does; the worker computes it on no
    other occasion, so every percentage a run reports is in that range. *)
Theorem X_app2_percent_in_range :
  (forall (t d : Py.float) (pct : Z),
      not_negative t = true -> Py.gt0 d = true ->
      App2.percent t d = Py.Ret pct -> (0 <= pct <= 99)%Z) /\
  (forall (ffmpeg : string) (probe : Py.float) (procs : nat -> App2.Proc)
          (j : App2.Job),
      Forall below_100 (App2.run ffmpeg probe procs j)).
Proof.
  split.
  - intros t d pct Ht Hd Hp. destruct (percent_range _ _ _ Hp) as [Hle Hge].
    split; [apply Hge; [exact Ht | exact (gt0_sign _ Hd)] | exact Hle].
  - intros ffmpeg probe procs j. apply run_below_100.
Qed.

(** 16.2 seconds of a minute: the quotient is rounded and the percentage is
    26. *)
Lemma X_app2_percent_in_range_witness :
  App2.percent (Py.float_of_ratio 162 10) (Py.float_of_Z 60) = Py.Ret 26%Z /\
  (0 <= 26 <= 99)%Z.
Proof.
  assert (H : App2.percent (Py.float_of_ratio 162 10) (Py.float_of_Z 60)
              = Py.Ret 26%Z) by (vm_compute; reflexivity).
  split; [exact H|].
  apply (proj1 X_app2_percent_in_range (Py.float_of_ratio 162 10)
               (Py.float_of_Z 60) 26%Z); [reflexivity | reflexivity | exact H].
Defined.

(** X8. subsgpt.py reports a percentage only when it differs from the last
    one it reported: in the notifications of a step no percentage repeats
    the one before it, and the first one is not the initial 0. *)
Theorem X_subsgpt_no_repeated_percent :
  forall (row : nat) (d : Py.float) (msg : string)
         (out : list (bool * Py.str)) (rc last : Z),
    no_repeat last (percents (fst (SubsGpt.log_lines row d msg out rc last))).
Proof.
  intros row d msg out rc. induction out as [|[cancel line] out IH]; intros last.
  - exact I.
  - cbn [SubsGpt.log_lines]. destruct cancel; [exact I|].
    destruct (Py.parse_ffmpeg_time line) as [[tv|]|e]; [| apply IH | exact I].
    destruct (Py.nonzero d); [|apply IH].
    destruct (SubsGpt.percent tv d) as [pct|e]; [|exact I].
    destruct (pct =? last)%Z eqn:E; [apply IH|].
    specialize (IH pct).
    destruct (SubsGpt.log_lines row d msg out rc pct) as [acts r].
    cbn [fst percents no_repeat] in *.
    split; [apply Z.eqb_neq, E | exact IH].
Qed.

(** * More on subsgpt.py *)

(** The scan of _process_next: it never goes back, the rows it passes over
    are incompatible ones marked to be skipped, it stops at a compatible
    job to dispatch it or at an incompatible one that is not to be skipped
    to report it, and it leaves all rows behind only when none is left. *)
Lemma subsgpt_scan_spec (js : list SubsGpt.Job) :
  forall cells next cells' next' o,
    SubsGpt.scan js cells next = (cells', next', o) ->
    (next <= next' <= next + List.length js)%nat /\
    (forall k j, (k < next' - next)%nat -> nth_error js k = Some j ->
                 SubsGpt.compatible j = false /\
                 SubsGpt.truthy (SubsGpt.skip j) = true) /\
    match o with
    | SubsGpt.Dispatched row =>
        row = next' /\
        exists j, nth_error js (next' - next) = Some j /\
                  SubsGpt.compatible j = true
    | SubsGpt.Blocked row =>
        row = next' /\
        exists j, nth_error js (next' - next) = Some j /\
                  SubsGpt.compatible j = false /\
                  SubsGpt.truthy (SubsGpt.skip j) = false
    | SubsGpt.QueueFinished => next' = (next + List.length js)%nat
    end.
Proof.
  induction js as [|a js IH]; intros cells next cells' next' o H;
    cbn [SubsGpt.scan] in H.
  - injection H as <- <- <-. cbn [List.length].
    split; [lia | split; [|lia]]. intros k j Hk. lia.
  - destruct (SubsGpt.compatible a) eqn:Hc; cbn [negb andb orb] in H.
    + injection H as <- <- <-. rewrite Nat.sub_diag. cbn [List.length].
      split; [lia | split; [intros k j Hk; lia|]].
      split; [reflexivity|]. exists a. split; [reflexivity | exact Hc].
    + destruct (SubsGpt.truthy (SubsGpt.skip a)) eqn:Hs.
      * specialize (IH _ _ _ _ _ H). destruct IH as [Hle [Hpass Ho]].
        cbn [List.length].
        replace (next' - next)%nat with (S (next' - S next)) by lia.
        split; [lia | split].
        -- intros [|k] j Hk Hn; cbn [nth_error] in Hn.
           ++ injection Hn as <-. split; assumption.
           ++ apply (Hpass k j); [lia | exact Hn].
        -- destruct o as [|row|row]; [lia | exact Ho | exact Ho].
      * injection H as <- <- <-. rewrite Nat.sub_diag. cbn [List.length].
        split; [lia | split; [intros k j Hk; lia|]].
        split; [reflexivity|]. exists a. repeat split; assumption.
Qed.

Lemma nth_error_skipn {A : Type} (l : list A) :
  forall n k, nth_error (skipn n l) k = nth_error l (n + k).
Proof.
  induction l as [|x l IH]; intros [|n] k; cbn [skipn Nat.add]; try reflexivity.
  - destruct k; reflexivity.
  - cbn [nth_error]. apply IH.
Qed.

(** X9. _process_next of subsgpt.py only ever dispatches a compatible job; the
    job it reports is incompatible and not to be skipped; every row it
    leaves behind is an incompatible job marked to be skipped; the jobs
    themselves are not changed and the scan position never goes back. *)
Theorem X_subsgpt_dispatches_only_compatible :
  forall w : SubsGpt.MainWindow,
    let w' := fst (SubsGpt._process_next w) in
    SubsGpt.jobs w' = SubsGpt.jobs w /\
    (SubsGpt._next_index w <= SubsGpt._next_index w')%nat /\
    (forall k j, (SubsGpt._next_index w <= k < SubsGpt._next_index w')%nat ->
                 nth_error (SubsGpt.jobs w) k = Some j ->
                 SubsGpt.compatible j = false /\
                 SubsGpt.truthy (SubsGpt.skip j) = true) /\
    (forall row, snd (SubsGpt._process_next w) = SubsGpt.Dispatched row ->
                 SubsGpt.current_row w' = Some row /\
                 exists j, nth_error (SubsGpt.jobs w) row = Some j /\
                           SubsGpt.compatible j = true) /\
    (forall row, snd (SubsGpt._process_next w) = SubsGpt.Blocked row ->
                 exists j, nth_error (SubsGpt.jobs w) row = Some j /\
                           SubsGpt.compatible j = false /\
                           SubsGpt.truthy (SubsGpt.skip j) = false).
Proof.
  intros w. cbv zeta. unfold SubsGpt._process_next.
  destruct (SubsGpt.scan (skipn (SubsGpt._next_index w) (SubsGpt.jobs w))
                         (SubsGpt.status_cell w) (SubsGpt._next_index w))
    as [[cells next'] o] eqn:Hs.
  destruct (subsgpt_scan_spec _ _ _ _ _ _ Hs) as [Hle [Hpass Ho]].
  assert (Hidx : forall k, (SubsGpt._next_index w <= k)%nat ->
             nth_error (skipn (SubsGpt._next_index w) (SubsGpt.jobs w))
                       (k - SubsGpt._next_index w)
             = nth_error (SubsGpt.jobs w) k).
  { intros k Hk. rewrite nth_error_skipn. f_equal. lia. }
  assert (Hcommon :
            SubsGpt.jobs (fst (match o with
                               | SubsGpt.Dispatched row =>
                                   (SubsGpt.mkWindow (SubsGpt.jobs w)
                                      (App2.list_set row "Executando" cells)
                                      next' (Some row), o)
                               | _ => (SubsGpt.mkWindow (SubsGpt.jobs w) cells next'
                                         (SubsGpt.current_row w), o)
                               end)) = SubsGpt.jobs w /\
            SubsGpt._next_index
              (fst (match o with
                    | SubsGpt.Dispatched row =>
                        (SubsGpt.mkWindow (SubsGpt.jobs w)
                           (App2.list_set row "Executando" cells)
                           next' (Some row), o)
                    | _ => (SubsGpt.mkWindow (SubsGpt.jobs w) cells next'
                              (SubsGpt.current_row w), o)
                    end)) = next').
  { destruct o; split; reflexivity. }
  destruct Hcommon as [Hj Hn]. rewrite Hj, Hn.
  split; [reflexivity | split; [lia | split; [|split]]].
  - intros k j Hk Hnth. apply (Hpass (k - SubsGpt._next_index w)%nat j); [lia|].
    rewrite Hidx; [exact Hnth | lia].
  - intros row Hrow. destruct o as [|r|r]; cbn [snd] in Hrow; try discriminate.
    injection Hrow as ->. destruct Ho as [-> [j [Hnth Hc]]].
    split; [reflexivity|]. exists j. split; [|exact Hc].
    rewrite <- Hidx; [exact Hnth | lia].
  - intros row Hrow. destruct o as [|r|r]; cbn [snd] in Hrow; try discriminate.
    injection Hrow as ->. destruct Ho as [-> [j [Hnth [Hc Hsk]]]].
    exists j. split; [|split; assumption].
    rewrite <- Hidx; [exact Hnth | lia].
Qed.

(** The invariant at work after a job is added and the queue is started. *)
Lemma one_running_while_rows_kept_witness :
  row_kept (App2.step (App2.step App2.initial (App2.EAdd (video_job "/in/a.mkv")))
                      App2.EStart) /\
  one_running (App2.step (App2.step App2.initial (App2.EAdd (video_job "/in/a.mkv")))
                         App2.EStart) /\
  (App2.count_status App2.running
     (App2.jobs (App2.step (App2.step App2.initial
                                      (App2.EAdd (video_job "/in/a.mkv")))
                           App2.EStart)) <= 1)%nat.
Proof.
  assert (H : row_kept (App2.step (App2.step App2.initial
                                             (App2.EAdd (video_job "/in/a.mkv")))
                                  App2.EStart)).
  { apply row_kept_step; [apply row_kept_step; [apply row_kept_initial|]|].
    - cbn. discriminate.
    - exact I. }
  split; [exact H|].
  exact (one_running_while_rows_kept _ H).
Defined.

(** * When a worker reports success *)







(** A line whose seconds field has 400 digits is parsed to an infinite
    time; the percentage cannot be computed and the run fails. *)
Example infinite_time_fails :
  Py.parse_ffmpeg_time (Py.TIME ++ Py.of_string "00:00:" ++ repeat 57%N 400)%list
  = Py.Ret (Some (S754_infinity false)) /\
  App2.percent (S754_infinity false) (Py.float_of_Z 60)
  = Py.Raise "OverflowError" /\
  exists m,
    App2.run "ffmpeg" Py.F0
             (fun _ => App2.mkProc true
                         [(false, (Py.TIME ++ Py.of_string "00:00:"
                                   ++ repeat 57%N 400)%list)] 0)
             (video_job "/in/a.mkv")
    = [App2.status_changed "running";
       App2.status_changed "Remux: vídeo+áudio";
       App2.finished false m].
Proof.
  split; [vm_compute; reflexivity|]. split; [vm_compute; reflexivity|].
  eexists. vm_compute. reflexivity.
Qed.

Lemma log_lines_own (row : nat) (d : Py.float) (msg : string)
      (out : list (bool * Py.str)) (rc : Z) :
  forall last,
    Forall (own_progress row) (fst (SubsGpt.log_lines row d msg out rc last)) /\
    (snd (SubsGpt.log_lines row d msg out rc last) = Py.Ret true ->
     rc = 0%Z /\ Forall (fun l => fst l = false) out).
Proof.
  induction out as [|[cancel line] out IH]; intros last; cbn [SubsGpt.log_lines].
  - cbn [fst snd]. split; [constructor|].
    intros H. injection H as H. split; [apply Z.eqb_eq, H | constructor].
  - destruct cancel; [cbn [fst snd]; split; [constructor | discriminate]|].
    assert (Hnext : forall l,
               Forall (own_progress row)
                      (fst (SubsGpt.log_lines row d msg out rc l)) /\
               (snd (SubsGpt.log_lines row d msg out rc l) = Py.Ret true ->
                rc = 0%Z /\ Forall (fun l => fst l = false)
                                   ((false, line) :: out))).
    { intros l. destruct (IH l) as [H1 H2]. split; [exact H1|].
      intros H. destruct (H2 H) as [Hrc Hall].
      split; [exact Hrc | constructor; [reflexivity | exact Hall]]. }
    destruct (Py.parse_ffmpeg_time line) as [[tv|]|e];
      [| apply Hnext | cbn [fst snd]; split; [constructor | discriminate]].
    destruct (Py.nonzero d); [|apply Hnext].
    destruct (SubsGpt.percent tv d) as [pct|e];
      [|cbn [fst snd]; split; [constructor | discriminate]].
    destruct (pct =? last)%Z; [apply Hnext|].
    specialize (Hnext pct).
    destruct (SubsGpt.log_lines row d msg out rc pct) as [acts r].
    cbn [fst snd] in *. destruct Hnext as [H1 H2].
    split; [constructor; [reflexivity | exact H1] | exact H2].
Qed.

Lemma run_cmd_own (row : nat) (cmd : list string) (p : SubsGpt.Proc)
      (d : Py.float) (msg : string) :
  Forall (own_progress row) (fst (SubsGpt._run_cmd_with_logging row cmd p d msg)) /\
  (snd (SubsGpt._run_cmd_with_logging row cmd p d msg) = Py.Ret true ->
   SubsGpt.found p = true /\ SubsGpt.returncode p = 0%Z /\
   Forall (fun l => fst l = false) (SubsGpt.output p)).
Proof.
  unfold SubsGpt._run_cmd_with_logging. destruct (SubsGpt.found p).
  - pose proof (log_lines_own row d msg (SubsGpt.output p)
                              (SubsGpt.returncode p) 0) as [H1 H2].
    destruct (SubsGpt.log_lines row d msg (SubsGpt.output p)
                                (SubsGpt.returncode p) 0) as [acts r].
    cbn [fst snd] in *. split; [constructor; [exact I | exact H1]|].
    intros H. destruct (H2 H) as [Hrc Hall]. repeat split; assumption.
  - cbn [fst snd]. split; [repeat constructor | discriminate].
Qed.

Lemma extract_subs_own (row : nat) (st : SubsGpt.Settings)
      (infile basename : string) (d : Py.float) (procs : nat -> SubsGpt.Proc)
      (subs : list SubsGpt.Stream) :
  forall k sidx,
    Forall (own_progress row)
           (fst (SubsGpt.extract_subs row st infile basename d procs k sidx subs)).
Proof.
  induction subs as [|s subs IH]; intros k sidx; cbn [SubsGpt.extract_subs].
  - constructor.
  - destruct (SubsGpt.matched (SubsGpt.langs st) s); [|apply IH].
    match goal with
    | |- context [SubsGpt._run_cmd_with_logging row ?c ?p d ?m] =>
        pose proof (run_cmd_own row c p d m) as [H1 _];
        destruct (SubsGpt._run_cmd_with_logging row c p d m) as [acts r]
    end.
    cbn [fst] in H1. destruct r as [b|e]; [|exact H1].
    specialize (IH (S k) (S sidx)).
    destruct (SubsGpt.extract_subs row st infile basename d procs (S k)
                                   (S sidx) subs) as [acts' r'].
    cbn [fst] in *. apply Forall_app. split; assumption.
Qed.

(** X13. Every run of the worker of subsgpt.py ends with its one finished
    notification, for its own row; before it the worker only starts
    processes and reports progress for its own row; and it reports success
    only if there was room on the disk and the first command (the remux or
    the transcoding) was found, was not cancelled and exited with code 0. *)
Theorem X_subsgpt_run_ends_with_one_finished :
  forall (job : SubsGpt.Job) (row : nat) (st : SubsGpt.Settings)
         (env : SubsGpt.RunEnv) (logfile : string) (procs : nat -> SubsGpt.Proc),
  exists pre ok m,
    SubsGpt.run job row st env logfile procs
    = (pre ++ [SubsGpt.finished row ok m])%list /\
    Forall (own_progress row) pre /\
    (ok = true ->
     SubsGpt.no_space env = false /\
     SubsGpt.found (procs 0%nat) = true /\
     SubsGpt.returncode (procs 0%nat) = 0%Z /\
     Forall (fun l => fst l = false) (SubsGpt.output (procs 0%nat))).
Proof.
  intros job row st env logfile procs. unfold SubsGpt.run.
  destruct (SubsGpt.no_space env) eqn:Hsp.
  { exists [], false, logfile.
    split; [reflexivity | split; [constructor | discriminate]]. }
  destruct (String.eqb (SubsGpt.mode st) "extract").
  - match goal with
    | |- context [SubsGpt._run_cmd_with_logging row ?c ?p ?d ?m] =>
        pose proof (run_cmd_own row c p d m) as [H1 H2];
        destruct (SubsGpt._run_cmd_with_logging row c p d m) as [acts r]
    end.
    cbn [fst snd] in *. destruct r as [[|]|e].
    + match goal with
      | |- context [SubsGpt.extract_subs row st ?i ?b ?d procs ?k ?x ?subs] =>
          pose proof (extract_subs_own row st i b d procs subs k x) as H3;
          destruct (SubsGpt.extract_subs row st i b d procs k x subs)
            as [acts' r']
      end.
      cbn [fst] in H3. destruct r' as [u|e].
      * exists (acts ++ acts' ++ [SubsGpt.progress row 100 "Concluído (extract)"])%list,
               true, logfile.
        split; [rewrite <- !app_assoc; reflexivity|].
        split; [|intros _; split; [reflexivity | apply H2; reflexivity]].
        apply Forall_app. split; [exact H1|].
        apply Forall_app. split; [exact H3 | repeat constructor].
      * exists (acts ++ acts')%list, false, e.
        split; [rewrite <- app_assoc; reflexivity|].
        split; [apply Forall_app; split; assumption | discriminate].
    + exists acts, false, logfile.
      split; [reflexivity | split; [exact H1 | discriminate]].
    + exists acts, false, e.
      split; [reflexivity | split; [exact H1 | discriminate]].
  - match goal with
    | |- context [SubsGpt._run_cmd_with_logging row ?c ?p ?d ?m] =>
        pose proof (run_cmd_own row c p d m) as [H1 H2];
        destruct (SubsGpt._run_cmd_with_logging row c p d m) as [acts r]
    end.
    cbn [fst snd] in *. destruct r as [[|]|e].
    + exists (acts ++ [SubsGpt.progress row 100 "Concluído (reencode)"])%list,
             true, logfile.
      split; [rewrite <- app_assoc; reflexivity|].
      split; [|intros _; split; [reflexivity | apply H2; reflexivity]].
      apply Forall_app. split; [exact H1 | repeat constructor].
    + exists acts, false, logfile.
      split; [reflexivity | split; [exact H1 | discriminate]].
    + exists acts, false, e.
      split; [reflexivity | split; [exact H1 | discriminate]].
Qed.

(** * The numbered name keeps the extension *)

Lemma split_last_dot_sound (s : string) :
  forall a b, SubsChat.split_last_dot s = Some (a, b) ->
              s = a ++ "." ++ b /\ SubsChat.split_last_dot b = None.
Proof.
  induction s as [|c s IH]; intros a b H; cbn [SubsChat.split_last_dot] in H.
  - discriminate H.
  - destruct (SubsChat.split_last_dot s) as [[a' b']|] eqn:Hs.
    + injection H as <- <-. destruct (IH a' b' eq_refl) as [-> Hb].
      split; [reflexivity | exact Hb].
    + destruct (Ascii.eqb c ".") eqn:Hc; [|discriminate H].
      injection H as <- <-. apply Ascii.eqb_eq in Hc. subst c.
      split; [reflexivity | exact Hs].
Qed.

Lemma split_last_dot_complete (a b : string) :
  SubsChat.split_last_dot b = None ->
  SubsChat.split_last_dot (a ++ "." ++ b) = Some (a, b).
Proof.
  intros Hb. induction a as [|c a IH]; cbn [append SubsChat.split_last_dot].
  - rewrite Hb. reflexivity.
  - cbn [append] in IH. rewrite IH. reflexivity.
Qed.

Lemma stem_suffix_inv (nm stem suffix : string) :
  SubsChat.stem_suffix nm = (stem, suffix) -> suffix <> EmptyString ->
  exists c a d b,
    stem = String c a /\ suffix = "." ++ String d b /\
    nm = stem ++ suffix /\ SubsChat.split_last_dot (String d b) = None.
Proof.
  unfold SubsChat.stem_suffix. intros H Hne.
  destruct (SubsChat.split_last_dot nm) as [[a b]|] eqn:Hs;
    [|injection H as <- <-; destruct (Hne eq_refl)].
  destruct a as [|c a]; [injection H as <- <-; destruct (Hne eq_refl)|].
  destruct b as [|d b]; [injection H as <- <-; destruct (Hne eq_refl)|].
  injection H as <- <-. destruct (split_last_dot_sound _ _ _ Hs) as [Hnm Hb].
  exists c, a, d, b. repeat split; assumption.
Qed.

Lemma candidate_stem_suffix (base : SubsChat.Path) (i : nat) (stem suffix : string) :
  SubsChat.stem_suffix (SubsChat.name base) = (stem, suffix) ->
  suffix <> EmptyString ->
  SubsChat.parent (SubsChat.candidate base i) = SubsChat.parent base /\
  SubsChat.stem_suffix (SubsChat.name (SubsChat.candidate base i))
  = (stem ++ " (" ++ PyStr.str_of_nat i ++ ")", suffix).
Proof.
  intros H Hne. unfold SubsChat.candidate. rewrite H.
  cbn [SubsChat.parent SubsChat.name]. split; [reflexivity|].
  destruct (stem_suffix_inv _ _ _ H Hne) as [c [a [d [b [-> [-> [_ Hb]]]]]]].
  unfold SubsChat.stem_suffix.
  replace (String c a ++ " (" ++ PyStr.str_of_nat i ++ ")" ++ "." ++ String d b)
    with ((String c a ++ " (" ++ PyStr.str_of_nat i ++ ")") ++ "." ++ String d b)
    by (rewrite !str_app_assoc; reflexivity).
  rewrite (split_last_dot_complete _ _ Hb). reflexivity.
Qed.

Lemma unique_loop_is_candidate (fs : SubsChat.FileSystem) (base : SubsChat.Path) :
  forall fuel i p,
    SubsChat.unique_loop fs base i fuel = Some p ->
    exists k, (i <= k)%nat /\ p = SubsChat.candidate base k.
Proof.
  induction fuel as [|fuel IH]; intros i p H; cbn [SubsChat.unique_loop] in H.
  - discriminate H.
  - destruct (SubsChat.exists_ fs (SubsChat.candidate base i)).
    + destruct (IH _ _ H) as [k [Hk ->]]. exists k. split; [lia | reflexivity].
    + injection H as <-. exists i. split; [lia | reflexivity].
Qed.

(** X14. Whatever unique_path returns for a name with an extension lies in the
    directory of the requested path and has the same extension; it is the
    requested path itself or its stem is the requested stem followed by a
    space and a counter, from 1 on, in parentheses. *)
Theorem X_unique_path_keeps_extension :
  forall (fs : SubsChat.FileSystem) (base p : SubsChat.Path) (overwrite : bool)
         (fuel : nat) (stem suffix : string),
    SubsChat.stem_suffix (SubsChat.name base) = (stem, suffix) ->
    suffix <> EmptyString ->
    SubsChat.unique_path fs base overwrite fuel = Some (Py.Ret p) ->
    SubsChat.parent p = SubsChat.parent base /\
    snd (SubsChat.stem_suffix (SubsChat.name p)) = suffix /\
    (p = base \/
     exists i, (1 <= i)%nat /\
               fst (SubsChat.stem_suffix (SubsChat.name p))
               = stem ++ " (" ++ PyStr.str_of_nat i ++ ")").
Proof.
  intros fs base p overwrite fuel stem suffix Hs Hne H.
  unfold SubsChat.unique_path in H.
  destruct (orb overwrite (negb (SubsChat.exists_ fs base))).
  - injection H as <-. rewrite Hs.
    split; [reflexivity | split; [reflexivity | left; reflexivity]].
  - destruct (SubsChat.name base) eqn:Hn; [discriminate H|]. rewrite <- Hn in *.
    destruct (SubsChat.unique_loop fs base 1 fuel) as [c|] eqn:Hl;
      [|discriminate H].
    cbn [option_map] in H. injection H as <-.
    destruct (unique_loop_is_candidate _ _ _ _ _ Hl) as [k [Hk ->]].
    destruct (candidate_stem_suffix base k stem suffix Hs Hne) as [Hp Hc].
    rewrite Hc. cbn [fst snd].
    split; [exact Hp | split; [reflexivity|]].
    right. exists k. split; [exact Hk | reflexivity].
Qed.

Lemma X_unique_path_keeps_extension_witness :
  SubsChat.parent (SubsChat.mkPath "/out" "movie.track2.eng (2).srt") = "/out" /\
  snd (SubsChat.stem_suffix
         (SubsChat.name (SubsChat.mkPath "/out" "movie.track2.eng (2).srt")))
  = ".srt".
Proof.
  destruct (X_unique_path_keeps_extension crowded_dir track_path
              (SubsChat.mkPath "/out" "movie.track2.eng (2).srt") false 4
              "movie.track2.eng" ".srt") as [H1 [H2 _]].
  - reflexivity.
  - discriminate.
  - reflexivity.
  - split; [exact H1 | exact H2].
Defined.

(** * Clearing the finished rows *)

Lemma list_pop_app {A : Type} (p : list A) (x : A) (r : list A) :
  App2.list_pop (List.length p) (p ++ x :: r)%list = (p ++ r)%list.
Proof.
  induction p as [|y p IH]; cbn [List.length app App2.list_pop];
    [reflexivity | rewrite IH; reflexivity].
Qed.

(** Removing the collected rows from the last to the first takes out of a
    column exactly the entries of those rows. *)
Lemma pops_keep_rows {A : Type} (cells : list App2.Status) :
  forall (col p : list A),
    List.length col = List.length cells ->
    fold_right (fun r l => App2.list_pop r l) (p ++ col)%list
               (App2.done_rows cells (List.length p))
    = (p ++ keep_rows cells col)%list.
Proof.
  induction cells as [|st cells IH]; intros col p Hlen.
  - destruct col; [reflexivity | discriminate Hlen].
  - destruct col as [|x col]; [discriminate Hlen|].
    cbn [List.length] in Hlen. injection Hlen as Hlen.
    cbn [App2.done_rows keep_rows].
    assert (Hrest : fold_right (fun r l => App2.list_pop r l) (p ++ x :: col)%list
                               (App2.done_rows cells (S (List.length p)))
                    = (p ++ x :: keep_rows cells col)%list).
    { specialize (IH col (p ++ [x])%list Hlen).
      rewrite length_app, Nat.add_1_r, <- !app_assoc in IH. exact IH. }
    destruct (App2.cleared st).
    + cbn [fold_right]. rewrite Hrest. apply list_pop_app.
    + exact Hrest.
Qed.

Lemma keep_rows_filter (js : list App2.Job) :
  keep_rows (map App2.status js) js
  = filter (fun j => negb (App2.cleared (App2.status j))) js.
Proof.
  induction js as [|j js IH]; cbn [map keep_rows filter]; [reflexivity|].
  destruct (App2.cleared (App2.status j)); cbn [negb]; rewrite IH; reflexivity.
Qed.

Lemma keep_rows_combine {B : Type} (js : list App2.Job) :
  forall col : list B,
    List.length col = List.length js ->
    combine (keep_rows (map App2.status js) js) (keep_rows (map App2.status js) col)
    = filter (fun jp => negb (App2.cleared (App2.status (fst jp)))) (combine js col).
Proof.
  induction js as [|j js IH]; intros col Hlen.
  - destruct col; [reflexivity | discriminate Hlen].
  - destruct col as [|x col]; [discriminate Hlen|].
    cbn [List.length] in Hlen. injection Hlen as Hlen.
    cbn [map keep_rows combine filter fst].
    destruct (App2.cleared (App2.status j)); cbn [negb combine];
      rewrite (IH col Hlen); reflexivity.
Qed.

Lemma clear_fold (rows : list nat) :
  forall w : App2.MainWindow,
    fold_left (fun w' r =>
                 App2.mkWindow (App2.list_pop r (App2.jobs w'))
                               (App2.list_pop r (App2.pbar w'))
                               (App2.current_worker w') (App2.current_row w'))
              rows w
    = App2.mkWindow (fold_left (fun l r => App2.list_pop r l) rows (App2.jobs w))
                    (fold_left (fun l r => App2.list_pop r l) rows (App2.pbar w))
                    (App2.current_worker w) (App2.current_row w).
Proof.
  induction rows as [|r rows IH]; intros w; cbn [fold_left].
  - destruct w; reflexivity.
  - rewrite IH. reflexivity.
Qed.

Lemma fold_left_rev {A B : Type} (g : A -> B -> A) (l : list B) (a : A) :
  fold_left g (rev l) a = fold_right (fun y x => g x y) a l.
Proof.
  induction l as [|y l IH]; cbn [rev fold_right]; [reflexivity|].
  rewrite fold_left_app. cbn [fold_left]. rewrite IH. reflexivity.
Qed.

Lemma clear_done_columns (w : App2.MainWindow) :
  App2.jobs (App2.clear_done w)
  = keep_rows (map App2.status (App2.jobs w)) (App2.jobs w) /\
  (List.length (App2.pbar w) = List.length (App2.jobs w) ->
   App2.pbar (App2.clear_done w)
   = keep_rows (map App2.status (App2.jobs w)) (App2.pbar w)) /\
  App2.current_worker (App2.clear_done w) = App2.current_worker w /\
  App2.current_row (App2.clear_done w) = App2.current_row w.
Proof.
  unfold App2.clear_done. rewrite clear_fold.
  cbn [App2.jobs App2.pbar App2.current_worker App2.current_row].
  rewrite !fold_left_rev.
  split; [|split; [|split; reflexivity]].
  - apply (pops_keep_rows (map App2.status (App2.jobs w)) (App2.jobs w) []).
    rewrite length_map. reflexivity.
  - intros Hlen.
    apply (pops_keep_rows (map App2.status (App2.jobs w)) (App2.pbar w) []).
    rewrite length_map. exact Hlen.
Qed.

(** X15. clear_done of app2.py removes exactly the jobs whose status is done,
    error or skipped and keeps the others in their order; when the table
    and the job list have the same length, every job that stays keeps its
    own row (its progress bar); the current worker and the current row are
    left as they were, also when rows above the running one are removed. *)
Theorem X_app2_clear_done_keeps_the_rest :
  forall w : App2.MainWindow,
    App2.jobs (App2.clear_done w)
    = filter (fun j => negb (App2.cleared (App2.status j))) (App2.jobs w) /\
    (List.length (App2.pbar w) = List.length (App2.jobs w) ->
     combine (App2.jobs (App2.clear_done w)) (App2.pbar (App2.clear_done w))
     = filter (fun jp => negb (App2.cleared (App2.status (fst jp))))
              (combine (App2.jobs w) (App2.pbar w))) /\
    App2.current_worker (App2.clear_done w) = App2.current_worker w /\
    App2.current_row (App2.clear_done w) = App2.current_row w.
Proof.
  intros w. destruct (clear_done_columns w) as [Hj [Hp [Hw Hr]]].
  split; [|split; [|split; assumption]].
  - rewrite Hj. apply keep_rows_filter.
  - intros Hlen. rewrite Hj, (Hp Hlen). apply keep_rows_combine. exact Hlen.
Qed.

(** The running job of [busy_window] moves from row 1 to row 0 when the
    finished rows are cleared, and the window still has it at row 1. *)
Lemma X_app2_clear_done_keeps_the_rest_witness :
  combine (App2.jobs (App2.clear_done busy_window))
          (App2.pbar (App2.clear_done busy_window))
  = [(App2.set_status (video_job "/in/b.mkv") App2.running, 40%Z);
     (video_job "/in/d.mkv", 0%Z)] /\
  App2.current_row (App2.clear_done busy_window) = Some 1%nat.
Proof.
  destruct (X_app2_clear_done_keeps_the_rest busy_window) as [_ [Hc [_ Hr]]].
  split; [rewrite (Hc eq_refl); reflexivity | exact Hr].
Defined.

(** * Removing the selected rows *)

Lemma insert_desc_In (x : nat) (l : list nat) :
  forall y, In y (App2.insert_desc x l) <-> y = x \/ In y l.
Proof.
  induction l as [|z l IH]; intros y; cbn [App2.insert_desc].
  - cbn [In]. intuition.
  - destruct (Nat.leb z x); cbn [In]; [intuition|].
    rewrite IH. intuition.
Qed.

Lemma sorted_reverse_In (l : list nat) :
  forall y, In y (App2.sorted_reverse l) <-> In y l.
Proof.
  unfold App2.sorted_reverse.
  induction l as [|x l IH]; intros y; cbn [fold_right]; [reflexivity|].
  rewrite insert_desc_In, IH. cbn [In]. intuition.
Qed.

Lemma insert_desc_descending (x : nat) (l : list nat) :
  descending l -> ~ In x l -> descending (App2.insert_desc x l).
Proof.
  induction l as [|z l IH]; intros Hd Hx; cbn [App2.insert_desc].
  - split; [intros y []|exact I].
  - destruct Hd as [Hz Hd]. destruct (Nat.leb z x) eqn:Hle.
    + apply Nat.leb_le in Hle.
      assert (Hlt : (z < x)%nat).
      { destruct (Nat.eq_dec z x) as [->|Hne]; [|lia].
        destruct Hx. left. reflexivity. }
      split; [|split; assumption].
      intros y [<-|Hy]; [exact Hlt|]. specialize (Hz y Hy). lia.
    + apply Nat.leb_gt in Hle. split.
      * intros y Hy. apply insert_desc_In in Hy.
        destruct Hy as [->|Hy]; [exact Hle | apply Hz, Hy].
      * apply IH; [exact Hd|]. intros Hin. apply Hx. right. exact Hin.
Qed.

Lemma sorted_reverse_descending (l : list nat) :
  NoDup l -> descending (App2.sorted_reverse l).
Proof.
  unfold App2.sorted_reverse.
  induction 1 as [|x l Hx Hnd IH]; cbn [fold_right]; [exact I|].
  apply insert_desc_descending; [exact IH|].
  intros Hin. apply Hx. apply (sorted_reverse_In l). exact Hin.
Qed.

Lemma descending_filter (f : nat -> bool) (rows : list nat) :
  descending rows -> descending (filter f rows).
Proof.
  induction rows as [|r rows IH]; intros Hd; cbn [filter]; [exact I|].
  destruct Hd as [Hr Hd]. destruct (f r); [|apply IH, Hd].
  split; [|apply IH, Hd].
  intros x Hx. apply filter_In in Hx. apply Hr, Hx.
Qed.

Lemma without_rows_below {A : Type} (rows : list nat) (col : list A) :
  forall k, (forall x, In x rows -> (x < k)%nat) -> without_rows rows col k = col.
Proof.
  induction col as [|a col IH]; intros k Hk; cbn [without_rows]; [reflexivity|].
  destruct (existsb (Nat.eqb k) rows) eqn:He.
  - apply existsb_exists in He. destruct He as [x [Hx He]].
    apply Nat.eqb_eq in He. subst x. specialize (Hk k Hx). lia.
  - rewrite IH; [reflexivity|]. intros x Hx. specialize (Hk x Hx). lia.
Qed.

Lemma without_rows_pop {A : Type} (rows : list nat) (r : nat) (col : list A) :
  (forall x, In x rows -> (x < r)%nat) ->
  forall k, (k <= r)%nat ->
    without_rows rows (App2.list_pop (r - k) col) k
    = without_rows (r :: rows) col k.
Proof.
  intros Hr. induction col as [|a col IH]; intros k Hk.
  - destruct (r - k)%nat; reflexivity.
  - cbn [without_rows existsb].
    destruct (Nat.eq_dec k r) as [->|Hne].
    + rewrite Nat.sub_diag, Nat.eqb_refl. cbn [App2.list_pop orb].
      rewrite (without_rows_below rows col r Hr).
      rewrite without_rows_below; [reflexivity|].
      intros x [<-|Hx]; [lia|]. specialize (Hr x Hx). lia.
    + replace (r - k)%nat with (S (r - S k)) by lia.
      cbn [App2.list_pop without_rows].
      assert (Hkr : Nat.eqb k r = false) by (apply Nat.eqb_neq; exact Hne).
      rewrite Hkr. cbn [orb]. rewrite IH by lia.
      destruct (existsb (Nat.eqb k) rows); reflexivity.
Qed.

(** Removing rows in decreasing order takes out exactly those rows. *)
Lemma pops_without_rows {A : Type} (rows : list nat) :
  descending rows ->
  forall col : list A,
    fold_left (fun l r => App2.list_pop r l) rows col = without_rows rows col 0.
Proof.
  induction rows as [|r rows IH]; intros Hd col; cbn [fold_left].
  - symmetry. apply without_rows_below. intros x [].
  - destruct Hd as [Hr Hd]. rewrite (IH Hd).
    rewrite <- (without_rows_pop rows r col Hr 0) by lia.
    rewrite Nat.sub_0_r. reflexivity.
Qed.

Lemma without_rows_ext {A : Type} (rows rows' : list nat) (col : list A) :
  (forall x, In x rows <-> In x rows') ->
  forall k, without_rows rows col k = without_rows rows' col k.
Proof.
  intros Hin. induction col as [|a col IH]; intros k; cbn [without_rows];
    [reflexivity|].
  assert (He : existsb (Nat.eqb k) rows = existsb (Nat.eqb k) rows').
  { apply eq_true_iff_eq. rewrite !existsb_exists.
    split; intros [x [Hx He]]; exists x; (split; [apply Hin, Hx | exact He]). }
  rewrite He, IH. reflexivity.
Qed.

Lemma remove_rows_fold (rows : list nat) :
  forall w : App2.MainWindow,
    fold_left App2._remove_row rows w
    = App2.mkWindow
        (fold_left (fun l r => App2.list_pop r l)
                   (filter (fun r => negb (guarded w r)) rows) (App2.jobs w))
        (fold_left (fun l r => App2.list_pop r l)
                   (filter (fun r => negb (guarded w r)) rows) (App2.pbar w))
        (App2.current_worker w) (App2.current_row w).
Proof.
  induction rows as [|r rows IH]; intros w; cbn [fold_left filter].
  - destruct w; reflexivity.
  - rewrite IH. unfold App2._remove_row. fold (guarded w r).
    destruct (guarded w r); cbn [negb]; [reflexivity|].
    cbn [fold_left App2.jobs App2.pbar App2.current_worker App2.current_row].
    reflexivity.
Qed.

(** X16. remove_selected of app2.py, for a selection of distinct rows, removes
    from the job list and from the table exactly the selected rows other
    than the row of a running worker, which stays; the rows that are left
    keep their order, and the current worker and the current row are left
    as they were. *)
Theorem X_app2_remove_selected_removes_selection :
  forall (w : App2.MainWindow) (sels : list nat),
    NoDup sels ->
    App2.jobs (App2.remove_selected w sels)
    = without_rows (filter (fun r => negb (guarded w r)) sels) (App2.jobs w) 0 /\
    App2.pbar (App2.remove_selected w sels)
    = without_rows (filter (fun r => negb (guarded w r)) sels) (App2.pbar w) 0 /\
    App2.current_worker (App2.remove_selected w sels) = App2.current_worker w /\
    App2.current_row (App2.remove_selected w sels) = App2.current_row w.
Proof.
  intros w sels Hnd. unfold App2.remove_selected. rewrite remove_rows_fold.
  cbn [App2.jobs App2.pbar App2.current_worker App2.current_row].
  assert (Hd : descending (filter (fun r => negb (guarded w r))
                                  (App2.sorted_reverse sels))).
  { apply descending_filter, sorted_reverse_descending, Hnd. }
  assert (Hin : forall x,
             In x (filter (fun r => negb (guarded w r)) (App2.sorted_reverse sels))
             <-> In x (filter (fun r => negb (guarded w r)) sels)).
  { intros x. rewrite !filter_In, sorted_reverse_In. reflexivity. }
  rewrite !(pops_without_rows _ Hd).
  rewrite (without_rows_ext _ _ (App2.jobs w) Hin 0).
  rewrite (without_rows_ext _ _ (App2.pbar w) Hin 0).
  repeat split; reflexivity.
Qed.

(** Rows 0, 2 and 1 of [busy_window] selected: the running row 1 stays. *)
Lemma X_app2_remove_selected_removes_selection_witness :
  NoDup [0; 2; 1]%nat /\
  App2.jobs (App2.remove_selected busy_window [0; 2; 1]%nat)
  = [App2.set_status (video_job "/in/b.mkv") App2.running;
     video_job "/in/d.mkv"].
Proof.
  assert (Hnd : NoDup [0; 2; 1]%nat).
  { repeat constructor; cbn [In]; intuition discriminate. }
  split; [exact Hnd|].
  destruct (X_app2_remove_selected_removes_selection busy_window _ Hnd)
    as [Hj _].
  rewrite Hj. reflexivity.
Defined.

(** * The order of the jobs in subsgpt.py *)

Lemma subsgpt_dispatch_row (w : SubsGpt.MainWindow) (r : nat) :
  snd (SubsGpt._process_next w) = SubsGpt.Dispatched r ->
  (SubsGpt._next_index w <= r)%nat /\
  SubsGpt._next_index (fst (SubsGpt._process_next w)) = r.
Proof.
  unfold SubsGpt._process_next.
  destruct (SubsGpt.scan (skipn (SubsGpt._next_index w) (SubsGpt.jobs w))
                         (SubsGpt.status_cell w) (SubsGpt._next_index w))
    as [[cells next'] o] eqn:Hs.
  destruct (subsgpt_scan_spec _ _ _ _ _ _ Hs) as [Hle [_ Ho]].
  destruct o as [|row|row]; cbn [fst snd]; intros H; try discriminate H.
  injection H as ->. destruct Ho as [-> _].
  cbn [SubsGpt._next_index]. split; [lia | reflexivity].
Qed.

(** X17. In subsgpt.py the job dispatched after a worker has finished is always
    at a later row than the job of that worker: within one start of the
    queue no row is run twice and rows are taken in the order of the
    table. *)
Theorem X_subsgpt_rows_dispatched_in_order :
  forall (w : SubsGpt.MainWindow) (r r' : nat) (ok : bool),
    snd (SubsGpt._process_next w) = SubsGpt.Dispatched r ->
    snd (SubsGpt._process_next
           (SubsGpt._on_finished (fst (SubsGpt._process_next w)) r ok))
    = SubsGpt.Dispatched r' ->
    (r < r')%nat.
Proof.
  intros w r r' ok H1 H2.
  destruct (subsgpt_dispatch_row _ _ H1) as [_ Hn].
  destruct (subsgpt_dispatch_row _ _ H2) as [Hle _].
  unfold SubsGpt._on_finished in Hle. cbn [SubsGpt._next_index] in Hle.
  rewrite Hn in Hle. lia.
Qed.

Lemma X_subsgpt_rows_dispatched_in_order_witness :
  snd (SubsGpt._process_next gpt_pair_window) = SubsGpt.Dispatched 0 /\
  snd (SubsGpt._process_next
         (SubsGpt._on_finished (fst (SubsGpt._process_next gpt_pair_window))
                               0 true))
  = SubsGpt.Dispatched 1 /\
  (0 < 1)%nat.
Proof.
  split; [reflexivity | split; [reflexivity|]].
  apply (X_subsgpt_rows_dispatched_in_order gpt_pair_window 0 1 true);
    reflexivity.
Defined.

(** * The table and the job list stay in step *)

Lemma list_pop_length {A B : Type} (l : list A) :
  forall (m : list B) (i : nat),
    List.length m = List.length l ->
    List.length (App2.list_pop i m) = List.length (App2.list_pop i l).
Proof.
  induction l as [|x l IH]; intros [|y m] i H; try discriminate H.
  - destruct i; reflexivity.
  - cbn [List.length] in H. injection H as H.
    destruct i as [|i]; cbn [App2.list_pop List.length]; [exact H|].
    rewrite (IH m i H). reflexivity.
Qed.

Lemma pops_length {A B : Type} (rows : list nat) :
  forall (l : list A) (m : list B),
    List.length m = List.length l ->
    List.length (fold_left (fun c r => App2.list_pop r c) rows m)
    = List.length (fold_left (fun c r => App2.list_pop r c) rows l).
Proof.
  induction rows as [|r rows IH]; intros l m H; cbn [fold_left]; [exact H|].
  apply IH, list_pop_length, H.
Qed.

Lemma act_in_step (w : App2.MainWindow) (a : Action) :
  List.length (App2.pbar w) = List.length (App2.jobs w) ->
  List.length (App2.pbar (act w a)) = List.length (App2.jobs (act w a)).
Proof.
  intros H. destruct a as [e| |sels]; cbn [act].
  - destruct e as [j| |row|row b|pct|st|ok msg]; cbn [App2.step].
    + cbn [App2.pbar App2.jobs]. rewrite !length_app, H. reflexivity.
    + pose proof (Forall2_length (process_next_changes w)) as Hl.
      rewrite <- Hl, <- H. unfold App2.process_next.
      destruct (App2.worker_running w); [reflexivity|].
      destruct (App2.scan (App2.jobs w) 0) as [js [i|]]; [|reflexivity].
      destruct (nth_error js i) as [job|]; [|reflexivity].
      destruct (andb (App2.Status_eqb (App2.status job) App2.incompatible)
                     (negb (App2.skip_if_incompatible job))); reflexivity.
    + unfold App2._remove_row.
      destruct (andb _ _); [exact H|].
      cbn [App2.pbar App2.jobs]. apply list_pop_length, H.
    + unfold App2._set_skip_flag.
      destruct (nth_error (App2.jobs w) row); [|exact H].
      cbn [App2.pbar App2.jobs]. rewrite list_set_length. exact H.
    + destruct (App2.current_worker w); [|exact H]. unfold App2._on_progress.
      destruct (App2.current_row w); [|exact H].
      cbn [App2.pbar App2.jobs]. rewrite list_set_length. exact H.
    + destruct (App2.current_worker w); [|exact H]. unfold App2._on_status.
      destruct (App2.current_row w) as [row|]; [|exact H].
      destruct (nth_error (App2.jobs w) row); [|exact H].
      cbn [App2.pbar App2.jobs]. rewrite list_set_length. exact H.
    + destruct (App2.current_worker w); [|exact H]. unfold App2._on_finished.
      destruct (App2.current_row w) as [row|]; [|exact H].
      destruct (nth_error (App2.jobs w) row); [|exact H].
      cbn [App2.pbar App2.jobs]. destruct ok; rewrite ?list_set_length; exact H.
  - unfold App2.clear_done. rewrite clear_fold.
    cbn [App2.pbar App2.jobs]. apply pops_length, H.
  - unfold App2.remove_selected. rewrite remove_rows_fold.
    cbn [App2.pbar App2.jobs]. apply pops_length, H.
Qed.

(** X18. Whatever the user and the workers do to the window of app2.py, from the
    empty window on, the table has as many rows as there are jobs: adding,
    dispatching, the notifications of a worker, removing a row or a
    selection and clearing the finished rows all keep the two in step, so
    a row number always names a job or neither a row nor a job. *)
Theorem X_app2_table_and_jobs_in_step :
  forall acts : list Action,
    List.length (App2.pbar (fold_left act acts App2.initial))
    = List.length (App2.jobs (fold_left act acts App2.initial)).
Proof.
  intros acts.
  assert (H : forall w,
             List.length (App2.pbar w) = List.length (App2.jobs w) ->
             List.length (App2.pbar (fold_left act acts w))
             = List.length (App2.jobs (fold_left act acts w))).
  { induction acts as [|a acts IH]; intros w Hw; cbn [fold_left]; [exact Hw|].
    apply IH, act_in_step, Hw. }
  apply H. reflexivity.
Qed.

(** * No cancelled state in app2.py *)







